(** * Community context builder (graphrag/query/context_builder/community_context.py)

    A shallow embedding of [build_community_context] and of its helpers
    [_compute_community_weights], [_rank_report_context] and
    [_convert_report_context_to_df], together with the properties the
    specification states about them.

    Modelling conventions.
    - Python exceptions are values of [pyerror]; every function that can
      raise returns a [result].
    - A Python [float] is modelled by an exact rational [Q]: comparisons
      between finite floats are exact, and [a / b] on two integers is the
      rational quotient.  Printing and parsing of floats ([str], [float()])
      belong to the interpreter and are kept as parameters.
    - A report's [attributes] is an insertion-ordered dictionary (the header
      columns are read from its key order), modelled by an association list.
      Each position of the report list is a distinct object owning its own
      dictionary; the in-place mutation performed by the weight computer is
      returned as the new report list.
    - [community_text_units] is a dictionary used only through lookups, a
      [gmap]; [set(...)] followed by [len] is the size of a [gset].
    - The token counter, the seeded shuffle, the printing and parsing of
      floats and the single-column sort of pandas are collaborators from
      outside the module: they are the fields of the class [Runtime]. *)

From Stdlib Require Import QArith.
From stdpp Require Import base gmap strings list pretty.
From Stdlib Require Import Ascii Permutation Sorted.

Close Scope Q_scope.
Open Scope string_scope.
Open Scope list_scope.
Open Scope Z_scope.

(** ** Exceptions *)

Inductive pyerror : Type :=
| ZeroDivisionError
| ValueError
| KeyError
| TypeError.

Inductive result (A : Type) : Type :=
| Ok (a : A)
| Raise (e : pyerror).
Arguments Ok {A} a.
Arguments Raise {A} e.

Definition rbind {A B : Type} (r : result A) (k : A → result B) : result B :=
  match r with
  | Ok a => k a
  | Raise e => Raise e
  end.

#[global] Instance result_ret : MRet result := fun _ a => Ok a.
#[global] Instance result_bind : MBind result := fun _ _ k r => rbind r k.

Fixpoint rmapM {A B : Type} (f : A → result B) (l : list A) : result (list B) :=
  match l with
  | [] => Ok []
  | a :: l' => b ← f a ; bs ← rmapM f l' ; Ok (b :: bs)
  end.

(** ** Data model *)

(** Values stored in an attribute dictionary ([dict[str, Any]]). *)
Inductive pyval : Type :=
| VInt (n : Z)
| VFloat (x : Q)
| VStr (s : string).

Abbreviation pydict := (list (string * pyval)).

Fixpoint dict_get (k : string) (d : pydict) : option pyval :=
  match d with
  | [] => None
  | (k', v) :: d' => if String.eqb k k' then Some v else dict_get k d'
  end.

(** [d[k] = v]: an existing key keeps its position, a new key goes last. *)
Fixpoint dict_set (k : string) (v : pyval) (d : pydict) : pydict :=
  match d with
  | [] => [(k, v)]
  | (k', v') :: d' =>
      if String.eqb k k' then (k', v) :: d' else (k', v') :: dict_set k v d'
  end.

Definition dict_keys (d : pydict) : list string := map fst d.

Definition dict_mem (k : string) (d : pydict) : bool :=
  match dict_get k d with Some _ => true | None => false end.

(** Modelled from the spec: the classes [CommunityReport] and [Entity] of
    [graphrag.model], which the module imports.  Only the fields the builder
    reads are kept.  [rank] and [attributes] may be absent ([None]), the
    code tests both; [community_ids] likewise. *)
Record CommunityReport : Type := mkReport {
  short_id : string;
  title : string;
  community_id : string;
  summary : string;
  full_content : string;
  rank : option Q;
  attributes : option pydict
}.

Record Entity : Type := mkEntity {
  community_ids : option (list string);
  text_unit_ids : list string
}.

Definition set_attributes (r : CommunityReport) (d : pydict) : CommunityReport :=
  mkReport (short_id r) (title r) (community_id r) (summary r)
           (full_content r) (rank r) (Some d).

(** Truthiness of the optional containers the code tests with [if x]. *)
Definition truthy_list {A : Type} (o : option (list A)) : bool :=
  match o with
  | Some (_ :: _) => true
  | _ => false
  end.

(** [report.attributes], an absent dictionary read as the empty one. *)
Definition attrs_or_empty (r : CommunityReport) : pydict :=
  match attributes r with
  | Some d => d
  | None => []
  end.

(** ** Numbers held in attributes *)

Definition num_of (v : pyval) : option Q :=
  match v with
  | VInt n => Some (inject_Z n)
  | VFloat x => Some x
  | VStr _ => None
  end.

(** [a / b], Python's true division. *)
Definition py_truediv (a b : pyval) : result pyval :=
  match num_of a, num_of b with
  | Some x, Some y =>
      if Qeq_bool y 0 then Raise ZeroDivisionError else Ok (VFloat (x / y)%Q)
  | _, _ => Raise TypeError
  end.

(** [max(l)]: the first greatest element; [ValueError] on an empty list. *)
Definition py_max2 (a b : pyval) : result pyval :=
  match num_of a, num_of b with
  | Some x, Some y => Ok (if Qlt_le_dec x y then b else a)
  | _, _ => Raise TypeError
  end.

Fixpoint py_max_from (acc : pyval) (l : list pyval) : result pyval :=
  match l with
  | [] => Ok acc
  | v :: l' => acc' ← py_max2 acc v ; py_max_from acc' l'
  end.

Definition py_max (l : list pyval) : result pyval :=
  match l with
  | [] => Raise ValueError
  | v :: l' => py_max_from v l'
  end.

(** ** The weight computer: [_compute_community_weights] *)

Module Weights.

(** The two nested loops that fill [community_text_units]. *)
Definition add_community (tus : list string) (m : gmap string (list string))
    (cid : string) : gmap string (list string) :=
  let m' := match m !! cid with
            | None => <[cid := []]> m
            | Some _ => m
            end in
  <[cid := default [] (m' !! cid) ++ tus]> m'.

Definition add_entity (m : gmap string (list string)) (e : Entity)
    : gmap string (list string) :=
  if truthy_list (community_ids e)
  then foldl (add_community (text_unit_ids e)) m (default [] (community_ids e))
  else m.

Definition community_text_units (entities : list Entity)
    : gmap string (list string) :=
  foldl add_entity ∅ entities.

(** [len(set(community_text_units.get(cid, [])))]. *)
Definition raw_weight (m : gmap string (list string)) (cid : string) : Z :=
  Z.of_nat (size (list_to_set (default [] (m !! cid)) : gset string)).

Definition has_attrs (r : CommunityReport) : bool :=
  truthy_list (attributes r).

(** Body of the loop over the reports (lines 218-223). *)
Definition assign_weight (m : gmap string (list string)) (key : string)
    (r : CommunityReport) : CommunityReport :=
  let d := if has_attrs r then attrs_or_empty r else [] in
  set_attributes r (dict_set key (VInt (raw_weight m (community_id r))) d).

Definition assign_weights (entities : list Entity) (key : string)
    (reports : list CommunityReport) : list CommunityReport :=
  map (assign_weight (community_text_units entities) key) reports.

(** [report.attributes[key]] for a report with truthy attributes. *)
Definition weight_of (key : string) (r : CommunityReport) : result pyval :=
  match dict_get key (attrs_or_empty r) with
  | Some v => Ok v
  | None => Raise KeyError
  end.

(** Body of the normalising loop (lines 234-238). *)
Definition normalize_report (key : string) (max_weight : pyval)
    (r : CommunityReport) : result CommunityReport :=
  if has_attrs r
  then w ← weight_of key r ;
       w' ← py_truediv w max_weight ;
       Ok (set_attributes r (dict_set key w' (attrs_or_empty r)))
  else Ok r.

Definition normalize_weights (key : string) (reports : list CommunityReport)
    : result (list CommunityReport) :=
  all_weights ← rmapM (weight_of key) (filter (fun r => has_attrs r = true) reports) ;
  max_weight ← py_max all_weights ;
  rmapM (normalize_report key max_weight) reports.

Definition _compute_community_weights (community_reports : list CommunityReport)
    (entities : list Entity) (weight_attribute : string) (normalize : bool)
    : result (list CommunityReport) :=
  let reports := assign_weights entities weight_attribute community_reports in
  if normalize then normalize_weights weight_attribute reports else Ok reports.

End Weights.

(** The union of the text units of the entities that list [cid]: what the
    specification calls the community's deduplicated text-unit set. *)
Definition distinct_text_units (entities : list Entity) (cid : string)
    : gset string :=
  ⋃ (map (fun e => list_to_set (text_unit_ids e))
         (filter (fun e => cid ∈ default [] (community_ids e)) entities)).

(** ** Tables: the part of pandas the builder uses *)

Inductive cell : Type :=
| CStr (s : string)
| CFloat (x : Q).

Record DataFrame : Type := mkDataFrame {
  columns : list string;
  rows : list (list cell)
}.

(** [pd.DataFrame()] *)
Definition empty_df : DataFrame := mkDataFrame [] [].

(** Collaborators the module calls but does not define:
    - [num_tokens], the token counter of [graphrag.query.llm.text_utils]
      applied to the injected encoder;
    - [shuffle], [random.seed(s)] followed by [random.shuffle];
    - [float_str] and [parse_float], Python's [str] and [float] on floats;
    - [quicksort_desc], the sort pandas runs when [sort_values] is given a
      single column and no [kind]: its default [kind='quicksort'], which
      the library documents as not stable; only the ordering of the result
      is known (see [quicksort_contract]). *)
Class Runtime : Type := mkRuntime {
  num_tokens : string → Z;
  shuffle : Z → list CommunityReport → list CommunityReport;
  float_str : Q → string;
  parse_float : string → option Q;
  quicksort_desc : (list cell → Q) → list (list cell) → list (list cell)
}.

Definition sorted_desc (key : list cell → Q) (l : list (list cell)) : Prop :=
  Sorted (fun a b => (key b <= key a)%Q) l.

(** What pandas promises of the single-column sort: the rows are reordered
    and their keys come out in descending order. *)
Definition quicksort_contract (R : Runtime) : Prop :=
  ∀ key l, Permutation l (quicksort_desc key l)
           ∧ sorted_desc key (quicksort_desc key l).

Definition nl : string := String (ascii_of_nat 10) EmptyString.
Definition dquote : ascii := ascii_of_nat 34.

Definition lower_ascii (c : ascii) : ascii :=
  let n := nat_of_ascii c in
  if ((65 <=? n) && (n <=? 90))%nat then ascii_of_nat (n + 32) else c.

Fixpoint lower (s : string) : string :=
  match s with
  | EmptyString => EmptyString
  | String c s' => String (lower_ascii c) (lower s')
  end.

Module Csv.

(** The csv writer with minimal quoting, as [to_csv] drives it: a field is
    quoted when it holds the separator, the quote character or a character
    of the line terminator, which is the newline. *)
Definition special (sep c : ascii) : bool :=
  Ascii.eqb c sep || Ascii.eqb c dquote || Ascii.eqb c (ascii_of_nat 10).

Fixpoint needs_quote (sep : ascii) (s : string) : bool :=
  match s with
  | EmptyString => false
  | String c s' => special sep c || needs_quote sep s'
  end.

Fixpoint escape (s : string) : string :=
  match s with
  | EmptyString => EmptyString
  | String c s' =>
      if Ascii.eqb c dquote then String c (String c (escape s'))
      else String c (escape s')
  end.

Definition quote_field (sep : ascii) (s : string) : string :=
  if needs_quote sep s
  then String dquote (escape s +:+ String dquote EmptyString)
  else s.

Definition writerow (sep : ascii) (fields : list string) : string :=
  String.concat (String sep EmptyString) (map (quote_field sep) fields) +:+ nl.

Definition cell_text `{Runtime} (c : cell) : string :=
  match c with
  | CStr s => s
  | CFloat x => float_str x
  end.

(** [df.to_csv(index=False, sep=sep)]: the header row, then one line per
    row; a separator that is not one character is refused. *)
Definition to_csv `{Runtime} (sep : string) (df : DataFrame) : result string :=
  match sep with
  | String c EmptyString =>
      Ok (writerow c (columns df)
          +:+ String.concat EmptyString
                (map (fun r => writerow c (map cell_text r)) (rows df)))
  | _ => Raise TypeError
  end.

End Csv.

(** ** The table sorter: [_rank_report_context] *)

Module Sorter.

Fixpoint column_index (c : string) (cols : list string) : option nat :=
  match cols with
  | [] => None
  | c' :: cols' =>
      if String.eqb c c' then Some 0%nat else S <$> column_index c cols'
  end.

(** One cell of [column.astype(float)]: a string is parsed, a float stays. *)
Definition parsed_cell `{Runtime} (c : cell) : option Q :=
  match c with
  | CStr s => parse_float s
  | CFloat x => Some x
  end.

Definition float_cell `{Runtime} (i : nat) (row : list cell) : result (list cell) :=
  match row !! i ≫= parsed_cell with
  | Some x => Ok (<[i := CFloat x]> row)
  | None => Raise ValueError
  end.

(** [df[c] = df[c].astype(float)] *)
Definition astype_float `{Runtime} (c : string) (df : DataFrame) : result DataFrame :=
  match column_index c (columns df) with
  | None => Raise KeyError
  | Some i =>
      rows' ← rmapM (float_cell i) (rows df);
      Ok (mkDataFrame (columns df) rows')
  end.

Definition float_at (i : nat) (row : list cell) : Q :=
  match row !! i with
  | Some (CFloat x) => x
  | _ => 0%Q
  end.

Definition row_key (idxs : list nat) (row : list cell) : list Q :=
  map (fun i => float_at i row) idxs.

(** Lexicographic "strictly greater" on key tuples. *)
Fixpoint lex_gtb (a b : list Q) : bool :=
  match a, b with
  | x :: a', y :: b' =>
      match Qcompare x y with
      | Gt => true
      | Lt => false
      | Eq => lex_gtb a' b'
      end
  | _, _ => false
  end.

(** The stable multi-column sort (pandas' lexsort indexer), descending:
    a row is inserted in front of the first row that is not strictly
    greater, so it stays ahead of later rows with the same keys. *)
Fixpoint insert_desc {A : Type} (gt : A → A → bool) (x : A) (l : list A) : list A :=
  match l with
  | [] => [x]
  | y :: l' => if gt y x then y :: insert_desc gt x l' else x :: l
  end.

Definition lexsort_desc {A : Type} (gt : A → A → bool) (l : list A) : list A :=
  foldr (insert_desc gt) [] l.

Definition column_indexes (by_ : list string) (cols : list string)
    : result (list nat) :=
  rmapM (fun c => match column_index c cols with
                  | Some i => Ok i
                  | None => Raise KeyError
                  end) by_.

Definition rows_gtb (idxs : list nat) (a b : list cell) : bool :=
  lex_gtb (row_key idxs a) (row_key idxs b).

(** [df.sort_values(by=by, ascending=False)]: with one sort column pandas
    runs its default quicksort, with several the stable lexsort. *)
Definition sort_values `{Runtime} (by_ : list string) (df : DataFrame) : result DataFrame :=
  idxs ← column_indexes by_ (columns df);
  match idxs with
  | [i] => Ok (mkDataFrame (columns df) (quicksort_desc (float_at i) (rows df)))
  | _ => Ok (mkDataFrame (columns df) (lexsort_desc (rows_gtb idxs) (rows df)))
  end.

(** [if name:] for a [str | None]. *)
Definition given (name : option string) : option string :=
  match name with
  | Some EmptyString => None
  | _ => name
  end.

(** Lines 248-254: the sort columns, and the table with those columns
    turned into floats. *)
Definition float_columns `{Runtime} (report_df : DataFrame)
    (weight_column rank_column : option string)
    : result (list string * DataFrame) :=
  '(rank_attributes, report_df) ←
      match given weight_column with
      | Some w => df' ← astype_float w report_df; Ok ([w], df')
      | None => Ok ([], report_df)
      end;
  match given rank_column with
  | Some r => df' ← astype_float r report_df; Ok (rank_attributes ++ [r], df')
  | None => Ok (rank_attributes, report_df)
  end.

Definition _rank_report_context `{Runtime} (report_df : DataFrame)
    (weight_column rank_column : option string) : result DataFrame :=
  '(rank_attributes, report_df) ←
      float_columns report_df weight_column rank_column;
  if (0 <? length rank_attributes)%nat
  then sort_values rank_attributes report_df
  else Ok report_df.

(** [pd.DataFrame(context_records, columns=header)] followed by the sort.
    The constructor refuses rows whose width differs from the header. *)
Definition _convert_report_context_to_df `{Runtime}
    (context_records : list (list string)) (header : list string)
    (weight_column rank_column : option string) : result DataFrame :=
  if forallb (fun r => (length r =? length header)%nat) context_records
  then _rank_report_context
         (mkDataFrame header (map (map CStr) context_records))
         weight_column rank_column
  else Raise ValueError.

End Sorter.

(** ** The builder: [build_community_context] *)

Record Config : Type := mkConfig {
  use_community_summary : bool;
  column_delimiter : string;
  shuffle_data : bool;
  include_community_rank : bool;
  min_community_rank : Z;
  community_rank_name : string;
  include_community_weight : bool;
  community_weight_name : string;
  normalize_community_weight : bool;
  max_tokens : Z;
  single_batch : bool;
  context_name : string;
  random_state : Z
}.

(** The text member of the returned pair: [str | list[str]]. *)
Inductive context_text : Type :=
| TextStr (s : string)
| TextList (l : list string).

Abbreviation tables := (gmap string DataFrame).

(** State of the batching loop (the five local variables it updates). *)
Record LoopState : Type := mkLoopState {
  current_context_text : string;
  current_tokens : Z;
  current_context_records : list (list string);
  all_context_text : list string;
  all_context_records : list DataFrame
}.

(** Outcome of one iteration: go on, or leave through the [return] of the
    single-batch branch. *)
Inductive step_out : Type :=
| Continue (st : LoopState)
| Return (text : string) (record_df : DataFrame).

Module Builder.

(** The condition of lines 49-57. *)
Definition wants_weights (cfg : Config) (community_reports : list CommunityReport)
    (entities : option (list Entity)) : bool :=
  truthy_list entities
  && (0 <? length community_reports)%nat
  && include_community_weight cfg
  && match community_reports with
     | r0 :: _ =>
         match attributes r0 with
         | None => true
         | Some d => negb (dict_mem (community_weight_name cfg) d)
         end
     | [] => false
     end.

Definition weight_stage (cfg : Config) (community_reports : list CommunityReport)
    (entities : option (list Entity)) : result (list CommunityReport) :=
  if wants_weights cfg community_reports entities
  then Weights._compute_community_weights community_reports
         (default [] entities) (community_weight_name cfg)
         (normalize_community_weight cfg)
  else Ok community_reports.

(** [report.rank and report.rank >= min_community_rank] *)
Definition selected (cfg : Config) (report : CommunityReport) : bool :=
  match rank report with
  | Some x => negb (Qeq_bool x 0) && Qle_bool (inject_Z (min_community_rank cfg)) x
  | None => false
  end.

Definition select_reports (cfg : Config) (community_reports : list CommunityReport)
    : list CommunityReport :=
  filter (fun r => selected cfg r = true) community_reports.

Definition pystr `{Runtime} (v : pyval) : string :=
  match v with
  | VInt n => pretty n
  | VFloat x => float_str x
  | VStr s => s
  end.

Definition str_rank `{Runtime} (r : option Q) : string :=
  match r with
  | Some x => float_str x
  | None => "None"
  end.

Definition attribute_cols (cfg : Config) (selected_reports : list CommunityReport)
    : list string :=
  let cols := match selected_reports with
              | r0 :: _ =>
                  if Weights.has_attrs r0 then dict_keys (attrs_or_empty r0) else []
              | [] => []
              end in
  let cols := filter (fun col => col ∉ ["id"; "title"]) cols in
  if include_community_weight cfg then cols
  else filter (fun col => col ≠ community_weight_name cfg) cols.

Definition header (cfg : Config) (selected_reports : list CommunityReport)
    : list string :=
  ["id"; "title"] ++ attribute_cols cfg selected_reports
  ++ [if use_community_summary cfg then "summary" else "content"]
  ++ (if include_community_rank cfg then [community_rank_name cfg] else []).

(** The banner line and the joined header line. *)
Definition header_text (cfg : Config) (hdr : list string) : string :=
  "-----" +:+ context_name cfg +:+ "-----" +:+ nl
  +:+ String.concat (column_delimiter cfg) hdr +:+ nl.

(** [new_context] of lines 108-121. *)
Definition new_context `{Runtime} (cfg : Config) (cols : list string)
    (report : CommunityReport) : list string :=
  [short_id report; title report]
  ++ map (fun field =>
            if Weights.has_attrs report
            then match dict_get field (attrs_or_empty report) with
                 | Some v => pystr v
                 | None => EmptyString
                 end
            else EmptyString) cols
  ++ [if use_community_summary cfg then summary report else full_content report]
  ++ (if include_community_rank cfg then [str_rank (rank report)] else []).

Definition row_text (cfg : Config) (row : list string) : string :=
  String.concat (column_delimiter cfg) row +:+ nl.

Definition weight_column (cfg : Config) (entities : option (list Entity))
    : option string :=
  if truthy_list entities && include_community_weight cfg
  then Some (community_weight_name cfg) else None.

Definition rank_column (cfg : Config) : option string :=
  if include_community_rank cfg then Some (community_rank_name cfg) else None.

(** Lines 134-148 and 176-188: the table of the batch held in
    [current_context_records], or the empty table when only the header is
    there. *)
Definition close_batch `{Runtime} (cfg : Config) (entities : option (list Entity))
    (records : list (list string)) : result DataFrame :=
  if (1 <? length records)%nat
  then Sorter._convert_report_context_to_df (tail records)
         (default [] (head records))
         (weight_column cfg entities) (rank_column cfg)
  else Ok empty_df.

Definition initial_state `{Runtime} (cfg : Config) (hdr : list string) : LoopState :=
  mkLoopState (header_text cfg hdr) (num_tokens (header_text cfg hdr)) [hdr] [] [].

(** One iteration of the loop of lines 106-170. *)
Definition loop_step `{Runtime} (cfg : Config) (entities : option (list Entity))
    (hdr cols : list string) (st : LoopState) (report : CommunityReport)
    : result step_out :=
  let new_context := new_context cfg cols report in
  let new_context_text := row_text cfg new_context in
  let new_tokens := num_tokens new_context_text in
  if current_tokens st + new_tokens >? max_tokens cfg
  then
    record_df ← close_batch cfg entities (current_context_records st);
    text ← Csv.to_csv (column_delimiter cfg) record_df;
    if single_batch cfg
    then Ok (Return text record_df)
    else Ok (Continue
               (mkLoopState (header_text cfg hdr)
                            (num_tokens (header_text cfg hdr))
                            [hdr]
                            (all_context_text st ++ [text])
                            (all_context_records st ++ [record_df])))
  else
    Ok (Continue
          (mkLoopState (current_context_text st +:+ new_context_text)
                       (current_tokens st + new_tokens)
                       (current_context_records st ++ [new_context])
                       (all_context_text st)
                       (all_context_records st))).

Fixpoint run_loop `{Runtime} (cfg : Config) (entities : option (list Entity))
    (hdr cols : list string) (st : LoopState) (reports : list CommunityReport)
    : result step_out :=
  match reports with
  | [] => Ok (Continue st)
  | report :: reports' =>
      out ← loop_step cfg entities hdr cols st report;
      match out with
      | Continue st' => run_loop cfg entities hdr cols st' reports'
      | Return text record_df => Ok (Return text record_df)
      end
  end.

(** [pd.concat(frames, ignore_index=True)] for frames that either carry the
    header of this call or are empty: the rows are chained under the columns
    of the frames in order of first appearance. *)
Definition pd_concat (frames : list DataFrame) : result DataFrame :=
  match frames with
  | [] => Raise ValueError
  | _ => Ok (mkDataFrame (remove_dups (concat (map columns frames)))
                         (concat (map rows frames)))
  end.

(** Lines 175-193. *)
Definition finish `{Runtime} (cfg : Config) (entities : option (list Entity))
    (st : LoopState) : result (context_text * tables) :=
  '(texts, frames) ←
      (if bool_decide (current_context_text st ∉ all_context_text st)
       then
         record_df ← close_batch cfg entities (current_context_records st);
         text ← Csv.to_csv (column_delimiter cfg) record_df;
         Ok (all_context_text st ++ [text], all_context_records st ++ [record_df])
       else Ok (all_context_text st, all_context_records st));
  table ← pd_concat frames;
  Ok (TextList texts, {[ lower (context_name cfg) := table ]}).

(** Lines 79-193, on the selected and shuffled reports. *)
Definition accumulate `{Runtime} (cfg : Config) (entities : option (list Entity))
    (selected_reports : list CommunityReport) : result (context_text * tables) :=
  let hdr := header cfg selected_reports in
  let cols := attribute_cols cfg selected_reports in
  out ← run_loop cfg entities hdr cols (initial_state cfg hdr) selected_reports;
  match out with
  | Return text record_df =>
      Ok (TextStr text, {[ lower (context_name cfg) := record_df ]})
  | Continue st => finish cfg entities st
  end.

(** Lines 75-77. *)
Definition shuffled `{Runtime} (cfg : Config)
    (selected_reports : list CommunityReport) : list CommunityReport :=
  if shuffle_data cfg
  then shuffle (random_state cfg) selected_reports
  else selected_reports.

(** The whole function.  The third component of the result is the report
    list as the caller sees it afterwards (weights are written in place). *)
Definition build_community_context `{Runtime} (cfg : Config)
    (community_reports : list CommunityReport) (entities : option (list Entity))
    : result (context_text * tables * list CommunityReport) :=
  community_reports ← weight_stage cfg community_reports entities;
  let selected_reports := select_reports cfg community_reports in
  match selected_reports with
  | [] => Ok (TextList [], ∅, community_reports)
  | _ =>
      let selected_reports := shuffled cfg selected_reports in
      '(text, tbls) ← accumulate cfg entities selected_reports;
      Ok (text, tbls, community_reports)
  end.

End Builder.

(** ** The single-column sort as pandas and numpy run it

    [sort_values] on one column calls [nargsort(k, kind='quicksort',
    ascending=False)]: the keys are reversed, argsorted in ascending order,
    and the indexer that comes back is reversed.  The ascending argsort is
    numpy's [kind='quicksort'], which on x86 processors with AVX2 or
    AVX-512 is the key-index sort of x86-simd-sort: an array that fits one
    register is sorted by a bitonic network of compare-and-merge steps on
    the lanes of that register. *)

Module Numpy.

(** A lane of the register: a key and the position it was loaded from.
    The lanes past the end of the array hold the greatest key ([None]). *)
Record lane : Type := mkLane { key : option Q; arg : nat }.

Definition key_ltb (a b : option Q) : bool :=
  match a, b with
  | Some x, Some y => match Qcompare x y with Lt => true | _ => false end
  | Some _, None => true
  | None, _ => false
  end.

(** [min(a, b)] and [max(a, b)] of the vector unit: [b] unless [a] is
    strictly smaller (strictly greater). *)
Definition key_min (a b : option Q) : option Q := if key_ltb a b then a else b.
Definition key_max (a b : option Q) : option Q := if key_ltb b a then a else b.
Definition key_eqb (a b : option Q) : bool :=
  negb (key_ltb a b) && negb (key_ltb b a).

(** [cmp_merge(in1, in2, indexes1, indexes2, mask)], where [in2] is [in1]
    permuted by [partner]: a lane keeps the smaller of the two keys, or the
    greater where the mask is set, and takes the index of its partner unless
    the key it ends with equals the one it had. *)
Definition cmp_merge (partner : nat → nat) (mask : nat → bool) (reg : list lane)
    : list lane :=
  imap (fun i in1 =>
          let in2 := default in1 (reg !! partner i) in
          let tmp_key := if mask i then key_max (key in2) (key in1)
                         else key_min (key in2) (key in1) in
          mkLane tmp_key (if key_eqb tmp_key (key in1) then arg in1 else arg in2))
       reg.

(** The lane permutations: neighbours swapped ([shuffle<1,1,1,1>]), blocks
    of [n] lanes reversed ([NETWORK_64BIT_1] for 4, the reversal for the
    whole register), and pairs of lanes swapped ([NETWORK_64BIT_3]). *)
Definition swap_neighbours (i : nat) : nat := if Nat.even i then S i else pred i.
Definition reverse_blocks (n i : nat) : nat := (n * (i / n) + (n - 1 - i mod n))%nat.
Definition swap_pairs (i : nat) : nat :=
  if Nat.even (i / 2) then (i + 2)%nat else (i - 2)%nat.

(** The masks [0xAA], [0xCC] and [0xF0] read lane by lane. *)
Definition oxAA (i : nat) : bool := Nat.odd i.
Definition oxCC (i : nat) : bool := Nat.odd (i / 2).
Definition oxF0 (i : nat) : bool := Nat.odd (i / 4).

(** The network for a register of four 64-bit lanes (AVX2). *)
Definition sort_ymm_64bit (reg : list lane) : list lane :=
  let reg := cmp_merge swap_neighbours oxAA reg in
  let reg := cmp_merge (reverse_blocks 4) oxCC reg in
  cmp_merge swap_neighbours oxAA reg.

(** The network for a register of eight 64-bit lanes (AVX-512). *)
Definition sort_zmm_64bit (reg : list lane) : list lane :=
  let reg := cmp_merge swap_neighbours oxAA reg in
  let reg := cmp_merge (reverse_blocks 4) oxCC reg in
  let reg := cmp_merge swap_neighbours oxAA reg in
  let reg := cmp_merge (reverse_blocks 8) oxF0 reg in
  let reg := cmp_merge swap_pairs oxCC reg in
  cmp_merge swap_neighbours oxAA reg.

(** [arr.argsort(kind='quicksort')] for an array without NaN that fits one
    register of [lanes] lanes; longer arrays take several registers and are
    not modelled ([None]). *)
Definition argsort (sort_reg : list lane → list lane) (lanes : nat) (arr : list Q)
    : option (list nat) :=
  if (length arr <=? lanes)%nat
  then
    let reg := imap (fun i k => mkLane (Some k) i) arr
               ++ replicate (lanes - length arr) (mkLane None 0) in
    Some (map arg (take (length arr) (sort_reg reg)))
  else None.

(** [nargsort(items, kind='quicksort', ascending=False)] of pandas, for
    items without NaN. *)
Definition nargsort_desc (argsort : list Q → option (list nat)) (items : list Q)
    : option (list nat) :=
  let idx := seq 0 (length items) in
  let non_nans := rev items in
  let non_nan_idx := rev idx in
  indexer ← argsort non_nans;
  Some (rev (omap (fun p => non_nan_idx !! p) indexer)).

(** [df.take(indexer)] on the rows. *)
Definition take_rows {A : Type} (indexer : list nat) (rows : list A) : list A :=
  omap (fun i => rows !! i) indexer.

End Numpy.

(** ** A concrete runtime for the worked examples

    One token per character, a shuffle that reverses the list, floats
    printed as [n.0] (or [p/q] when not integral), a reader of unsigned
    literals in either form, and for the single-column sort either a stable
    one (what numpy's scalar quicksort does on the short tables used here)
    or the one-register sort of [Numpy]. *)

Module Demo.

Fixpoint digits (acc : Z) (s : string) : option Z :=
  match s with
  | EmptyString => Some acc
  | String c s' =>
      let n := Z.of_nat (nat_of_ascii c) in
      if (48 <=? n) && (n <=? 57) then digits (10 * acc + (n - 48)) s' else None
  end.

Fixpoint split_at (sep : ascii) (s : string) : string * option string :=
  match s with
  | EmptyString => (EmptyString, None)
  | String c s' =>
      if Ascii.eqb c sep then (EmptyString, Some s')
      else let '(a, b) := split_at sep s' in (String c a, b)
  end.

(** Reads [12], [12.5] and the fractions [p/q] that [show_float] prints. *)
Definition read_decimal (s : string) : option Q :=
  match split_at "/"%char s with
  | (p, Some q) =>
      match digits 0 p, digits 0 q with
      | Some x, Some (Z.pos y) => Some (Qmake x y)
      | _, _ => None
      end
  | (_, None) =>
      match split_at "."%char s with
      | (EmptyString, _) => None
      | (a, None) => inject_Z <$> digits 0 a
      | (a, Some b) =>
          match digits 0 a, digits 0 b with
          | Some x, Some y =>
              Some (inject_Z x
                    + inject_Z y / inject_Z (10 ^ Z.of_nat (String.length b)))%Q
          | _, _ => None
          end
      end
  end.

Definition show_float (x : Q) : string :=
  let y := Qred x in
  match Qden y with
  | 1%positive => pretty (Qnum y) +:+ ".0"
  | d => pretty (Qnum y) +:+ "/" +:+ pretty (Z.pos d)
  end.

Definition key_gtb (key : list cell → Q) (a b : list cell) : bool :=
  match Qcompare (key a) (key b) with Gt => true | _ => false end.

(** Sorted descending, equal keys in arrival order. *)
Definition stable_sort (key : list cell → Q) (l : list (list cell))
    : list (list cell) :=
  Sorter.lexsort_desc (key_gtb key) l.

Definition count_chars (s : string) : Z := Z.of_nat (String.length s).

Definition runtime : Runtime :=
  mkRuntime count_chars (fun _ l => rev l) show_float read_decimal stable_sort.

(** The single-column sort of pandas on a processor with AVX-512, for
    tables of up to eight rows.  A longer table does not fit one register;
    that case is not modelled, the sort answers with the stable one there
    and no statement uses it on such a table. *)
Definition simd_sort (key : list cell → Q) (l : list (list cell))
    : list (list cell) :=
  match Numpy.nargsort_desc (Numpy.argsort Numpy.sort_zmm_64bit 8) (map key l) with
  | Some indexer => Numpy.take_rows indexer l
  | None => stable_sort key l
  end.

Definition simd_runtime : Runtime :=
  mkRuntime count_chars (fun _ l => rev l) show_float read_decimal simd_sort.

(** The defaults of the signature, with the shuffle switched off and a
    budget to be chosen. *)
Definition config (budget : Z) (single : bool) : Config :=
  mkConfig true "|" false false 0 "rank" true "occurrence weight" true
           budget single "Reports" 86.

(** The same with the rank column switched on, for the calls that sort on
    both columns. *)
Definition ranked_config : Config :=
  mkConfig true "|" false true 0 "rank" true "occurrence weight" true
           100 false "Reports" 86.

Definition report (id cid body : string) (rk : option Q) : CommunityReport :=
  mkReport id ("T" +:+ id) cid body body rk None.

Definition report_a : CommunityReport := report "1" "c1" "aaaa" (Some 1%Q).
Definition report_b : CommunityReport := report "2" "c2" "bbbb" (Some 2%Q).
Definition rank_zero : CommunityReport := report "0" "c1" "zzzz" (Some 0%Q).
Definition unranked : CommunityReport := report "3" "c1" "cccc" None.

(** The same report once the weight has been written into it. *)
Definition weighted_a : CommunityReport :=
  set_attributes report_a [("occurrence weight", VFloat 1%Q)].

(** An entity of a community none of the reports above describes. *)
Definition stranger : Entity := mkEntity (Some ["c9"]) ["t1"].

(** Two entities of community c1 sharing one text unit. *)
Definition members : list Entity :=
  [mkEntity (Some ["c1"]) ["t1"; "t2"]; mkEntity (Some ["c1"; "c2"]) ["t2"]].

(** The loop state once [reports] have gone through the loop. *)
Definition state_after (cfg : Config) (sel reports : list CommunityReport)
    : LoopState :=
  let hdr := Builder.header cfg sel in
  let start := Builder.initial_state (H := runtime) cfg hdr in
  match Builder.run_loop (H := runtime) cfg None hdr
          (Builder.attribute_cols cfg sel) start reports with
  | Ok (Continue st) => st
  | _ => start
  end.

End Demo.

(** ** Vocabulary of the statements *)

Definition starts_with_dash (s : string) : bool :=
  match s with
  | String c _ => Ascii.eqb c "-"%char
  | EmptyString => false
  end.

Definition sum_tokens `{Runtime} (cfg : Config) (records : list (list string)) : Z :=
  foldr Z.add 0 (map (fun row => num_tokens (Builder.row_text cfg row)) records).

(** Tokens of the header block plus the tokens of every row text of the
    batch held in [records] (whose first element is the header). *)
Definition batch_tokens `{Runtime} (cfg : Config) (hdr : list string)
    (records : list (list string)) : Z :=
  num_tokens (Builder.header_text cfg hdr) + sum_tokens cfg (tail records).

(** What the loop maintains. *)
Record loop_inv `{Runtime} (cfg : Config) (hdr : list string) (st : LoopState)
    : Prop := mkLoopInv {
  inv_head : head (current_context_records st) = Some hdr;
  inv_tokens :
    current_tokens st = batch_tokens cfg hdr (current_context_records st);
  inv_budget :
    tail (current_context_records st) ≠ [] → current_tokens st <= max_tokens cfg;
  inv_current : starts_with_dash (current_context_text st) = true;
  inv_texts :
    Forall (fun t => starts_with_dash t = false) (all_context_text st);
  inv_single :
    single_batch cfg = true →
    all_context_text st = [] ∧ all_context_records st = []
}.

(** [st] is a state whose batch the builder closes while it works through
    [selected_reports]: the loop has consumed [processed], and either the
    next report overflows the budget (lines 129-155) or there is no next
    report (lines 175-189). *)
Definition closes_batch `{Runtime} (cfg : Config) (entities : option (list Entity))
    (selected_reports : list CommunityReport) (st : LoopState) : Prop :=
  let hdr := Builder.header cfg selected_reports in
  let cols := Builder.attribute_cols cfg selected_reports in
  ∃ processed rest,
    selected_reports = processed ++ rest
    ∧ Builder.run_loop cfg entities hdr cols (Builder.initial_state cfg hdr)
        processed = Ok (Continue st)
    ∧ match rest with
      | [] => True
      | report :: _ =>
          current_tokens st
          + num_tokens (Builder.row_text cfg (Builder.new_context cfg cols report))
          > max_tokens cfg
      end.

(** Two rows tie on the sort columns when neither is strictly greater. *)
Definition tied (idxs : list nat) (a b : list cell) : bool :=
  negb (Sorter.rows_gtb idxs a b) && negb (Sorter.rows_gtb idxs b a).

(** Descending on the sort columns, compared lexicographically. *)
Definition rows_sorted (idxs : list nat) (l : list (list cell)) : Prop :=
  Sorted (fun a b => Sorter.rows_gtb idxs b a = false) l.

(** Rows that tie come out in the order they went in. *)
Definition keeps_tie_order (idxs : list nat) (l l' : list (list cell)) : Prop :=
  ∀ x, filter (fun y => tied idxs x y = true) l'
       = filter (fun y => tied idxs x y = true) l.

(** The cells of [row] in the sort columns parse to the floats found in
    [row'] at the same places. *)
Definition parsed_into `{Runtime} (idxs : list nat) (row row' : list cell) : Prop :=
  ∀ i, i ∈ idxs →
       ∃ c, row !! i = Some c ∧ Sorter.parsed_cell c = Some (Sorter.float_at i row').

(** [row'] is [row] except possibly in the columns [idxs]. *)
Definition same_off (idxs : list nat) (row row' : list cell) : Prop :=
  length row' = length row ∧ ∀ j, j ∉ idxs → row' !! j = row !! j.

(** [row'] is [row] except possibly under the columns called [names]. *)
Definition same_outside (names cols : list string) (row row' : list cell) : Prop :=
  length row' = length row
  ∧ ∀ j c, cols !! j = Some c → c ∉ names → row' !! j = row !! j.

(** The columns [_rank_report_context] sorts by: weight first, then rank. *)
Definition sort_columns (weight_column rank_column : option string) : list string :=
  option_list (Sorter.given weight_column) ++ option_list (Sorter.given rank_column).

(** What the weight computer may not touch: every field but [attributes]. *)
Definition same_but_attributes (r r' : CommunityReport) : Prop :=
  short_id r' = short_id r ∧ title r' = title r
  ∧ community_id r' = community_id r ∧ summary r' = summary r
  ∧ full_content r' = full_content r ∧ rank r' = rank r.

(** What one report looks like after the weight computer, compared with
    before: only the entry of the weight key differs, and a new key comes
    after the keys already there. *)
Definition weight_only (key : string) (r r' : CommunityReport) : Prop :=
  same_but_attributes r r'
  ∧ (∀ k, k ≠ key →
       dict_get k (attrs_or_empty r') = dict_get k (attrs_or_empty r))
  ∧ dict_keys (attrs_or_empty r')
    = if dict_mem key (attrs_or_empty r) then dict_keys (attrs_or_empty r)
      else dict_keys (attrs_or_empty r) ++ [key].

(** The raw weight the computer assigns to a report for given entities. *)
Definition raw_weight_of (entities : list Entity) (r : CommunityReport) : Z :=
  Weights.raw_weight (Weights.community_text_units entities) (community_id r).

(** The weight attribute of a report prints to a text that reads back as a
    float: what the sort of the weight column needs from a row. *)
Definition weight_parses `{Runtime} (key : string) (r : CommunityReport) : Prop :=
  ∃ v y, dict_get key (attrs_or_empty r) = Some v
         ∧ parse_float (Builder.pystr v) = Some y.

(** The rank of a report prints to a text that reads back as a float. *)
Definition rank_parses `{Runtime} (r : CommunityReport) : Prop :=
  ∃ y, parse_float (Builder.str_rank (rank r)) = Some y.

(** The name of the column that holds the report body. *)
Definition body_column (cfg : Config) : string :=
  if use_community_summary cfg then "summary" else "content".

(** The banner line that opens the text whose tokens are counted. *)
Definition banner (cfg : Config) : string :=
  "-----" +:+ context_name cfg +:+ "-----" +:+ nl.

(** ** The completion client: [OpenAICompletionLLM._execute_llm]
    (graphrag/llm/openai/openai_completion_llm.py) *)

Module Llm.

(** [s.split(sep)] for a one-character separator: never an empty list. *)
Fixpoint split (sep : ascii) (s : string) : list string :=
  match s with
  | EmptyString => [EmptyString]
  | String c s' =>
      if Ascii.eqb c sep then EmptyString :: split sep s'
      else match split sep s' with
           | part :: parts => String c part :: parts
           | [] => [String c EmptyString]
           end
  end.

(** [sep.join(parts)] *)
Definition join (sep : ascii) (parts : list string) : string :=
  String.concat (String sep EmptyString) parts.

Fixpoint has_char (c : ascii) (s : string) : bool :=
  match s with
  | EmptyString => false
  | String c' s' => Ascii.eqb c' c || has_char c s'
  end.

(** How a call can fail: the starred unpacking finds nothing to bind, the
    completion has no choice, or a collaborator raises. *)
Inductive failure : Type :=
| UnpackError
| IndexError
| Failed (what : string).

Inductive outcome (A : Type) : Type :=
| Done (a : A)
| Fail (f : failure).
Arguments Done {A} a.
Arguments Fail {A} f.

(** What the method calls but the file does not define:
    [get_completion_llm_args] on the configuration, [is_valid_llm_type],
    [use_llm(llm_type, model=...)] followed by [ainvoke(input)], and
    [client.completions.create(prompt=input, **args)], of which only the
    texts of the choices are read. *)
Class Services : Type := mkServices {
  Args : Type;
  get_completion_llm_args : outcome Args;
  is_valid_llm_type : string → bool;
  use_llm_ainvoke : string → string → string → outcome string;
  completions_create : string → Args → outcome (list string)
}.

(** [model] is [self.configuration.lookup('model', '')]. *)
Definition _execute_llm `{Services} (model input : string) : outcome string :=
  match get_completion_llm_args with
  | Fail f => Fail f
  | Done args =>
      match split "."%char model with
      | llm_type :: models =>
          if is_valid_llm_type llm_type
          then use_llm_ainvoke llm_type (join "."%char models) input
          else match completions_create input args with
               | Fail f => Fail f
               | Done (choice :: _) => Done choice
               | Done [] => Fail IndexError
               end
      | [] => Fail UnpackError
      end
  end.

End Llm.

(** Collaborators for the worked examples: one LLM type is known, it answers
    with what it was called with, and the completion client echoes the
    prompt as its only choice. *)
Module LlmDemo.

Definition services : Llm.Services :=
  Llm.mkServices unit (Llm.Done tt)
    (fun llm_type => String.eqb llm_type "ollama")
    (fun llm_type model input =>
       Llm.Done (llm_type +:+ ":" +:+ model +:+ ":" +:+ input))
    (fun input _ => Llm.Done [input]).

End LlmDemo.

(** * Properties *)

(** ** Results *)

Lemma rbind_ok {A B : Type} (r : result A) (k : A → result B) (b : B) :
  r ≫= k = Ok b → ∃ a, r = Ok a ∧ k a = Ok b.
Proof. destruct r as [a|e]; simpl; [eauto | discriminate]. Qed.

Ltac bind_inv H :=
  let a := fresh "a" in
  let Ha := fresh "Ha" in
  apply rbind_ok in H as (a & Ha & H).

Lemma rmapM_ok_length {A B : Type} (f : A → result B) (l : list A) (l' : list B) :
  rmapM f l = Ok l' → length l' = length l.
Proof.
  revert l'. induction l as [|a l IH]; intros l' Hl; simpl in Hl.
  - by injection Hl as <-.
  - bind_inv Hl. bind_inv Hl. injection Hl as <-. simpl. f_equal. by apply IH.
Qed.

Lemma rmapM_Forall2 {A B : Type} (f : A → result B) (l : list A) (l' : list B) :
  rmapM f l = Ok l' → Forall2 (fun a b => f a = Ok b) l l'.
Proof.
  revert l'. induction l as [|a l IH]; intros l' Hl; simpl in Hl.
  - injection Hl as <-. constructor.
  - bind_inv Hl. bind_inv Hl. injection Hl as <-. constructor; [done|]. by apply IH.
Qed.

Lemma Sorted_weaken {A : Type} (R R' : A → A → Prop) (l : list A) :
  (∀ a b, R a b → R' a b) → Sorted R l → Sorted R' l.
Proof.
  intros HR. induction 1 as [|a l Hl IH Hhd]; constructor; [exact IH|].
  destruct Hhd; constructor. by apply HR.
Qed.

(** ** Dictionaries *)

Lemma dict_get_set_eq (k : string) (v : pyval) (d : pydict) :
  dict_get k (dict_set k v d) = Some v.
Proof.
  induction d as [|[k' v'] d IH]; simpl.
  - by rewrite String.eqb_refl.
  - destruct (String.eqb k k') eqn:E; simpl; rewrite E; [done | exact IH].
Qed.

Lemma dict_get_set_ne (k k' : string) (v : pyval) (d : pydict) :
  k ≠ k' → dict_get k' (dict_set k v d) = dict_get k' d.
Proof.
  intros Hne. induction d as [|[k0 v0] d IH]; simpl.
  - destruct (String.eqb_spec k' k); [congruence | done].
  - destruct (String.eqb_spec k k0) as [->|Hk]; simpl.
    + destruct (String.eqb_spec k' k0); [congruence | done].
    + by rewrite IH.
Qed.

Lemma dict_set_nonempty (k : string) (v : pyval) (d : pydict) :
  dict_set k v d ≠ [].
Proof. destruct d as [|[k' v'] d]; simpl; [done | by destruct (String.eqb k k')]. Qed.

(** ** The weight computer *)

Section weight_facts.
Implicit Types (m : gmap string (list string)) (cid : string).

Lemma add_community_units tus m c cid :
  (list_to_set (default [] (Weights.add_community tus m c !! cid)) : gset string)
  = list_to_set (default [] (m !! cid))
    ∪ (if decide (c = cid) then list_to_set tus else ∅).
Proof.
  unfold Weights.add_community.
  destruct (m !! c) as [l|] eqn:Hc; destruct (decide (c = cid)) as [->|Hne];
    rewrite ?lookup_insert_eq, ?lookup_insert_ne by done;
    rewrite ?Hc; simpl; rewrite ?list_to_set_app_L; set_solver.
Qed.

Lemma fold_add_community_units tus cids m cid :
  (list_to_set (default [] (foldl (Weights.add_community tus) m cids !! cid))
     : gset string)
  = list_to_set (default [] (m !! cid))
    ∪ (if decide (cid ∈ cids) then list_to_set tus else ∅).
Proof.
  revert m. induction cids as [|c cids IH]; intros m; simpl.
  - set_solver.
  - rewrite IH, add_community_units.
    destruct (decide (c = cid)) as [->|Hne];
      destruct (decide (cid ∈ cids)) as [Hin|Hin];
      match goal with |- context [decide (cid ∈ ?x :: cids)] =>
        destruct (decide (cid ∈ x :: cids)) as [Hin'|Hin'] end;
      rewrite ?elem_of_cons in Hin'; try tauto; try set_solver.
Qed.

Lemma add_entity_units e m cid :
  (list_to_set (default [] (Weights.add_entity m e !! cid)) : gset string)
  = list_to_set (default [] (m !! cid))
    ∪ (if decide (cid ∈ default [] (community_ids e))
       then list_to_set (text_unit_ids e) else ∅).
Proof.
  unfold Weights.add_entity.
  destruct (community_ids e) as [[|c cids]|]; simpl.
  - set_solver.
  - apply (fold_add_community_units _ (c :: cids)).
  - set_solver.
Qed.

Lemma fold_add_entity_units entities m cid :
  (list_to_set (default [] (foldl Weights.add_entity m entities !! cid))
     : gset string)
  = list_to_set (default [] (m !! cid)) ∪ distinct_text_units entities cid.
Proof.
  revert m. induction entities as [|e es IH]; intros m; simpl.
  - unfold distinct_text_units. simpl. set_solver.
  - rewrite IH, add_entity_units. unfold distinct_text_units.
    rewrite filter_cons. destruct (decide (cid ∈ default [] (community_ids e)));
      simpl; set_solver.
Qed.

(** The dictionary built by the first loop holds, for every community, a
    list whose distinct elements are the community's text units. *)
Lemma community_text_units_spec entities cid :
  (list_to_set (default [] (Weights.community_text_units entities !! cid))
     : gset string)
  = distinct_text_units entities cid.
Proof.
  unfold Weights.community_text_units.
  rewrite fold_add_entity_units, lookup_empty. simpl. set_solver.
Qed.

Lemma distinct_text_units_unreferenced entities cid :
  (∀ e, e ∈ entities → cid ∉ default [] (community_ids e)) →
  distinct_text_units entities cid = ∅.
Proof.
  intros Hno. unfold distinct_text_units.
  induction entities as [|e es IH]; [done|].
  rewrite filter_cons, decide_False by (apply Hno; left).
  apply IH. intros e' He'. apply Hno. by right.
Qed.

Lemma assign_weight_attr m key r :
  dict_get key (attrs_or_empty (Weights.assign_weight m key r))
  = Some (VInt (Weights.raw_weight m (community_id r))).
Proof. unfold Weights.assign_weight. simpl. apply dict_get_set_eq. Qed.

Lemma assign_weight_has_attrs m key r :
  Weights.has_attrs (Weights.assign_weight m key r) = true.
Proof.
  unfold Weights.has_attrs, Weights.assign_weight. simpl.
  match goal with |- context [dict_set ?k ?v ?d] =>
    pose proof (dict_set_nonempty k v d); destruct (dict_set k v d) end; done.
Qed.

End weight_facts.

(** C8. The weight computer sets, for every report, the weight attribute to
    the number of distinct text units of the entities that list the report's
    community, which is 0 when no entity lists it.  This is the state after
    the assignment pass of lines 218-223, which every call performs first,
    and the final state when no normalisation is asked for (normalisation
    then rescales these counts). *)
Theorem weight_is_distinct_text_unit_count
    (reports : list CommunityReport) (entities : list Entity) (key : string) :
  let reports' := Weights.assign_weights entities key reports in
  (∀ normalize,
     Weights._compute_community_weights reports entities key normalize
     = if normalize then Weights.normalize_weights key reports' else Ok reports')
  ∧ length reports' = length reports
  ∧ ∀ (i : nat) (r : CommunityReport), reports !! i = Some r →
      ∃ r', reports' !! i = Some r'
        ∧ community_id r' = community_id r
        ∧ dict_get key (attrs_or_empty r')
          = Some (VInt (Z.of_nat
                    (size (distinct_text_units entities (community_id r)))))
        ∧ ((∀ e, e ∈ entities → community_id r ∉ default [] (community_ids e)) →
           dict_get key (attrs_or_empty r') = Some (VInt 0)).
Proof.
  intros reports'. split; [done|]. split.
  { unfold reports', Weights.assign_weights. by rewrite length_map. }
  intros i r Hi.
  exists (Weights.assign_weight (Weights.community_text_units entities) key r).
  split.
  { unfold reports', Weights.assign_weights. by rewrite list_lookup_fmap, Hi. }
  split; [done|].
  rewrite assign_weight_attr. unfold Weights.raw_weight.
  rewrite community_text_units_spec. split; [done|].
  intros Hno. by rewrite (distinct_text_units_unreferenced _ _ Hno).
Qed.

(** ** Normalisation *)

Section normalize_facts.
Variables (m : gmap string (list string)) (key : string).

Let raw (r : CommunityReport) : Z := Weights.raw_weight m (community_id r).

Lemma raw_weight_nonneg cid : 0 <= Weights.raw_weight m cid.
Proof. unfold Weights.raw_weight. lia. Qed.

Lemma assigned_all_have_attrs reports :
  filter (fun r => Weights.has_attrs r = true)
         (map (Weights.assign_weight m key) reports)
  = map (Weights.assign_weight m key) reports.
Proof.
  induction reports as [|r reports IH]; simpl; [done|].
  rewrite filter_cons, decide_True by apply assign_weight_has_attrs.
  by rewrite IH.
Qed.

Lemma assigned_weight r :
  Weights.weight_of key (Weights.assign_weight m key r) = Ok (VInt (raw r)).
Proof. unfold Weights.weight_of. by rewrite assign_weight_attr. Qed.

Lemma assigned_weights reports :
  rmapM (Weights.weight_of key) (map (Weights.assign_weight m key) reports)
  = Ok (map VInt (map raw reports)).
Proof.
  induction reports as [|r reports IH]; [done|].
  cbn [map rmapM]. rewrite assigned_weight, IH. done.
Qed.

Lemma py_max2_ints a b : py_max2 (VInt a) (VInt b) = Ok (VInt (Z.max a b)).
Proof.
  unfold py_max2. simpl. destruct (Qlt_le_dec (inject_Z a) (inject_Z b)) as [Hlt|Hle].
  - rewrite <- Zlt_Qlt in Hlt. by rewrite Z.max_r by lia.
  - rewrite <- Zle_Qle in Hle. by rewrite Z.max_l by lia.
Qed.

Lemma py_max_from_ints acc zs :
  py_max_from (VInt acc) (map VInt zs) = Ok (VInt (foldl Z.max acc zs)).
Proof.
  revert acc. induction zs as [|z zs IH]; intros acc; [done|].
  cbn [map py_max_from]. rewrite py_max2_ints. simpl. apply IH.
Qed.

Lemma foldl_max_ge acc zs : acc <= foldl Z.max acc zs.
Proof.
  revert acc. induction zs as [|z zs IH]; intros acc; simpl; [lia|].
  specialize (IH (Z.max acc z)). lia.
Qed.

Lemma foldl_max_upper acc zs z : z ∈ zs → z <= foldl Z.max acc zs.
Proof.
  revert acc. induction zs as [|z' zs IH]; intros acc; simpl.
  - by intros ?%elem_of_nil.
  - intros [->|Hin]%elem_of_cons; [|by apply IH].
    pose proof (foldl_max_ge (Z.max acc z') zs). lia.
Qed.

Lemma foldl_max_elem acc zs :
  foldl Z.max acc zs = acc ∨ foldl Z.max acc zs ∈ zs.
Proof.
  revert acc. induction zs as [|z zs IH]; intros acc; simpl; [by left|].
  destruct (IH (Z.max acc z)) as [->|Hin].
  - destruct (Z.max_spec acc z) as [[_ ->]|[_ ->]]; [right; by left | by left].
  - right. by right.
Qed.

(** [max] over integer weights is their greatest element. *)
Lemma py_max_ints zs M :
  M ∈ zs → (∀ z, z ∈ zs → z <= M) → py_max (map VInt zs) = Ok (VInt M).
Proof.
  destruct zs as [|z zs]; [by intros ?%elem_of_nil|]. intros Hin Hmax. simpl.
  rewrite py_max_from_ints. do 2 f_equal.
  assert (foldl Z.max z zs <= M) as Hle.
  { destruct (foldl_max_elem z zs) as [->|Hel];
      apply Hmax; [by left | by right]. }
  assert (M <= foldl Z.max z zs) as Hge.
  { apply elem_of_cons in Hin as [->|Hin];
      [apply foldl_max_ge | by apply foldl_max_upper]. }
  lia.
Qed.

Lemma truediv_ints w M :
  py_truediv (VInt w) (VInt M)
  = if decide (M = 0) then Raise ZeroDivisionError
    else Ok (VFloat (inject_Z w / inject_Z M)).
Proof.
  unfold py_truediv. simpl. destruct (decide (M = 0)) as [->|Hne]; [done|].
  destruct (Qeq_bool (inject_Z M) 0) eqn:E; [|done].
  apply Qeq_bool_iff in E. unfold Qeq in E. simpl in E. lia.
Qed.

Lemma normalize_assigned M r :
  Weights.normalize_report key (VInt M) (Weights.assign_weight m key r)
  = if decide (M = 0) then Raise ZeroDivisionError
    else Ok (set_attributes r
               (dict_set key (VFloat (inject_Z (raw r) / inject_Z M))
                  (attrs_or_empty (Weights.assign_weight m key r)))).
Proof.
  unfold Weights.normalize_report.
  rewrite assign_weight_has_attrs, assigned_weight. simpl.
  rewrite truediv_ints. by destruct (decide (M = 0)).
Qed.

(** When every raw weight is 0 the normalisation divides by 0. *)
Lemma normalize_zero_maximum_raises reports :
  reports ≠ [] → (∀ r, r ∈ reports → raw r = 0) →
  Weights.normalize_weights key (map (Weights.assign_weight m key) reports)
  = Raise ZeroDivisionError.
Proof.
  intros Hne Hzero. unfold Weights.normalize_weights.
  rewrite assigned_all_have_attrs, assigned_weights.
  cbn [mbind result_bind rbind].
  rewrite (py_max_ints _ 0).
  - destruct reports as [|r reports]; [done|]. simpl.
    rewrite normalize_assigned. by rewrite decide_True.
  - destruct reports as [|r reports]; [done|]. simpl.
    apply elem_of_cons. left. symmetry. apply Hzero. by left.
  - intros z (r & -> & Hr)%list_elem_of_fmap. rewrite Hzero; [lia | done].
Qed.

(** When the greatest raw weight [M] is positive, every weight becomes its
    raw value divided by [M]. *)
Lemma normalize_positive_weights reports M :
  M ∈ map raw reports → (∀ r, r ∈ reports → raw r <= M) → 0 < M →
  Weights.normalize_weights key (map (Weights.assign_weight m key) reports)
  = Ok (map (fun r =>
               set_attributes r
                 (dict_set key (VFloat (inject_Z (raw r) / inject_Z M))
                    (attrs_or_empty (Weights.assign_weight m key r))))
            reports).
Proof.
  intros Hin Hmax Hpos. unfold Weights.normalize_weights.
  rewrite assigned_all_have_attrs, assigned_weights.
  cbn [mbind result_bind rbind].
  rewrite (py_max_ints _ M); [|done|].
  - simpl. clear Hin Hmax. induction reports as [|r reports IH]; simpl; [done|].
    rewrite normalize_assigned, decide_False by lia. simpl. by rewrite IH.
  - intros z (r & -> & Hr)%list_elem_of_fmap. by apply Hmax.
Qed.

(** The report that attains the maximum ends with weight 1, every other one
    with a weight between 0 and 1. *)
Lemma normalized_range w M :
  0 <= w → w <= M → 0 < M →
  (0 <= inject_Z w / inject_Z M)%Q ∧ (inject_Z w / inject_Z M <= 1)%Q
  ∧ (inject_Z M / inject_Z M == 1)%Q.
Proof.
  intros Hw HwM HM.
  assert (0 < inject_Z M)%Q as HMq.
  { change 0%Q with (inject_Z 0). by rewrite <- Zlt_Qlt. }
  split; [|split].
  - apply Qle_shift_div_l; [done|]. rewrite Qmult_0_l.
    change 0%Q with (inject_Z 0). by rewrite <- Zle_Qle.
  - apply Qle_shift_div_r; [done|]. rewrite Qmult_1_l. by rewrite <- Zle_Qle.
  - apply Qmult_inv_r. intros E. rewrite E in HMq. by apply Qlt_irrefl in HMq.
Qed.

End normalize_facts.

(** ** The guard in front of the weight computer *)

Section guard_facts.
Context `{Runtime}.
Variables (cfg : Config) (entities : option (list Entity)).

Lemma dict_mem_set (k : string) (v : pyval) (d : pydict) :
  dict_mem k (dict_set k v d) = true.
Proof. unfold dict_mem. by rewrite dict_get_set_eq. Qed.

(** The guard looks at the first report only. *)
Lemma weight_stage_skips reports :
  (∀ r0 rs, reports = r0 :: rs →
     ∃ d, attributes r0 = Some d ∧ dict_mem (community_weight_name cfg) d = true) →
  Builder.weight_stage cfg reports entities = Ok reports.
Proof.
  intros Hkey. unfold Builder.weight_stage, Builder.wants_weights.
  destruct reports as [|r0 rs].
  - by rewrite !andb_false_r.
  - destruct (Hkey r0 rs eq_refl) as (d & -> & ->). by rewrite !andb_false_r.
Qed.

Lemma build_reports_after reports text tbls reports' :
  Builder.build_community_context cfg reports entities = Ok (text, tbls, reports') →
  Builder.weight_stage cfg reports entities = Ok reports'.
Proof.
  unfold Builder.build_community_context. intros Hbuild. bind_inv Hbuild.
  destruct (Builder.select_reports cfg a).
  - by injection Hbuild as _ _ <-.
  - bind_inv Hbuild. destruct a0 as [t tb]. by injection Hbuild as _ _ <-.
Qed.

(** Once the weight computer has run, every report carries the key. *)
Lemma computed_weights_have_key reports key normalize reports' :
  Weights._compute_community_weights reports (default [] entities) key normalize
  = Ok reports' →
  ∀ r, r ∈ reports' → ∃ d, attributes r = Some d ∧ dict_mem key d = true.
Proof.
  unfold Weights._compute_community_weights, Weights.assign_weights.
  destruct normalize.
  - unfold Weights.normalize_weights. intros Hn. bind_inv Hn. bind_inv Hn.
    apply rmapM_Forall2 in Hn. intros r' Hr'.
    destruct (list_elem_of_lookup_1 _ _ Hr') as [i Hi].
    destruct (Forall2_lookup_r _ _ _ _ _ Hn Hi) as (r & Hr & Hnorm).
    apply list_lookup_fmap_Some in Hr as (r0 & -> & _).
    unfold Weights.normalize_report in Hnorm.
    rewrite assign_weight_has_attrs in Hnorm.
    bind_inv Hnorm. bind_inv Hnorm. injection Hnorm as <-. simpl.
    eexists. split; [done|]. apply dict_mem_set.
  - intros [= <-] r (r0 & -> & _)%list_elem_of_fmap. simpl.
    eexists. split; [done|]. apply dict_mem_set.
Qed.

(** Calling the builder again on the reports it left behind never changes
    them a second time. *)
Lemma build_twice reports text tbls reports1 text2 tbls2 reports2 :
  Builder.build_community_context cfg reports entities = Ok (text, tbls, reports1) →
  Builder.build_community_context cfg reports1 entities = Ok (text2, tbls2, reports2) →
  reports2 = reports1.
Proof.
  intros H1%build_reports_after H2%build_reports_after.
  unfold Builder.weight_stage in H1.
  destruct (Builder.wants_weights cfg reports entities) eqn:Hwant.
  - rewrite weight_stage_skips in H2; [by injection H2|].
    intros r0 rs ->. eapply computed_weights_have_key; [exact H1 | by left].
  - injection H1 as <-. unfold Builder.weight_stage in H2.
    rewrite Hwant in H2. by injection H2.
Qed.

End guard_facts.

(** C7. When the weight key is already in the reports' attribute maps, a
    call of the builder computes no weights: the weight stage hands the
    reports back untouched, and whatever the builder returns, the reports
    the caller holds afterwards are the ones passed in. *)
Theorem weight_injection_idempotent `{Runtime} (cfg : Config)
    (community_reports : list CommunityReport) (entities : option (list Entity)) :
  (∀ r, r ∈ community_reports →
        ∃ d, attributes r = Some d ∧ dict_mem (community_weight_name cfg) d = true) →
  Builder.weight_stage cfg community_reports entities = Ok community_reports
  ∧ ∀ text tbls reports',
      Builder.build_community_context cfg community_reports entities
      = Ok (text, tbls, reports') →
      reports' = community_reports.
Proof.
  intros Hkey.
  assert (Builder.weight_stage cfg community_reports entities
          = Ok community_reports) as Hw.
  { apply weight_stage_skips. intros r0 rs ->. apply Hkey. by left. }
  split; [exact Hw|].
  intros text tbls reports' Hbuild%build_reports_after. congruence.
Qed.

(** ** The report filter *)

(** What the filter keeps: a rank that is present, not zero, and at least
    the minimum. *)
Lemma selected_iff (cfg : Config) (report : CommunityReport) :
  Builder.selected cfg report = true ↔
  ∃ x, rank report = Some x ∧ ¬ (x == 0)%Q
       ∧ (inject_Z (min_community_rank cfg) <= x)%Q.
Proof.
  unfold Builder.selected. destruct (rank report) as [x|]; split.
  - rewrite andb_true_iff, negb_true_iff. intros [Hnz Hle]. exists x.
    split; [done|]. split; [|by apply Qle_bool_iff].
    intros Hx%Qeq_bool_iff. congruence.
  - intros (y & [= <-] & Hnz & Hle). rewrite andb_true_iff, negb_true_iff.
    split; [|by apply Qle_bool_iff].
    destruct (Qeq_bool x 0) eqn:E; [|done]. by apply Qeq_bool_iff in E.
  - discriminate.
  - by intros (y & [=] & _).
Qed.

Lemma select_reports_spec (cfg : Config) (reports : list CommunityReport)
    (report : CommunityReport) :
  report ∈ Builder.select_reports cfg reports ↔
  report ∈ reports ∧ Builder.selected cfg report = true.
Proof. unfold Builder.select_reports. rewrite list_elem_of_filter. tauto. Qed.

(** The scenario of the specification: ranks 5, 3 and 8 with a minimum rank
    of 4 leave the reports of rank 5 and 8. *)
Example filter_scenario :
  let cfg := mkConfig true "|" false false 4 "rank" true "occurrence weight"
               true 8000 true "Reports" 86 in
  Builder.select_reports cfg
    [Demo.report "1" "c1" "x" (Some 5%Q); Demo.report "2" "c2" "y" (Some 3%Q);
     Demo.report "3" "c3" "z" (Some 8%Q)]
  = [Demo.report "1" "c1" "x" (Some 5%Q); Demo.report "3" "c3" "z" (Some 8%Q)].
Proof. by vm_compute. Qed.

(** ** Rendering *)

Lemma to_csv_no_dash `{Runtime} (sep : string) (df : DataFrame) (s : string) :
  (columns df = [] ∨ ∃ rest, columns df = "id" :: rest) →
  Csv.to_csv sep df = Ok s →
  starts_with_dash s = false.
Proof.
  intros Hcols. unfold Csv.to_csv.
  destruct sep as [|c [|? ?]]; try discriminate.
  intros [= <-]. destruct Hcols as [->|[rest ->]]; [done|].
  unfold Csv.writerow. simpl map. unfold Csv.quote_field at 1.
  destruct (Csv.needs_quote c "id"); destruct rest; reflexivity.
Qed.

Lemma to_csv_empty `{Runtime} (sep : string) (s : string) :
  Csv.to_csv sep empty_df = Ok s → s = nl.
Proof.
  unfold Csv.to_csv. destruct sep as [|c [|? ?]]; try discriminate.
  by intros [= <-].
Qed.

Lemma to_csv_sep `{Runtime} (sep : string) (df df' : DataFrame) (s : string) :
  Csv.to_csv sep df = Ok s → ∃ s', Csv.to_csv sep df' = Ok s'.
Proof.
  unfold Csv.to_csv. destruct sep as [|c [|? ?]]; try discriminate. eauto.
Qed.

(** ** The sorter keeps the header *)

Section sorter_columns.
Context `{Runtime}.

Lemma astype_float_columns c df df' :
  Sorter.astype_float c df = Ok df' → columns df' = columns df.
Proof.
  unfold Sorter.astype_float. destruct (Sorter.column_index c (columns df));
    [|discriminate].
  intros Hdf. bind_inv Hdf. by injection Hdf as <-.
Qed.

Lemma sort_values_columns by_ df df' :
  Sorter.sort_values by_ df = Ok df' → columns df' = columns df.
Proof.
  unfold Sorter.sort_values. intros Hdf. bind_inv Hdf.
  destruct a as [|i [|? ?]]; by injection Hdf as <-.
Qed.

Lemma float_columns_columns df w r by_ df' :
  Sorter.float_columns df w r = Ok (by_, df') → columns df' = columns df.
Proof.
  unfold Sorter.float_columns. intros Hdf.
  bind_inv Hdf. destruct a as [attrs1 df1].
  assert (columns df1 = columns df) as E1.
  { destruct (Sorter.given w).
    - bind_inv Ha. injection Ha as _ <-. by eapply astype_float_columns.
    - by injection Ha as _ <-. }
  destruct (Sorter.given r).
  - bind_inv Hdf. injection Hdf as _ <-.
    apply astype_float_columns in Ha0. congruence.
  - by injection Hdf as _ <-.
Qed.

Lemma rank_report_context_columns df w r df' :
  Sorter._rank_report_context df w r = Ok df' → columns df' = columns df.
Proof.
  unfold Sorter._rank_report_context. intros Hdf.
  bind_inv Hdf. destruct a as [by_ df1].
  apply float_columns_columns in Ha.
  destruct (0 <? length by_)%nat.
  - apply sort_values_columns in Hdf. congruence.
  - injection Hdf as <-. congruence.
Qed.

Lemma convert_columns records hdr w r df :
  Sorter._convert_report_context_to_df records hdr w r = Ok df →
  columns df = hdr.
Proof.
  unfold Sorter._convert_report_context_to_df.
  destruct (forallb _ _); [|discriminate].
  intros Hdf. by apply rank_report_context_columns in Hdf.
Qed.

Lemma close_batch_columns cfg entities records hdr df :
  head records = Some hdr →
  Builder.close_batch cfg entities records = Ok df →
  df = empty_df ∧ tail records = [] ∨ columns df = hdr ∧ tail records ≠ [].
Proof.
  intros Hhd. unfold Builder.close_batch.
  destruct records as [|h [|row records]]; simpl in *.
  - discriminate.
  - intros [= <-]. by left.
  - injection Hhd as ->. intros Hdf. right. split; [|done].
    by eapply convert_columns.
Qed.

End sorter_columns.

(** ** The stable descending sort *)

Section insertion_sort.
Context {A : Type} (gt : A → A → bool).
Hypothesis gt_asym : ∀ a b, gt a b = true → gt b a = false.

Let tie (a b : A) : bool := negb (gt a b) && negb (gt b a).
Hypothesis tie_excl :
  ∀ k x y, tie k x = true → tie k y = true → gt y x = false.

Lemma insert_desc_perm x l : Permutation (x :: l) (Sorter.insert_desc gt x l).
Proof.
  induction l as [|y l IH]; simpl; [done|].
  destruct (gt y x); [|done].
  rewrite <- IH. apply perm_swap.
Qed.

Lemma lexsort_desc_perm l : Permutation l (Sorter.lexsort_desc gt l).
Proof.
  induction l as [|x l IH]; simpl; [done|].
  rewrite <- insert_desc_perm. by constructor.
Qed.

Lemma insert_desc_hd a x l :
  HdRel (fun a b => gt b a = false) a l →
  gt x a = false →
  HdRel (fun a b => gt b a = false) a (Sorter.insert_desc gt x l).
Proof.
  intros Hl Hx. destruct l as [|y l]; simpl; [by constructor|].
  destruct (gt y x); constructor; [by inversion Hl | done].
Qed.

Lemma insert_desc_sorted x l :
  Sorted (fun a b => gt b a = false) l →
  Sorted (fun a b => gt b a = false) (Sorter.insert_desc gt x l).
Proof.
  induction 1 as [|y l Hl IH Hhd]; simpl.
  - repeat constructor.
  - destruct (gt y x) eqn:Hyx.
    + constructor; [exact IH|]. apply insert_desc_hd; [exact Hhd|].
      by apply gt_asym.
    + constructor; [by constructor|]. by constructor.
Qed.

Lemma lexsort_desc_sorted l :
  Sorted (fun a b => gt b a = false) (Sorter.lexsort_desc gt l).
Proof.
  induction l as [|x l IH]; simpl; [constructor|]. by apply insert_desc_sorted.
Qed.

Lemma insert_desc_ties k x l :
  filter (fun y => tie k y = true) (Sorter.insert_desc gt x l)
  = filter (fun y => tie k y = true) (x :: l).
Proof.
  induction l as [|y l IH]; simpl; [done|].
  destruct (gt y x) eqn:Hyx; [|done].
  rewrite (filter_cons _ y), IH, !filter_cons.
  destruct (decide (tie k y = true)) as [Hy|Hy];
    destruct (decide (tie k x = true)) as [Hx|Hx]; try done.
  pose proof (tie_excl k x y Hx Hy). congruence.
Qed.

Lemma lexsort_desc_ties k l :
  filter (fun y => tie k y = true) (Sorter.lexsort_desc gt l)
  = filter (fun y => tie k y = true) l.
Proof.
  induction l as [|x l IH]; simpl; [done|].
  by rewrite insert_desc_ties, !filter_cons, IH.
Qed.

End insertion_sort.

(** ** Lexicographic order on float keys *)

Lemma lex_gtb_asym (a b : list Q) :
  Sorter.lex_gtb a b = true → Sorter.lex_gtb b a = false.
Proof.
  revert b. induction a as [|x a IH]; intros [|y b]; simpl; try done.
  rewrite <- (Qcompare_antisym x y).
  destruct (Qcompare x y); simpl; try done. apply IH.
Qed.

Lemma lex_tie_eq (a b : list Q) :
  length a = length b →
  Sorter.lex_gtb a b = false → Sorter.lex_gtb b a = false →
  Forall2 Qeq a b.
Proof.
  revert b. induction a as [|x a IH]; intros [|y b]; simpl; try done.
  intros [= Hlen]. rewrite <- (Qcompare_antisym x y).
  destruct (Qcompare x y) eqn:Hxy; simpl; try done.
  intros Hab Hba. constructor; [by apply Qeq_alt | by apply IH].
Qed.

Lemma lex_eq_tie (a b : list Q) :
  Forall2 Qeq a b → Sorter.lex_gtb a b = false.
Proof.
  induction 1 as [|x y a b Hxy _ IH]; simpl; [done|].
  apply Qeq_alt in Hxy. by rewrite Hxy.
Qed.

Lemma Forall2_Qeq_sym (a b : list Q) : Forall2 Qeq a b → Forall2 Qeq b a.
Proof. induction 1; constructor; [by apply Qeq_sym | done]. Qed.

Lemma Forall2_Qeq_trans (a b c : list Q) :
  Forall2 Qeq a b → Forall2 Qeq b c → Forall2 Qeq a c.
Proof.
  intros Hab. revert c. induction Hab as [|x y a b Hxy _ IH]; intros c Hbc;
    inversion Hbc; subst; constructor; [by eapply Qeq_trans | by apply IH].
Qed.

Lemma rows_gtb_asym (idxs : list nat) (a b : list cell) :
  Sorter.rows_gtb idxs a b = true → Sorter.rows_gtb idxs b a = false.
Proof. apply lex_gtb_asym. Qed.

Lemma tied_keys (idxs : list nat) (a b : list cell) :
  tied idxs a b = true ↔
  Forall2 Qeq (Sorter.row_key idxs a) (Sorter.row_key idxs b).
Proof.
  unfold tied, Sorter.rows_gtb. rewrite andb_true_iff, !negb_true_iff. split.
  - intros [Hab Hba]. apply lex_tie_eq; [|done|done].
    unfold Sorter.row_key. by rewrite !length_map.
  - intros Heq. split; apply lex_eq_tie; [done | by apply Forall2_Qeq_sym].
Qed.

Lemma rows_tie_excl (idxs : list nat) (k x y : list cell) :
  tied idxs k x = true → tied idxs k y = true → Sorter.rows_gtb idxs y x = false.
Proof.
  rewrite !tied_keys. intros Hkx Hky. apply lex_eq_tie.
  eapply Forall2_Qeq_trans; [|exact Hkx]. by apply Forall2_Qeq_sym.
Qed.

(** Facts about the multi-column sort of [sort_values]. *)
Lemma lexsort_rows_sorted (idxs : list nat) (l : list (list cell)) :
  rows_sorted idxs (Sorter.lexsort_desc (Sorter.rows_gtb idxs) l).
Proof. apply lexsort_desc_sorted, rows_gtb_asym. Qed.

Lemma lexsort_rows_stable (idxs : list nat) (l : list (list cell)) :
  keeps_tie_order idxs l (Sorter.lexsort_desc (Sorter.rows_gtb idxs) l).
Proof. intros x. apply lexsort_desc_ties, rows_tie_excl. Qed.

(** ** The float conversion and the sort of [_rank_report_context] *)

Section sorter_order.
Context `{Runtime}.

Lemma float_cell_spec i row row' :
  Sorter.float_cell i row = Ok row' →
  ∃ c x, row !! i = Some c ∧ Sorter.parsed_cell c = Some x
         ∧ row' = <[i := CFloat x]> row.
Proof.
  unfold Sorter.float_cell. destruct (row !! i) as [c|]; simpl; [|discriminate].
  destruct (Sorter.parsed_cell c) as [x|] eqn:Hc; [|discriminate].
  intros [= <-]. by exists c, x.
Qed.

Lemma float_at_insert i x row c :
  row !! i = Some c → Sorter.float_at i (<[i := CFloat x]> row) = x.
Proof.
  intros Hi. unfold Sorter.float_at.
  rewrite list_lookup_insert_eq; [done|]. by eapply lookup_lt_Some.
Qed.

Lemma float_cell_once i row row' :
  Sorter.float_cell i row = Ok row' → parsed_into [i] row row'.
Proof.
  intros (c & x & Hi & Hc & ->)%float_cell_spec j ->%list_elem_of_singleton.
  exists c. by rewrite (float_at_insert _ _ _ c).
Qed.

Lemma float_cell_twice i j row row1 row2 :
  Sorter.float_cell i row = Ok row1 →
  Sorter.float_cell j row1 = Ok row2 →
  parsed_into [i; j] row row2.
Proof.
  intros (c & x & Hi & Hc & ->)%float_cell_spec
         (c1 & x1 & Hj & Hc1 & ->)%float_cell_spec.
  assert (i < length row)%nat as Hlt by (by eapply lookup_lt_Some).
  destruct (decide (i = j)) as [<-|Hne].
  - rewrite list_lookup_insert_eq in Hj by done. injection Hj as <-.
    injection Hc1 as <-. rewrite list_insert_insert_eq.
    intros k Hk. exists c. split.
    + set_solver.
    + assert (k = i) as -> by set_solver. by rewrite (float_at_insert _ _ _ c).
  - rewrite list_lookup_insert_ne in Hj by done.
    intros k [->|[->|[]%elem_of_nil]%elem_of_cons]%elem_of_cons.
    + exists c. split; [done|]. unfold Sorter.float_at.
      rewrite list_lookup_insert_ne by done.
      by rewrite list_lookup_insert_eq.
    + exists c1. split; [done|]. rewrite (float_at_insert _ _ _ c1); [done|].
      by rewrite list_lookup_insert_ne.
Qed.

Lemma astype_float_spec c df df1 :
  Sorter.astype_float c df = Ok df1 →
  ∃ i, Sorter.column_index c (columns df) = Some i
       ∧ columns df1 = columns df
       ∧ Forall2 (fun row row1 => Sorter.float_cell i row = Ok row1)
                 (rows df) (rows df1).
Proof.
  unfold Sorter.astype_float.
  destruct (Sorter.column_index c (columns df)) as [i|]; [|discriminate].
  intros Hdf. bind_inv Hdf. injection Hdf as <-. exists i.
  repeat split. by apply rmapM_Forall2.
Qed.

Lemma sort_values_spec by_ df df' :
  quicksort_contract H →
  Sorter.sort_values by_ df = Ok df' →
  ∃ idxs, Sorter.column_indexes by_ (columns df) = Ok idxs
          ∧ columns df' = columns df
          ∧ Permutation (rows df) (rows df')
          ∧ rows_sorted idxs (rows df')
          ∧ (length by_ ≠ 1%nat → keeps_tie_order idxs (rows df) (rows df')).
Proof.
  intros Hq Hsort. unfold Sorter.sort_values in Hsort. bind_inv Hsort.
  exists a. split; [done|].
  pose proof (rmapM_ok_length _ _ _ Ha) as Hlen.
  destruct a as [|i [|j idxs]].
  - injection Hsort as <-. simpl. split; [done|].
    split; [apply lexsort_desc_perm|]. split; [apply lexsort_rows_sorted|].
    intros _. apply lexsort_rows_stable.
  - injection Hsort as <-. simpl. destruct (Hq (Sorter.float_at i) (rows df))
      as [Hperm Hsorted].
    split; [done|]. split; [done|]. split; [|by rewrite <- Hlen].
    eapply Sorted_weaken; [|exact Hsorted]. intros a b Hab. simpl in Hab.
    unfold Sorter.rows_gtb. simpl.
    by destruct (Qcompare (Sorter.float_at i b) (Sorter.float_at i a)) eqn:Hc.
  - injection Hsort as <-. simpl. split; [done|].
    split; [apply lexsort_desc_perm|]. split; [apply lexsort_rows_sorted|].
    intros _. apply lexsort_rows_stable.
Qed.

End sorter_order.

Section sorter_result.
Context `{Runtime}.

Lemma Forall2_float_cell_twice i j (l l1 l2 : list (list cell)) :
  Forall2 (fun row row1 => Sorter.float_cell i row = Ok row1) l l1 →
  Forall2 (fun row row1 => Sorter.float_cell j row = Ok row1) l1 l2 →
  Forall2 (parsed_into [i; j]) l l2.
Proof.
  intros H1. revert l2. induction H1 as [|row row1 l l1 Hrow _ IH]; intros l2 H2;
    inversion H2; subst; constructor; [by eapply float_cell_twice | by apply IH].
Qed.

Lemma rows_sorted_no_columns (l : list (list cell)) : rows_sorted [] l.
Proof.
  induction l as [|a l IH]; constructor; [exact IH|]. by destruct l; constructor.
Qed.

Lemma float_columns_spec df w r by_ df1 :
  Sorter.float_columns df w r = Ok (by_, df1) →
  by_ = sort_columns w r
  ∧ columns df1 = columns df
  ∧ (by_ = [] → df1 = df)
  ∧ ∃ idxs, Sorter.column_indexes by_ (columns df) = Ok idxs
            ∧ Forall2 (parsed_into idxs) (rows df) (rows df1).
Proof.
  unfold Sorter.float_columns, sort_columns, Sorter.column_indexes. intros Hf.
  bind_inv Hf. destruct a as [attrs1 df0].
  destruct (Sorter.given w) as [wc|]; destruct (Sorter.given r) as [rc|]; simpl.
  - bind_inv Ha. injection Ha as <- <-. bind_inv Hf. injection Hf as <- <-.
    apply astype_float_spec in Ha0 as (i & Hi & Hc0 & Hr0).
    apply astype_float_spec in Ha as (j & Hj & Hc1 & Hr1).
    rewrite Hc0 in Hj. repeat split; [congruence | done |].
    exists [i; j]. simpl. rewrite Hi. simpl. rewrite Hj. split; [done|].
    by eapply Forall2_float_cell_twice.
  - bind_inv Ha. injection Ha as <- <-. injection Hf as <- <-.
    apply astype_float_spec in Ha0 as (i & Hi & Hc0 & Hr0).
    repeat split; [done | done |].
    exists [i]. simpl. rewrite Hi. split; [done|].
    eapply Forall2_impl; [exact Hr0|]. intros row row1. apply float_cell_once.
  - injection Ha as <- <-. bind_inv Hf. injection Hf as <- <-.
    apply astype_float_spec in Ha as (j & Hj & Hc1 & Hr1).
    repeat split; [done | done |].
    exists [j]. simpl. rewrite Hj. split; [done|].
    eapply Forall2_impl; [exact Hr1|]. intros row row1. apply float_cell_once.
  - injection Ha as <- <-. injection Hf as <- <-.
    repeat split. exists []. split; [done|].
    apply Forall_Forall2_diag, Forall_forall. intros row _ i []%elem_of_nil.
Qed.

End sorter_result.

(** C5 (amended). The sorter parses the weight column (when given) and the
    rank column (when given) as floats and returns the rows reordered so
    that their (weight, rank) keys descend lexicographically.  With no sort
    column the table comes back as it was.  Rows with equal keys keep their
    accumulation order when the sort runs on both columns; with a single
    sort column their relative order is whatever the library's default sort
    leaves, of which only the ordering of the keys is known. *)
Theorem rank_report_context_order `{Runtime} (df : DataFrame)
    (w r : option string) (df' : DataFrame) :
  quicksort_contract H →
  Sorter._rank_report_context df w r = Ok df' →
  let by_ := sort_columns w r in
  ∃ df1 idxs,
    Sorter.float_columns df w r = Ok (by_, df1)
    ∧ Sorter.column_indexes by_ (columns df) = Ok idxs
    ∧ Forall2 (parsed_into idxs) (rows df) (rows df1)
    ∧ columns df' = columns df
    ∧ Permutation (rows df1) (rows df')
    ∧ rows_sorted idxs (rows df')
    ∧ (by_ = [] → df' = df)
    ∧ (length by_ ≠ 1%nat → keeps_tie_order idxs (rows df1) (rows df')).
Proof.
  intros Hq Hrank. cbv zeta. unfold Sorter._rank_report_context in Hrank.
  bind_inv Hrank. destruct a as [by' df1].
  destruct (float_columns_spec _ _ _ _ _ Ha)
    as (Hby & Hcols & Hnone & idxs & Hidx & Hparsed).
  rewrite <- Hby. exists df1, idxs.
  split; [done|]. split; [done|]. split; [done|].
  destruct by' as [|c cs]; simpl in Hrank.
  - injection Hrank as <-. injection Hidx as <-.
    split; [done|]. split; [done|]. split; [apply rows_sorted_no_columns|].
    split; [done|]. by intros _ x.
  - apply (sort_values_spec _ _ _ Hq) in Hrank
      as (idxs' & Hidx' & Hcols' & Hperm & Hsorted & Hstable).
    rewrite Hcols in Hidx'. rewrite Hidx in Hidx'. injection Hidx' as <-.
    split; [congruence|]. split; [done|]. split; [done|]. split; [done|].
    exact Hstable.
Qed.

(** ** The batching loop *)

Section loop_facts.
Context `{Runtime}.
Variables (cfg : Config) (entities : option (list Entity)).

Lemma header_starts_with_id sel :
  ∃ rest, Builder.header cfg sel = "id" :: rest.
Proof. unfold Builder.header. simpl. eauto. Qed.

Lemma header_text_dash hdr : starts_with_dash (Builder.header_text cfg hdr) = true.
Proof. reflexivity. Qed.

Lemma append_dash s t :
  starts_with_dash s = true → starts_with_dash (s +:+ t) = true.
Proof. by destruct s. Qed.

Lemma sum_tokens_app l row :
  sum_tokens cfg (l ++ [row])
  = sum_tokens cfg l + num_tokens (Builder.row_text cfg row).
Proof.
  unfold sum_tokens. induction l as [|x l IH]; simpl; [lia|]. rewrite IH. lia.
Qed.

Lemma initial_state_inv hdr : loop_inv cfg hdr (Builder.initial_state cfg hdr).
Proof.
  split; simpl; try done.
  unfold batch_tokens, sum_tokens. simpl. lia.
Qed.

(** The two branches of an iteration. *)
Lemma loop_step_fits hdr cols st report :
  current_tokens st
  + num_tokens (Builder.row_text cfg (Builder.new_context cfg cols report))
  <= max_tokens cfg →
  Builder.loop_step cfg entities hdr cols st report
  = Ok (Continue
          (mkLoopState
             (current_context_text st
              +:+ Builder.row_text cfg (Builder.new_context cfg cols report))
             (current_tokens st
              + num_tokens (Builder.row_text cfg (Builder.new_context cfg cols report)))
             (current_context_records st ++ [Builder.new_context cfg cols report])
             (all_context_text st) (all_context_records st))).
Proof.
  intros Hfit. unfold Builder.loop_step.
  destruct (Z.gtb_spec
    (current_tokens st
     + num_tokens (Builder.row_text cfg (Builder.new_context cfg cols report)))
    (max_tokens cfg)); [lia | done].
Qed.

Lemma loop_step_overflow hdr cols st report :
  current_tokens st
  + num_tokens (Builder.row_text cfg (Builder.new_context cfg cols report))
  > max_tokens cfg →
  Builder.loop_step cfg entities hdr cols st report
  = (record_df ← Builder.close_batch cfg entities (current_context_records st);
     text ← Csv.to_csv (column_delimiter cfg) record_df;
     if single_batch cfg
     then Ok (Return text record_df)
     else Ok (Continue
                (mkLoopState (Builder.header_text cfg hdr)
                   (num_tokens (Builder.header_text cfg hdr)) [hdr]
                   (all_context_text st ++ [text])
                   (all_context_records st ++ [record_df])))).
Proof.
  intros Hover. unfold Builder.loop_step.
  destruct (Z.gtb_spec
    (current_tokens st
     + num_tokens (Builder.row_text cfg (Builder.new_context cfg cols report)))
    (max_tokens cfg)); [done | lia].
Qed.

Lemma loop_step_inv hdr cols st report st' :
  (∃ rest, hdr = "id" :: rest) →
  loop_inv cfg hdr st →
  Builder.loop_step cfg entities hdr cols st report = Ok (Continue st') →
  loop_inv cfg hdr st'.
Proof.
  intros Hid Hinv Hstep.
  set (t := num_tokens (Builder.row_text cfg (Builder.new_context cfg cols report))).
  destruct (Z_le_gt_dec (current_tokens st + t) (max_tokens cfg)) as [Hfit|Hover].
  - rewrite loop_step_fits in Hstep by exact Hfit. injection Hstep as <-.
    destruct Hinv as [Hhd Htok Hbud Hcur Htxt Hsingle].
    destruct (current_context_records st) as [|h records] eqn:Hrec;
      [discriminate|].
    split; simpl; try done.
    + rewrite Htok. unfold batch_tokens. simpl. rewrite sum_tokens_app. fold t. lia.
    + by apply append_dash.
  - rewrite loop_step_overflow in Hstep by exact Hover.
    bind_inv Hstep. bind_inv Hstep.
    destruct (single_batch cfg) eqn:Hsb; [discriminate|].
    injection Hstep as <-.
    destruct Hinv as [Hhd Htok Hbud Hcur Htxt Hsingle].
    split; simpl; try done; [| |congruence].
    + unfold batch_tokens, sum_tokens. simpl. lia.
    + apply Forall_app. split; [done|]. apply Forall_singleton.
      eapply to_csv_no_dash; [|exact Ha0].
      destruct (close_batch_columns _ _ _ _ _ Hhd Ha) as [[-> _]|[-> _]];
        [by left | by right].
Qed.

Lemma run_loop_app hdr cols st l1 l2 :
  Builder.run_loop cfg entities hdr cols st (l1 ++ l2)
  = (out ← Builder.run_loop cfg entities hdr cols st l1;
     match out with
     | Continue st' => Builder.run_loop cfg entities hdr cols st' l2
     | Return text df => Ok (Return text df)
     end).
Proof.
  revert st. induction l1 as [|r l1 IH]; intros st; simpl; [done|].
  destruct (Builder.loop_step cfg entities hdr cols st r) as [[st'|text df]|e];
    simpl; [apply IH | done | done].
Qed.

Lemma run_loop_inv hdr cols st reports st' :
  (∃ rest, hdr = "id" :: rest) →
  loop_inv cfg hdr st →
  Builder.run_loop cfg entities hdr cols st reports = Ok (Continue st') →
  loop_inv cfg hdr st'.
Proof.
  intros Hid. revert st. induction reports as [|r reports IH]; intros st Hinv Hrun;
    simpl in Hrun.
  - by injection Hrun as <-.
  - bind_inv Hrun. destruct a as [st1|text df]; [|discriminate].
    eapply IH; [|exact Hrun]. by eapply loop_step_inv.
Qed.

(** The test of line 175 never finds the raw text of the current batch among
    the rendered tables: the former begins with the dashes of the banner, a
    rendered table with its first column name or with a bare line break. *)
Lemma current_text_not_rendered hdr st :
  loop_inv cfg hdr st →
  current_context_text st ∉ all_context_text st.
Proof.
  intros [_ _ _ Hcur Htxt _] Hin.
  rewrite Forall_forall in Htxt. apply Htxt in Hin. congruence.
Qed.

End loop_facts.

(** ** What an overflow does to the report that caused it *)

Lemma overflow_starts_empty_batch `{Runtime} (cfg : Config)
    (entities : option (list Entity)) (hdr cols : list string)
    (st st' : LoopState) (report : CommunityReport) :
  current_tokens st
  + num_tokens (Builder.row_text cfg (Builder.new_context cfg cols report))
  > max_tokens cfg →
  Builder.loop_step cfg entities hdr cols st report = Ok (Continue st') →
  current_context_records st' = [hdr]
  ∧ current_tokens st' = num_tokens (Builder.header_text cfg hdr)
  ∧ length (all_context_records st') = S (length (all_context_records st)).
Proof.
  intros Hover Hstep. rewrite loop_step_overflow in Hstep by exact Hover.
  bind_inv Hstep. bind_inv Hstep. destruct (single_batch cfg); [discriminate|].
  injection Hstep as <-. simpl. rewrite length_app. simpl.
  repeat split. lia.
Qed.

(** ** End of the loop and the whole builder *)

Section builder_facts.
Context `{Runtime}.
Variables (cfg : Config) (entities : option (list Entity)).

Lemma close_header_only hdr :
  Builder.close_batch cfg entities [hdr] = Ok empty_df.
Proof. reflexivity. Qed.

(** Because of [current_text_not_rendered] the last batch is always closed. *)
Lemma finish_closes hdr st :
  loop_inv cfg hdr st →
  Builder.finish cfg entities st
  = (record_df ← Builder.close_batch cfg entities (current_context_records st);
     text ← Csv.to_csv (column_delimiter cfg) record_df;
     table ← Builder.pd_concat (all_context_records st ++ [record_df]);
     Ok (TextList (all_context_text st ++ [text]),
         {[ lower (context_name cfg) := table ]})).
Proof.
  intros Hinv. unfold Builder.finish.
  rewrite bool_decide_eq_true_2 by (by eapply current_text_not_rendered).
  destruct (Builder.close_batch _ _ _) as [df|e]; simpl; [|done].
  by destruct (Csv.to_csv _ _) as [text|e]; simpl.
Qed.

Lemma pd_concat_snoc frames df :
  Builder.pd_concat (frames ++ [df])
  = Ok (mkDataFrame (remove_dups (concat (map columns (frames ++ [df]))))
                    (concat (map rows (frames ++ [df])))).
Proof. unfold Builder.pd_concat. by destruct frames. Qed.

Lemma build_selected community_reports reports' r rs :
  Builder.weight_stage cfg community_reports entities = Ok reports' →
  Builder.select_reports cfg reports' = r :: rs →
  Builder.build_community_context cfg community_reports entities
  = ('(text, tbls) ← Builder.accumulate cfg entities
                       (Builder.shuffled cfg (r :: rs));
     Ok (text, tbls, reports')).
Proof.
  intros Hw Hsel. unfold Builder.build_community_context. rewrite Hw. simpl.
  by rewrite Hsel.
Qed.

Lemma build_nothing_selected community_reports reports' :
  Builder.weight_stage cfg community_reports entities = Ok reports' →
  Builder.select_reports cfg reports' = [] →
  Builder.build_community_context cfg community_reports entities
  = Ok (TextList [], ∅, reports').
Proof.
  intros Hw Hsel. unfold Builder.build_community_context. rewrite Hw. simpl.
  by rewrite Hsel.
Qed.

End builder_facts.

(** C10. With [single_batch] off, when the last report of the loop triggers
    an overflow close, the loop ends on a batch that holds only the header;
    the closing test of line 175 still succeeds, so the builder appends one
    more batch: an empty table, whose text is the rendering of the empty
    table (a bare line break). *)
Theorem trailing_empty_batch `{Runtime} (cfg : Config)
    (community_reports reports' : list CommunityReport)
    (entities : option (list Entity))
    (reports : list CommunityReport) (last : CommunityReport)
    (st st' : LoopState) :
  let sel := reports ++ [last] in
  let hdr := Builder.header cfg sel in
  let cols := Builder.attribute_cols cfg sel in
  single_batch cfg = false →
  Builder.weight_stage cfg community_reports entities = Ok reports' →
  Builder.select_reports cfg reports' ≠ [] →
  Builder.shuffled cfg (Builder.select_reports cfg reports') = sel →
  Builder.run_loop cfg entities hdr cols (Builder.initial_state cfg hdr) reports
  = Ok (Continue st) →
  current_tokens st
  + num_tokens (Builder.row_text cfg (Builder.new_context cfg cols last))
  > max_tokens cfg →
  Builder.loop_step cfg entities hdr cols st last = Ok (Continue st') →
  current_context_records st' = [hdr]
  ∧ Builder.close_batch cfg entities (current_context_records st') = Ok empty_df
  ∧ Csv.to_csv (column_delimiter cfg) empty_df = Ok nl
  ∧ Builder.build_community_context cfg community_reports entities
    = Ok (TextList (all_context_text st' ++ [nl]),
          {[ lower (context_name cfg) :=
               mkDataFrame
                 (remove_dups (concat (map columns (all_context_records st' ++ [empty_df]))))
                 (concat (map rows (all_context_records st' ++ [empty_df]))) ]},
          reports').
Proof.
  intros sel hdr cols Hsb Hw Hne Hsel Hrun Hover Hstep.
  assert (loop_inv cfg hdr st') as Hinv'.
  { eapply loop_step_inv; [apply header_starts_with_id| |exact Hstep].
    eapply run_loop_inv; [apply header_starts_with_id| |exact Hrun].
    apply initial_state_inv. }
  pose proof Hstep as Hstep'.
  rewrite loop_step_overflow in Hstep' by exact Hover.
  bind_inv Hstep'. bind_inv Hstep'. rewrite Hsb in Hstep'.
  injection Hstep' as <-. simpl.
  destruct (to_csv_sep _ _ empty_df _ Ha0) as [s Hs].
  pose proof (to_csv_empty _ _ Hs) as ->.
  repeat split; [done|].
  destruct (Builder.select_reports cfg reports') as [|r rs] eqn:Hrs; [done|].
  rewrite (build_selected _ _ _ _ r rs Hw Hrs), Hsel.
  unfold Builder.accumulate. fold hdr cols. unfold sel.
  rewrite run_loop_app, Hrun. simpl. rewrite Hstep. simpl.
  rewrite (finish_closes _ _ hdr) by exact Hinv'.
  simpl. rewrite Hs. simpl. by rewrite pd_concat_snoc.
Qed.

(** C6 (amended). Every batch the builder closes with at least one row in
    it stays within the budget: the tracked count is the token count of the
    header block plus that of every row text, and it is at most
    [max_tokens].  The same bound holds for a header-only batch exactly when
    the header block itself fits. *)
Theorem closed_batch_within_budget `{Runtime} (cfg : Config)
    (entities : option (list Entity)) (selected_reports : list CommunityReport)
    (st : LoopState) :
  let hdr := Builder.header cfg selected_reports in
  closes_batch cfg entities selected_reports st →
  tail (current_context_records st) ≠ []
  ∨ num_tokens (Builder.header_text cfg hdr) <= max_tokens cfg →
  current_tokens st = batch_tokens cfg hdr (current_context_records st)
  ∧ batch_tokens cfg hdr (current_context_records st) <= max_tokens cfg.
Proof.
  intros hdr (processed & rest & _ & Hrun & _) Hcase.
  assert (loop_inv cfg hdr st) as [Hhd Htok Hbud _ _ _].
  { eapply run_loop_inv; [apply header_starts_with_id| |exact Hrun].
    apply initial_state_inv. }
  split; [exact Htok|].
  destruct (current_context_records st) as [|h [|row records]] eqn:Hrec.
  - discriminate.
  - destruct Hcase as [Hrows|Hfit]; [done|].
    unfold batch_tokens, sum_tokens. simpl. lia.
  - rewrite <- Htok. by apply Hbud.
Qed.

Section single_batch_facts.
Context `{Runtime}.
Variables (cfg : Config) (entities : option (list Entity)).
Hypothesis Hsingle : single_batch cfg = true.

(** In single-batch mode the loop only goes on through the branch that
    appends the report. *)
Lemma run_loop_single_continue hdr cols st reports st' :
  Builder.run_loop cfg entities hdr cols st reports = Ok (Continue st') →
  current_context_records st'
  = current_context_records st ++ map (Builder.new_context cfg cols) reports.
Proof.
  revert st. induction reports as [|r reports IH]; intros st Hrun; simpl in Hrun.
  - injection Hrun as <-. simpl. by rewrite app_nil_r.
  - bind_inv Hrun. destruct a as [st1|text df]; [|discriminate].
    apply IH in Hrun. rewrite Hrun. clear Hrun IH.
    set (t := num_tokens (Builder.row_text cfg (Builder.new_context cfg cols r))).
    destruct (Z_le_gt_dec (current_tokens st + t) (max_tokens cfg)) as [Hfit|Hover].
    + rewrite loop_step_fits in Ha by exact Hfit. injection Ha as <-.
      simpl. by rewrite <- app_assoc.
    + rewrite loop_step_overflow in Ha by exact Hover.
      bind_inv Ha. bind_inv Ha. rewrite Hsingle in Ha. discriminate.
Qed.

Lemma accumulate_single sel text tbls :
  Builder.accumulate cfg entities sel = Ok (text, tbls) →
  let hdr := Builder.header cfg sel in
  let cols := Builder.attribute_cols cfg sel in
  (∃ s df,
      Builder.run_loop cfg entities hdr cols (Builder.initial_state cfg hdr) sel
      = Ok (Return s df)
      ∧ text = TextStr s ∧ tbls = {[ lower (context_name cfg) := df ]})
  ∨ (∃ st s,
      Builder.run_loop cfg entities hdr cols (Builder.initial_state cfg hdr) sel
      = Ok (Continue st)
      ∧ current_context_records st = hdr :: map (Builder.new_context cfg cols) sel
      ∧ text = TextList [s]).
Proof.
  intros Hacc hdr cols. unfold Builder.accumulate in Hacc. fold hdr cols in Hacc.
  bind_inv Hacc. destruct a as [st|s df].
  - right. assert (loop_inv cfg hdr st) as Hinv.
    { eapply run_loop_inv; [apply header_starts_with_id| |exact Ha].
      apply initial_state_inv. }
    rewrite (finish_closes _ _ hdr) in Hacc by exact Hinv.
    bind_inv Hacc. bind_inv Hacc. bind_inv Hacc.
    destruct (inv_single _ _ _ Hinv Hsingle) as [Htexts _].
    rewrite Htexts in Hacc. injection Hacc as <- _.
    exists st, a0. split; [done|]. split; [|done].
    by apply run_loop_single_continue in Ha.
  - left. injection Hacc as <- <-. by exists s, df.
Qed.

End single_batch_facts.

(** C3 (amended). With [single_batch] on and a non-empty filtered set, the
    text member is a single string when the builder leaves through the
    overflow branch, and a list holding exactly one string when the loop
    ends without any report overflowing (every report is then in the
    batch). *)
Theorem single_batch_text_shape `{Runtime} (cfg : Config)
    (community_reports reports' : list CommunityReport)
    (entities : option (list Entity)) (text : context_text) (tbls : tables) :
  single_batch cfg = true →
  Builder.build_community_context cfg community_reports entities
  = Ok (text, tbls, reports') →
  Builder.select_reports cfg reports' ≠ [] →
  let sel := Builder.shuffled cfg (Builder.select_reports cfg reports') in
  let hdr := Builder.header cfg sel in
  let cols := Builder.attribute_cols cfg sel in
  (∃ s df,
      Builder.run_loop cfg entities hdr cols (Builder.initial_state cfg hdr) sel
      = Ok (Return s df)
      ∧ text = TextStr s ∧ tbls = {[ lower (context_name cfg) := df ]})
  ∨ (∃ st s,
      Builder.run_loop cfg entities hdr cols (Builder.initial_state cfg hdr) sel
      = Ok (Continue st)
      ∧ current_context_records st = hdr :: map (Builder.new_context cfg cols) sel
      ∧ text = TextList [s]).
Proof.
  intros Hsingle Hbuild Hne sel hdr cols.
  unfold Builder.build_community_context in Hbuild.
  bind_inv Hbuild.
  destruct (Builder.select_reports cfg a) as [|r rs] eqn:Hsel.
  - injection Hbuild as _ _ <-. by rewrite Hsel in Hne.
  - bind_inv Hbuild. destruct a0 as [text0 tbls0].
    injection Hbuild as <- <- <-. subst cols hdr sel. rewrite Hsel.
    by eapply accumulate_single.
Qed.

(** ** The builder returns when no column has to be parsed

    The sort can fail on a column that does not parse as a float, and the
    rendering on a separator that is not one character.  Without sort
    columns and with a one-character separator nothing in the batching can
    raise. *)

Section returns.
Context `{Runtime}.
Variables (cfg : Config) (entities : option (list Entity)) (sep : ascii).
Hypothesis Hweight : Builder.weight_column cfg entities = None.
Hypothesis Hrank : Builder.rank_column cfg = None.
Hypothesis Hsep : column_delimiter cfg = String sep EmptyString.

Lemma new_context_width sel report :
  length (Builder.new_context cfg (Builder.attribute_cols cfg sel) report)
  = length (Builder.header cfg sel).
Proof.
  unfold Builder.new_context, Builder.header.
  rewrite !length_app, length_map. simpl. rewrite ?length_app. simpl.
  destruct (include_community_rank cfg); simpl; lia.
Qed.

Lemma to_csv_returns df : ∃ s, Csv.to_csv (column_delimiter cfg) df = Ok s.
Proof. rewrite Hsep. unfold Csv.to_csv. eauto. Qed.

Lemma close_batch_returns hdr records :
  Forall (fun row => length row = length hdr) records →
  head records = Some hdr →
  ∃ df, Builder.close_batch cfg entities records = Ok df.
Proof.
  intros Hwidth Hhd. unfold Builder.close_batch.
  destruct (1 <? length records)%nat; [|eauto].
  rewrite Hhd, Hweight, Hrank. simpl.
  unfold Sorter._convert_report_context_to_df.
  rewrite (proj2 (forallb_forall _ _)); [by eexists|].
  intros row Hrow. apply Nat.eqb_eq.
  rewrite Forall_forall in Hwidth. apply Hwidth.
  destruct records as [|h records]; [done|]. simpl in Hrow.
  right. by apply list_elem_of_In.
Qed.

Lemma loop_step_returns sel st report :
  let hdr := Builder.header cfg sel in
  let cols := Builder.attribute_cols cfg sel in
  Forall (fun row => length row = length hdr) (current_context_records st) →
  head (current_context_records st) = Some hdr →
  ∃ out, Builder.loop_step cfg entities hdr cols st report = Ok out
         ∧ ∀ st', out = Continue st' →
             Forall (fun row => length row = length hdr) (current_context_records st')
             ∧ head (current_context_records st') = Some hdr.
Proof.
  intros hdr cols Hwidth Hhd.
  set (t := num_tokens (Builder.row_text cfg (Builder.new_context cfg cols report))).
  destruct (Z_le_gt_dec (current_tokens st + t) (max_tokens cfg)) as [Hfit|Hover].
  - rewrite loop_step_fits by exact Hfit. eexists. split; [done|].
    intros st' [= <-]. simpl. split.
    + apply Forall_app. split; [done|]. apply Forall_singleton.
      apply new_context_width.
    + by destruct (current_context_records st).
  - rewrite loop_step_overflow by exact Hover.
    destruct (close_batch_returns hdr _ Hwidth Hhd) as [df ->].
    destruct (to_csv_returns df) as [s Hs]. simpl. rewrite Hs. simpl.
    destruct (single_batch cfg); eexists; (split; [done|]); [done|].
    intros st' [= <-]. simpl. split; [|done]. by apply Forall_singleton.
Qed.

Lemma run_loop_returns sel st reports :
  let hdr := Builder.header cfg sel in
  let cols := Builder.attribute_cols cfg sel in
  Forall (fun row => length row = length hdr) (current_context_records st) →
  head (current_context_records st) = Some hdr →
  ∃ out, Builder.run_loop cfg entities hdr cols st reports = Ok out
         ∧ ∀ st', out = Continue st' →
             Forall (fun row => length row = length hdr) (current_context_records st')
             ∧ head (current_context_records st') = Some hdr.
Proof.
  intros hdr cols. subst hdr cols. revert st.
  induction reports as [|r reports IH]; intros st Hwidth Hhd; simpl.
  - eexists. split; [done|]. by intros st' [= <-].
  - destruct (loop_step_returns sel st r Hwidth Hhd) as (out & -> & Hout). simpl.
    destruct out as [st1|text df].
    + destruct (Hout st1 eq_refl). by apply IH.
    + eexists. split; [done|]. discriminate.
Qed.

Lemma accumulate_returns sel :
  ∃ out, Builder.accumulate cfg entities sel = Ok out.
Proof.
  unfold Builder.accumulate.
  destruct (run_loop_returns sel (Builder.initial_state cfg (Builder.header cfg sel)) sel)
    as (out & Hrun & Hout).
  { by apply Forall_singleton. }
  { done. }
  rewrite Hrun. simpl. destruct out as [st|text df]; [|eauto].
  destruct (Hout st eq_refl) as [Hwidth Hhd].
  rewrite (finish_closes _ _ (Builder.header cfg sel)).
  - destruct (close_batch_returns _ _ Hwidth Hhd) as [df ->]. simpl.
    destruct (to_csv_returns df) as [s ->]. simpl.
    rewrite pd_concat_snoc. simpl. eauto.
  - eapply run_loop_inv; [apply header_starts_with_id| |exact Hrun].
    apply initial_state_inv.
Qed.

End returns.

(** Without entities and without the rank column the builder returns for
    every report list. *)
Lemma build_returns `{Runtime} (cfg : Config) (sep : ascii)
    (community_reports : list CommunityReport) :
  include_community_rank cfg = false →
  column_delimiter cfg = String sep EmptyString →
  ∃ text tbls,
    Builder.build_community_context cfg community_reports None
    = Ok (text, tbls, community_reports).
Proof.
  intros Hrank Hsep. unfold Builder.build_community_context.
  unfold Builder.weight_stage. simpl.
  destruct (Builder.select_reports cfg community_reports) as [|r rs]; [eauto|].
  destruct (accumulate_returns cfg None sep) with (sel := Builder.shuffled cfg (r :: rs))
    as [[text tbls] ->]; try done.
  - unfold Builder.rank_column. by rewrite Hrank.
  - simpl. eauto.
Qed.

(** ** The stable example sort meets the contract of the single-column sort *)

Lemma key_gtb_asym (key : list cell → Q) (a b : list cell) :
  Demo.key_gtb key a b = true → Demo.key_gtb key b a = false.
Proof.
  unfold Demo.key_gtb. rewrite <- (Qcompare_antisym (key a) (key b)).
  by destruct (Qcompare (key a) (key b)).
Qed.

Lemma key_sort_sorted (key : list cell → Q) (l : list (list cell)) :
  sorted_desc key (Sorter.lexsort_desc (Demo.key_gtb key) l).
Proof.
  eapply Sorted_weaken; [|apply lexsort_desc_sorted, key_gtb_asym].
  intros a b Hab. simpl in Hab. apply Qle_alt. unfold Demo.key_gtb in Hab.
  by destruct (Qcompare (key b) (key a)).
Qed.

Lemma stable_runtime_contract : quicksort_contract Demo.runtime.
Proof.
  intros key l. split; [apply lexsort_desc_perm | apply key_sort_sorted].
Qed.

(** * Worked inputs *)

(** C5, the claim as stated fails.  Four rows with the weights 1, 1, 2, 2
    are sorted on the weight column alone.  pandas reverses the keys to
    2, 2, 1, 1 and argsorts them; after the neighbours, the bitonic network
    compares the outer pair of lanes and the inner pair, and both exchanges
    carry a key past its equal: the indexer comes back as 3, 2, 1, 0 (the
    same for the four-lane and the eight-lane register).  The sorter returns the
    rows d, c, b, a: the weights descend, but both pairs of equal weight
    are in the opposite of their accumulation order. *)
Lemma single_key_sort_reorders_ties :
  Numpy.argsort Numpy.sort_ymm_64bit 4 [2; 2; 1; 1]%Q = Some [3; 2; 1; 0]%nat
  ∧ Numpy.argsort Numpy.sort_zmm_64bit 8 [2; 2; 1; 1]%Q = Some [3; 2; 1; 0]%nat
  ∧ Numpy.nargsort_desc (Numpy.argsort Numpy.sort_zmm_64bit 8) [1; 1; 2; 2]%Q
    = Some [3; 2; 1; 0]%nat
  ∧ Sorter._rank_report_context (H := Demo.simd_runtime)
      (mkDataFrame ["id"; "w"]
         [[CStr "a"; CStr "1"]; [CStr "b"; CStr "1"];
          [CStr "c"; CStr "2"]; [CStr "d"; CStr "2"]])
      (Some "w") None
    = Ok (mkDataFrame ["id"; "w"]
            [[CStr "d"; CFloat 2]; [CStr "c"; CFloat 2];
             [CStr "b"; CFloat 1]; [CStr "a"; CFloat 1]])
  ∧ rows_sorted [1%nat]
      [[CStr "d"; CFloat 2]; [CStr "c"; CFloat 2];
       [CStr "b"; CFloat 1]; [CStr "a"; CFloat 1]]
  ∧ ¬ keeps_tie_order [1%nat]
        [[CStr "a"; CFloat 1]; [CStr "b"; CFloat 1];
         [CStr "c"; CFloat 2]; [CStr "d"; CFloat 2]]
        [[CStr "d"; CFloat 2]; [CStr "c"; CFloat 2];
         [CStr "b"; CFloat 1]; [CStr "a"; CFloat 1]].
Proof.
  split; [by vm_compute|]. split; [by vm_compute|]. split; [by vm_compute|].
  split; [by vm_compute|]. split.
  - repeat constructor.
  - intros Hkeep. specialize (Hkeep [CStr "a"; CFloat 1]).
    vm_compute in Hkeep. discriminate.
Qed.

(** With fewer than four rows the network leaves equal keys where they
    are: two rows of equal weight come back in their accumulation order. *)
Example single_key_sort_two_rows :
  Sorter._rank_report_context (H := Demo.simd_runtime)
    (mkDataFrame ["id"; "w"] [[CStr "a"; CStr "1"]; [CStr "b"; CStr "1"]])
    (Some "w") None
  = Ok (mkDataFrame ["id"; "w"] [[CStr "a"; CFloat 1]; [CStr "b"; CFloat 1]]).
Proof. by vm_compute. Qed.

(** C1, where the code departs from the claim.  Budget 50, header block of
    35 tokens, rows of 10 tokens: the first report fits, the second
    overflows.  The batch is closed and a new one started, but the report
    that overflowed is not put into it: the text is the first batch followed
    by an empty one, and the table has one row for two surviving reports.
    With budget 5 the only report is larger than the budget; it is not
    emitted as a batch of its own either, the result holds two empty
    batches. *)
Theorem overflowing_report_is_dropped :
  Builder.select_reports (Demo.config 50 false) [Demo.report_a; Demo.report_b]
  = [Demo.report_a; Demo.report_b]
  ∧ Builder.build_community_context (H := Demo.runtime) (Demo.config 50 false)
      [Demo.report_a; Demo.report_b] None
    = Ok (TextList ["id|title|summary" +:+ nl +:+ "1|T1|aaaa" +:+ nl; nl],
          {[ "reports" :=
               mkDataFrame ["id"; "title"; "summary"]
                           [[CStr "1"; CStr "T1"; CStr "aaaa"]] ]},
          [Demo.report_a; Demo.report_b])
  ∧ Builder.build_community_context (H := Demo.runtime) (Demo.config 5 false)
      [Demo.report_a] None
    = Ok (TextList [nl; nl], {[ "reports" := empty_df ]}, [Demo.report_a]).
Proof. by vm_compute. Qed.

(** C2, where the code departs from the claim.  No entity references the
    report's community, so its raw weight is 0 (as the computation without
    normalisation shows); with normalisation the code divides by the
    maximum, 0, and raises. *)
Theorem zero_weights_raise_on_normalize :
  Weights._compute_community_weights [Demo.report_a] [Demo.stranger]
    "occurrence weight" false
  = Ok [set_attributes Demo.report_a [("occurrence weight", VInt 0)]]
  ∧ Weights._compute_community_weights [Demo.report_a] [Demo.stranger]
      "occurrence weight" true
    = Raise ZeroDivisionError.
Proof. by vm_compute. Qed.

(** C3, the claim as stated fails: in single-batch mode, a report set that
    fits the budget comes back as a list (of one string), not as a string. *)
Lemma single_batch_returns_list_when_all_fits :
  single_batch (Demo.config 100 true) = true
  ∧ Builder.select_reports (Demo.config 100 true) [Demo.report_a] ≠ []
  ∧ Builder.build_community_context (H := Demo.runtime) (Demo.config 100 true)
      [Demo.report_a] None
    = Ok (TextList ["id|title|summary" +:+ nl +:+ "1|T1|aaaa" +:+ nl],
          {[ "reports" :=
               mkDataFrame ["id"; "title"; "summary"]
                           [[CStr "1"; CStr "T1"; CStr "aaaa"]] ]},
          [Demo.report_a]).
Proof. by vm_compute. Qed.

(** C4, where the code departs from the claim.  The filter tests the rank
    for truth before comparing it: a report whose rank is present and equal
    to 0 is dropped although the minimum rank is 0. *)
Theorem rank_zero_report_is_dropped :
  rank Demo.rank_zero = Some 0%Q
  ∧ min_community_rank (Demo.config 100 true) = 0
  ∧ Builder.selected (Demo.config 100 true) Demo.rank_zero = false
  ∧ Builder.build_community_context (H := Demo.runtime) (Demo.config 100 true)
      [Demo.rank_zero] None
    = Ok (TextList [], ∅, [Demo.rank_zero]).
Proof. by vm_compute. Qed.

(** C6, the claim as stated fails: with a budget of 5 the header block alone
    (35 tokens) is over budget; the first report overflows and the builder
    closes the batch it holds, which has no row at all. *)
Lemma header_only_batch_exceeds_budget :
  let cfg := Demo.config 5 false in
  let hdr := Builder.header cfg [Demo.report_a] in
  let st := Builder.initial_state (H := Demo.runtime) cfg hdr in
  closes_batch (H := Demo.runtime) cfg None [Demo.report_a] st
  ∧ tail (current_context_records st) = []
  ∧ batch_tokens (H := Demo.runtime) cfg hdr (current_context_records st) = 35
  ∧ ¬ (batch_tokens (H := Demo.runtime) cfg hdr (current_context_records st)
       <= max_tokens cfg).
Proof.
  repeat split.
  - exists [], [Demo.report_a]. by vm_compute.
  - by vm_compute.
Qed.

(** C9, where the code departs from the claim.  The only report has no rank,
    so nothing survives the filter; but the weights are computed first, all
    of them are 0, and the normalisation raises before the filter is
    reached (the defect of C2). *)
Theorem empty_selection_can_raise :
  Builder.select_reports (Demo.config 100 true) [Demo.unranked] = []
  ∧ Builder.build_community_context (H := Demo.runtime) (Demo.config 100 true)
      [Demo.unranked] (Some [Demo.stranger])
    = Raise ZeroDivisionError.
Proof. by vm_compute. Qed.

(** * The theorems at work on the worked inputs *)

Lemma weight_is_distinct_text_unit_count_witness :
  ∃ r', Weights.assign_weights Demo.members "w" [Demo.report_a] !! 0%nat = Some r'
        ∧ dict_get "w" (attrs_or_empty r') = Some (VInt 2).
Proof.
  destruct (weight_is_distinct_text_unit_count [Demo.report_a] Demo.members "w")
    as (_ & _ & Hall).
  destruct (Hall 0%nat Demo.report_a eq_refl) as (r' & Hr' & _ & Hw & _).
  exists r'. split; [exact Hr'|]. rewrite Hw. by vm_compute.
Defined.

Lemma weight_injection_idempotent_witness :
  Builder.weight_stage (Demo.config 100 true) [Demo.weighted_a] (Some Demo.members)
  = Ok [Demo.weighted_a].
Proof.
  apply (weight_injection_idempotent (H := Demo.runtime) (Demo.config 100 true)
           [Demo.weighted_a] (Some Demo.members)).
  intros r ->%list_elem_of_singleton. eexists. split; reflexivity.
Defined.

Lemma closed_batch_within_budget_witness :
  let cfg := Demo.config 50 false in
  let sel := [Demo.report_a; Demo.report_b] in
  batch_tokens (H := Demo.runtime) cfg (Builder.header cfg sel)
    (current_context_records (Demo.state_after cfg sel [Demo.report_a]))
  <= 50.
Proof.
  intros cfg sel.
  apply (closed_batch_within_budget (H := Demo.runtime) cfg None sel
           (Demo.state_after cfg sel [Demo.report_a])).
  - exists [Demo.report_a], [Demo.report_b]. by vm_compute.
  - left. by vm_compute.
Defined.

Lemma single_batch_text_shape_witness :
  ∃ s, TextList ["id|title|summary" +:+ nl +:+ "1|T1|aaaa" +:+ nl] = TextList [s].
Proof.
  destruct (single_batch_text_shape (H := Demo.runtime) (Demo.config 100 true)
              [Demo.report_a] [Demo.report_a] None
              (TextList ["id|title|summary" +:+ nl +:+ "1|T1|aaaa" +:+ nl])
              {[ "reports" :=
                   mkDataFrame ["id"; "title"; "summary"]
                               [[CStr "1"; CStr "T1"; CStr "aaaa"]] ]})
    as [(s & df & Hrun & _)|(st & s & _ & _ & Htext)].
  - reflexivity.
  - by vm_compute.
  - by vm_compute.
  - vm_compute in Hrun. discriminate.
  - by exists s.
Defined.

Lemma trailing_empty_batch_witness :
  ∃ st',
    current_context_records st' = [["id"; "title"; "summary"]]
    ∧ Builder.build_community_context (H := Demo.runtime) (Demo.config 50 false)
        [Demo.report_a; Demo.report_b] None
      = Ok (TextList (all_context_text st' ++ [nl]),
            {[ "reports" :=
                 mkDataFrame
                   (remove_dups (concat (map columns (all_context_records st' ++ [empty_df]))))
                   (concat (map rows (all_context_records st' ++ [empty_df]))) ]},
            [Demo.report_a; Demo.report_b]).
Proof.
  edestruct (trailing_empty_batch (H := Demo.runtime) (Demo.config 50 false)
               [Demo.report_a; Demo.report_b] [Demo.report_a; Demo.report_b] None
               [Demo.report_a] Demo.report_b)
    as (Hrec & _ & _ & Hbuild).
  - reflexivity.
  - reflexivity.
  - by vm_compute.
  - reflexivity.
  - vm_compute. reflexivity.
  - by vm_compute.
  - vm_compute. reflexivity.
  - eexists. split; [exact Hrec | exact Hbuild].
Defined.

Lemma rank_report_context_order_witness :
  ∃ df1 idxs,
    Sorter.float_columns (H := Demo.runtime)
      (mkDataFrame ["id"; "w"; "r"]
         [[CStr "a"; CStr "1"; CStr "2.0"]; [CStr "b"; CStr "1"; CStr "2.0"];
          [CStr "c"; CStr "1"; CStr "3.5"]])
      (Some "w") (Some "r")
    = Ok (["w"; "r"], df1)
    ∧ idxs = [1%nat; 2%nat]
    ∧ rows_sorted idxs
        [[CStr "c"; CFloat 1; CFloat (35 # 10)];
         [CStr "a"; CFloat 1; CFloat (20 # 10)];
         [CStr "b"; CFloat 1; CFloat (20 # 10)]].
Proof.
  destruct (rank_report_context_order (H := Demo.runtime)
              (mkDataFrame ["id"; "w"; "r"]
                 [[CStr "a"; CStr "1"; CStr "2.0"]; [CStr "b"; CStr "1"; CStr "2.0"];
                  [CStr "c"; CStr "1"; CStr "3.5"]])
              (Some "w") (Some "r")
              (mkDataFrame ["id"; "w"; "r"]
                 [[CStr "c"; CFloat 1; CFloat (35 # 10)];
                  [CStr "a"; CFloat 1; CFloat (20 # 10)];
                  [CStr "b"; CFloat 1; CFloat (20 # 10)]])
              stable_runtime_contract)
    as (df1 & idxs & Hf & Hidx & _ & _ & _ & Hsorted & _).
  - vm_compute. reflexivity.
  - exists df1, idxs. split; [exact Hf|].
    vm_compute in Hidx. injection Hidx as <-. split; [reflexivity | exact Hsorted].
Defined.

(** * Further properties of the weight computer *)

Lemma dict_keys_set (k : string) (v : pyval) (d : pydict) :
  dict_keys (dict_set k v d)
  = if dict_mem k d then dict_keys d else dict_keys d ++ [k].
Proof.
  unfold dict_mem. induction d as [|[k' v'] d IH]; simpl; [done|].
  destruct (String.eqb k k') eqn:E; simpl; [done|].
  rewrite IH. by destruct (dict_get k d).
Qed.

Lemma attrs_when_truthy (r : CommunityReport) :
  (if Weights.has_attrs r then attrs_or_empty r else []) = attrs_or_empty r.
Proof.
  unfold Weights.has_attrs, attrs_or_empty.
  by destruct (attributes r) as [[|? ?]|].
Qed.

Lemma attrs_set_attributes (r : CommunityReport) (d : pydict) :
  attrs_or_empty (set_attributes r d) = d.
Proof. reflexivity. Qed.

Section weight_only.
Variables (m : gmap string (list string)) (key : string).

Lemma assign_weight_only r : weight_only key r (Weights.assign_weight m key r).
Proof.
  unfold weight_only, Weights.assign_weight. simpl.
  rewrite attrs_when_truthy. split; [done|]. split.
  - intros k Hk. by apply dict_get_set_ne.
  - apply dict_keys_set.
Qed.

Lemma normalize_report_only mx r r' :
  Weights.normalize_report key mx (Weights.assign_weight m key r) = Ok r' →
  weight_only key r r'.
Proof.
  unfold Weights.normalize_report. rewrite assign_weight_has_attrs.
  intros Hn. bind_inv Hn. bind_inv Hn. injection Hn as <-.
  destruct (assign_weight_only r) as (Hsame & Hother & Hkeys).
  unfold weight_only. rewrite attrs_set_attributes. split; [exact Hsame|]. split.
  - intros k Hk. rewrite dict_get_set_ne by done. by apply Hother.
  - rewrite dict_keys_set. unfold dict_mem at 1.
    by rewrite assign_weight_attr.
Qed.

End weight_only.

Lemma compute_weights_only (reports reports' : list CommunityReport)
    (entities : list Entity) (key : string) (normalize : bool) :
  Weights._compute_community_weights reports entities key normalize = Ok reports' →
  Forall2 (weight_only key) reports reports'.
Proof.
  unfold Weights._compute_community_weights, Weights.assign_weights.
  destruct normalize.
  - unfold Weights.normalize_weights. intros Hn. bind_inv Hn. bind_inv Hn.
    apply rmapM_Forall2 in Hn. apply Forall2_fmap_l in Hn.
    eapply Forall2_impl; [exact Hn|]. intros r r' Hr. simpl in Hr.
    by eapply normalize_report_only.
  - intros [= <-]. apply Forall2_fmap_r, Forall_Forall2_diag, Forall_forall.
    intros r _. apply assign_weight_only.
Qed.

(** X1. Whatever the normalisation flag, a successful run of the weight
    computer returns the reports in the same order with every field but
    [attributes] as it was, and inside [attributes] no entry other than
    the weight key is changed. *)
Theorem compute_weights_touches_only_weight
    (reports reports' : list CommunityReport) (entities : list Entity)
    (key : string) (normalize : bool) :
  Weights._compute_community_weights reports entities key normalize = Ok reports' →
  Forall2 (fun r r' =>
             same_but_attributes r r'
             ∧ ∀ k, k ≠ key →
                 dict_get k (attrs_or_empty r') = dict_get k (attrs_or_empty r))
          reports reports'.
Proof.
  intros Hc%compute_weights_only. eapply Forall2_impl; [exact Hc|].
  intros r r' (Hsame & Hother & _). by split.
Qed.

(** X2. The weight computer keeps the order of the attribute keys a report
    already has; a weight key that was not there yet is added after all of
    them (so its column comes last among the attribute columns read from
    that report). *)
Theorem weight_key_goes_last
    (reports reports' : list CommunityReport) (entities : list Entity)
    (key : string) (normalize : bool) :
  Weights._compute_community_weights reports entities key normalize = Ok reports' →
  Forall2 (fun r r' =>
             dict_keys (attrs_or_empty r')
             = if dict_mem key (attrs_or_empty r)
               then dict_keys (attrs_or_empty r)
               else dict_keys (attrs_or_empty r) ++ [key])
          reports reports'.
Proof.
  intros Hc%compute_weights_only. eapply Forall2_impl; [exact Hc|].
  by intros r r' (_ & _ & Hkeys).
Qed.

Lemma list_max_exists (l : list Z) :
  l ≠ [] → ∃ M, M ∈ l ∧ ∀ z, z ∈ l → z <= M.
Proof.
  induction l as [|a l IH]; [done|]. intros _.
  destruct l as [|b l].
  - exists a. split; [by left|]. intros z ->%list_elem_of_singleton. lia.
  - destruct IH as (M & HM & Hmax); [done|].
    destruct (Z_le_gt_dec a M).
    + exists M. split; [by right|].
      intros z [->|Hz]%elem_of_cons; [lia | by apply Hmax].
    + exists a. split; [by left|].
      intros z [->|Hz]%elem_of_cons; [lia|]. apply Hmax in Hz. lia.
Qed.

(** X3. With normalisation, as soon as one report has a positive raw weight
    the computation succeeds: every report's weight becomes its raw weight
    divided by the greatest raw weight [M], a value between 0 and 1, and the
    reports that attain [M] end at 1. *)
Theorem normalized_weights_in_unit_interval
    (reports : list CommunityReport) (entities : list Entity) (key : string) :
  (∃ r, r ∈ reports ∧ 0 < raw_weight_of entities r) →
  ∃ M reports',
    0 < M
    ∧ (∃ r, r ∈ reports ∧ raw_weight_of entities r = M)
    ∧ Weights._compute_community_weights reports entities key true = Ok reports'
    ∧ Forall2 (fun r r' =>
                 ∃ x, dict_get key (attrs_or_empty r') = Some (VFloat x)
                      ∧ x = (inject_Z (raw_weight_of entities r) / inject_Z M)%Q
                      ∧ (0 <= x)%Q ∧ (x <= 1)%Q
                      ∧ (raw_weight_of entities r = M → (x == 1)%Q))
              reports reports'.
Proof.
  intros (r0 & Hr0 & Hpos).
  destruct (list_max_exists (map (raw_weight_of entities) reports))
    as (M & HM & Hmax).
  { destruct reports; [by apply elem_of_nil in Hr0 | done]. }
  assert (∀ r, r ∈ reports → raw_weight_of entities r <= M) as Hle.
  { intros r Hr. apply Hmax, list_elem_of_fmap. by exists r. }
  assert (0 < M) as HMpos by (specialize (Hle r0 Hr0); lia).
  exists M. eexists. split; [exact HMpos|]. split.
  { apply list_elem_of_fmap in HM as (r & -> & Hr). by exists r. }
  split.
  { unfold Weights._compute_community_weights, Weights.assign_weights.
    apply (normalize_positive_weights _ key reports M); [exact HM | exact Hle | exact HMpos]. }
  apply Forall2_fmap_r, Forall_Forall2_diag, Forall_forall. intros r Hr.
  eexists. rewrite attrs_set_attributes, dict_get_set_eq. split; [done|].
  split; [done|].
  destruct (normalized_range (raw_weight_of entities r) M) as (H0 & H1 & Hone);
    [apply raw_weight_nonneg | by apply Hle | exact HMpos |].
  split; [exact H0|]. split; [exact H1|].
  intros E. unfold raw_weight_of in *. rewrite E. exact Hone.
Qed.

(** X4. With normalisation, when no entity lists the community of any of the
    reports (in particular when there are no entities) and there is at
    least one report, the computation raises [ZeroDivisionError]: all raw
    weights are 0 and the division by their maximum is not guarded. *)
Theorem unreferenced_reports_raise_on_normalize
    (reports : list CommunityReport) (entities : list Entity) (key : string) :
  reports ≠ [] →
  (∀ r e, r ∈ reports → e ∈ entities →
          community_id r ∉ default [] (community_ids e)) →
  Weights._compute_community_weights reports entities key true
  = Raise ZeroDivisionError.
Proof.
  intros Hne Hno. unfold Weights._compute_community_weights, Weights.assign_weights.
  apply normalize_zero_maximum_raises; [exact Hne|].
  intros r Hr. unfold Weights.raw_weight.
  rewrite community_text_units_spec, distinct_text_units_unreferenced; [done|].
  intros e He. by apply Hno.
Qed.

(** * Further properties of the builder *)

(** X5. Calling the builder a second time, with the same configuration and
    entities, on the reports a first call left behind never changes them
    again, whatever the first call did to them. *)
Theorem repeated_call_keeps_reports `{Runtime} (cfg : Config)
    (entities : option (list Entity))
    (reports reports1 reports2 : list CommunityReport)
    (text text2 : context_text) (tbls tbls2 : tables) :
  Builder.build_community_context cfg reports entities = Ok (text, tbls, reports1) →
  Builder.build_community_context cfg reports1 entities = Ok (text2, tbls2, reports2) →
  reports2 = reports1.
Proof. apply build_twice. Qed.

(** X6. The filter returns a sub-list of the reports, in their order; every
    report it keeps has a rank that is present, not zero and at least the
    minimum; and raising the minimum rank only removes reports. *)
Theorem filter_keeps_ranked_sublist (cfg cfg' : Config)
    (reports : list CommunityReport) :
  Builder.select_reports cfg reports `sublist_of` reports
  ∧ (∀ r, r ∈ Builder.select_reports cfg reports →
          ∃ x, rank r = Some x ∧ ¬ (x == 0)%Q
               ∧ (inject_Z (min_community_rank cfg) <= x)%Q)
  ∧ (min_community_rank cfg <= min_community_rank cfg' →
     Builder.select_reports cfg' reports
       `sublist_of` Builder.select_reports cfg reports).
Proof.
  split; [apply sublist_filter|]. split.
  - intros r [_ Hr]%select_reports_spec. by apply selected_iff.
  - intros Hmin. unfold Builder.select_reports.
    rewrite <- (list_filter_filter_l (fun r => Builder.selected cfg' r = true)
                  (fun r => Builder.selected cfg r = true)).
    + apply sublist_filter.
    + intros r (x & Hx & Hnz & Hle)%selected_iff. apply selected_iff.
      exists x. split; [done|]. split; [done|].
      eapply Qle_trans; [|exact Hle]. by rewrite <- Zle_Qle.
Qed.

Lemma lookup_past_two {A : Type} (a b : A) (l : list A) (n : nat) :
  (a :: b :: l) !! (2 + n)%nat = l !! n.
Proof. reflexivity. Qed.

Lemma attribute_cell (report : CommunityReport) (field : string) `{Runtime} :
  (if Weights.has_attrs report
   then match dict_get field (attrs_or_empty report) with
        | Some v => Builder.pystr v
        | None => EmptyString
        end
   else EmptyString)
  = match dict_get field (attrs_or_empty report) with
    | Some v => Builder.pystr v
    | None => EmptyString
    end.
Proof.
  unfold Weights.has_attrs, attrs_or_empty.
  by destruct (attributes report) as [[|? ?]|].
Qed.

(** X7. Every row the builder renders lines up with the header: same number
    of fields; the short id under [id] and the title under [title]; under
    the i-th attribute column the printed value of that attribute, or the
    empty string when the report does not have it; then the summary (or the
    full content) under [summary] (or [content]); and last, when the rank
    is included, the printed rank under the rank name. *)
Theorem row_aligned_with_header `{Runtime} (cfg : Config)
    (sel : list CommunityReport) (report : CommunityReport) :
  let cols := Builder.attribute_cols cfg sel in
  let hdr := Builder.header cfg sel in
  let row := Builder.new_context cfg cols report in
  length row = length hdr
  ∧ hdr !! 0%nat = Some "id" ∧ row !! 0%nat = Some (short_id report)
  ∧ hdr !! 1%nat = Some "title" ∧ row !! 1%nat = Some (title report)
  ∧ (∀ (i : nat) (field : string), cols !! i = Some field →
       hdr !! (2 + i)%nat = Some field
       ∧ row !! (2 + i)%nat
         = Some (match dict_get field (attrs_or_empty report) with
                 | Some v => Builder.pystr v
                 | None => EmptyString
                 end))
  ∧ hdr !! (2 + length cols)%nat
    = Some (if use_community_summary cfg then "summary" else "content")
  ∧ row !! (2 + length cols)%nat
    = Some (if use_community_summary cfg then summary report
            else full_content report)
  ∧ (include_community_rank cfg = true →
     hdr !! (3 + length cols)%nat = Some (community_rank_name cfg)
     ∧ row !! (3 + length cols)%nat = Some (Builder.str_rank (rank report))).
Proof.
  intros cols hdr row. split; [apply new_context_width|].
  subst hdr row. unfold Builder.header, Builder.new_context. fold cols.
  repeat (split; [reflexivity|]). cbn [app].
  split; [|split; [|split]].
  - intros i field Hi. rewrite !lookup_past_two. split.
    + by rewrite lookup_app_l, Hi by (by eapply lookup_lt_Some).
    + rewrite lookup_app_l by (rewrite length_map; by eapply lookup_lt_Some).
      rewrite list_lookup_fmap, Hi. simpl. by rewrite attribute_cell.
  - rewrite lookup_past_two.
    by rewrite lookup_app_r, Nat.sub_diag by lia.
  - rewrite lookup_past_two.
    rewrite lookup_app_r by (rewrite length_map; lia).
    by rewrite length_map, Nat.sub_diag.
  - intros ->. change (3 + length cols)%nat with (2 + S (length cols))%nat.
    rewrite !lookup_past_two. split.
    + rewrite lookup_app_r by lia.
      by replace (S (length cols) - length cols)%nat with 1%nat by lia.
    + rewrite lookup_app_r by (rewrite length_map; lia).
      rewrite length_map.
      by replace (S (length cols) - length cols)%nat with 1%nat by lia.
Qed.

Section text_facts.
Context `{Runtime}.
Variables (cfg : Config) (entities : option (list Entity)).

Lemma to_csv_ok_sep (sep : string) (df : DataFrame) (s : string) :
  Csv.to_csv sep df = Ok s → ∃ c, sep = String c EmptyString.
Proof.
  unfold Csv.to_csv. destruct sep as [|c [|? ?]]; try discriminate. eauto.
Qed.

(** The text of a batch closed in a state the loop can reach. *)
Lemma closed_text_no_dash hdr st df s :
  (∃ rest, hdr = "id" :: rest) →
  loop_inv cfg hdr st →
  Builder.close_batch cfg entities (current_context_records st) = Ok df →
  Csv.to_csv (column_delimiter cfg) df = Ok s →
  starts_with_dash s = false.
Proof.
  intros Hid Hinv Hclose Hcsv. eapply to_csv_no_dash; [|exact Hcsv].
  destruct (close_batch_columns _ _ _ _ _ (inv_head _ _ _ Hinv) Hclose)
    as [[-> _]|[-> _]]; [by left | by right].
Qed.

Lemma run_loop_return hdr cols st reports s df :
  (∃ rest, hdr = "id" :: rest) →
  loop_inv cfg hdr st →
  Builder.run_loop cfg entities hdr cols st reports = Ok (Return s df) →
  single_batch cfg = true
  ∧ starts_with_dash s = false
  ∧ ∃ c, column_delimiter cfg = String c EmptyString.
Proof.
  intros Hid. revert st. induction reports as [|r reports IH]; intros st Hinv Hrun;
    simpl in Hrun; [discriminate|].
  bind_inv Hrun. destruct a as [st1|s1 df1].
  - eapply IH; [|exact Hrun]. by eapply loop_step_inv.
  - injection Hrun as -> ->. unfold Builder.loop_step in Ha.
    destruct (_ >? _); [|discriminate].
    bind_inv Ha. bind_inv Ha. destruct (single_batch cfg); [|discriminate].
    injection Ha as -> ->. split; [done|]. split.
    + by eapply closed_text_no_dash.
    + by eapply to_csv_ok_sep.
Qed.

Lemma accumulate_texts sel text tbls :
  Builder.accumulate cfg entities sel = Ok (text, tbls) →
  match text with
  | TextStr s => starts_with_dash s = false
  | TextList l => Forall (fun t => starts_with_dash t = false) l
  end
  ∧ ∃ c, column_delimiter cfg = String c EmptyString.
Proof.
  unfold Builder.accumulate. intros Hacc. bind_inv Hacc.
  pose proof (header_starts_with_id cfg sel) as Hid.
  pose proof (initial_state_inv cfg (Builder.header cfg sel)) as Hinit.
  destruct a as [st|s df].
  - assert (loop_inv cfg (Builder.header cfg sel) st) as Hinv
      by (by eapply run_loop_inv).
    rewrite (finish_closes _ _ _ _ Hinv) in Hacc.
    bind_inv Hacc. bind_inv Hacc. bind_inv Hacc. injection Hacc as <- _.
    split; [|by eapply to_csv_ok_sep].
    apply Forall_app. split; [apply (inv_texts _ _ _ Hinv)|].
    apply Forall_singleton. by eapply closed_text_no_dash.
  - injection Hacc as <- _.
    by destruct (run_loop_return _ _ _ _ _ _ Hid Hinit Ha) as (_ & ? & ?).
Qed.

End text_facts.

(** X8. The banner line [-----<context name>-----] opens the text whose
    tokens are counted, but no text the builder returns starts with it:
    what is returned is the rendering of a table, never the text that was
    being accumulated. *)
Theorem returned_text_never_has_banner `{Runtime} (cfg : Config)
    (community_reports reports' : list CommunityReport)
    (entities : option (list Entity)) (text : context_text) (tbls : tables) :
  (∀ hdr, starts_with_dash (Builder.header_text cfg hdr) = true)
  ∧ (Builder.build_community_context cfg community_reports entities
     = Ok (text, tbls, reports') →
     match text with
     | TextStr s => starts_with_dash s = false
     | TextList l => Forall (fun t => starts_with_dash t = false) l
     end).
Proof.
  split; [done|]. unfold Builder.build_community_context. intros Hbuild.
  bind_inv Hbuild. destruct (Builder.select_reports cfg a).
  - injection Hbuild as <- _ _. constructor.
  - bind_inv Hbuild. destruct a0 as [t tb]. injection Hbuild as <- _ _.
    by apply accumulate_texts in Ha0 as [? _].
Qed.

(** X9. The builder can only return a non-empty context when the column
    delimiter is exactly one character: with any other delimiter and at
    least one surviving report every call ends in an exception, because
    each path to a result renders a table with that separator. *)
Theorem result_needs_one_character_delimiter `{Runtime} (cfg : Config)
    (community_reports reports' : list CommunityReport)
    (entities : option (list Entity)) (text : context_text) (tbls : tables) :
  Builder.build_community_context cfg community_reports entities
  = Ok (text, tbls, reports') →
  Builder.select_reports cfg reports' ≠ [] →
  ∃ c, column_delimiter cfg = String c EmptyString.
Proof.
  unfold Builder.build_community_context. intros Hbuild Hne.
  bind_inv Hbuild. destruct (Builder.select_reports cfg a) eqn:Hsel.
  - injection Hbuild as _ _ <-. by rewrite Hsel in Hne.
  - bind_inv Hbuild. destruct a0 as [t tb].
    by apply accumulate_texts in Ha0 as [_ ?].
Qed.

(** X10. Without entities, without the rank column and with a one-character
    delimiter the builder never raises, whatever the reports, the token
    counter and the budget; and the reports come back untouched. *)
Theorem builder_returns_without_sort_columns `{Runtime} (cfg : Config)
    (sep : ascii) (community_reports : list CommunityReport) :
  include_community_rank cfg = false →
  column_delimiter cfg = String sep EmptyString →
  ∃ text tbls,
    Builder.build_community_context cfg community_reports None
    = Ok (text, tbls, community_reports).
Proof. apply build_returns. Qed.

Section batching_facts.
Context `{Runtime}.
Variables (cfg : Config) (entities : option (list Entity)).

Lemma attribute_cols_head (l l' : list CommunityReport) :
  head l = head l' → Builder.attribute_cols cfg l = Builder.attribute_cols cfg l'.
Proof.
  unfold Builder.attribute_cols.
  destruct l as [|x l], l' as [|x' l']; simpl; try done. by intros [= ->].
Qed.

Lemma header_head (l l' : list CommunityReport) :
  head l = head l' → Builder.header cfg l = Builder.header cfg l'.
Proof.
  intros Hhd. unfold Builder.header. by rewrite (attribute_cols_head l l').
Qed.

Lemma sum_tokens_nonneg (records : list (list string)) :
  (∀ s, 0 <= num_tokens s) → 0 <= sum_tokens cfg records.
Proof.
  intros Hpos. unfold sum_tokens. induction records as [|row records IH]; simpl.
  - lia.
  - specialize (Hpos (Builder.row_text cfg row)). lia.
Qed.

(** As long as the budget holds, the loop only appends. *)
Lemma run_loop_all_fit hdr cols st reports :
  (∀ s, 0 <= num_tokens s) →
  current_tokens st + sum_tokens cfg (map (Builder.new_context cfg cols) reports)
  <= max_tokens cfg →
  ∃ st', Builder.run_loop cfg entities hdr cols st reports = Ok (Continue st')
         ∧ current_context_records st'
           = current_context_records st ++ map (Builder.new_context cfg cols) reports
         ∧ all_context_text st' = all_context_text st
         ∧ all_context_records st' = all_context_records st.
Proof.
  intros Hpos. revert st. induction reports as [|r reports IH]; intros st Hfit.
  - exists st. simpl. by rewrite app_nil_r.
  - cbn [map] in Hfit. unfold sum_tokens in Hfit. cbn [map foldr] in Hfit.
    fold (sum_tokens cfg (map (Builder.new_context cfg cols) reports)) in Hfit.
    pose proof (sum_tokens_nonneg (map (Builder.new_context cfg cols) reports) Hpos).
    cbn [Builder.run_loop]. rewrite loop_step_fits by lia. simpl.
    destruct (IH (mkLoopState
                    (current_context_text st
                     +:+ Builder.row_text cfg (Builder.new_context cfg cols r))
                    (current_tokens st
                     + num_tokens (Builder.row_text cfg (Builder.new_context cfg cols r)))
                    (current_context_records st ++ [Builder.new_context cfg cols r])
                    (all_context_text st) (all_context_records st)))
      as (st' & Hrun & Hrec & Htxt & Hfr); [simpl; lia|].
    exists st'. split; [exact Hrun|]. simpl in *.
    by rewrite Hrec, <- app_assoc.
Qed.

Lemma run_loop_no_return hdr cols st reports s df :
  single_batch cfg = false →
  Builder.run_loop cfg entities hdr cols st reports ≠ Ok (Return s df).
Proof.
  intros Hsb. revert st. induction reports as [|r reports IH]; intros st Hrun;
    simpl in Hrun; [discriminate|].
  bind_inv Hrun. destruct a as [st1|s1 df1]; [by eapply IH|].
  unfold Builder.loop_step in Ha. destruct (_ >? _); [|discriminate].
  bind_inv Ha. bind_inv Ha. by rewrite Hsb in Ha.
Qed.

End batching_facts.

(** X11. In single-batch mode the builder stops at the first report that
    overflows the budget: the text is one string, the rendering of the batch
    of the reports before it, the table is that batch alone, and the reports
    after the overflowing one have no influence on the result at all. *)
Theorem single_batch_stops_at_first_overflow `{Runtime} (cfg : Config)
    (entities : option (list Entity)) (before after : list CommunityReport)
    (report : CommunityReport) (st : LoopState) :
  let sel := before ++ report :: after in
  let hdr := Builder.header cfg sel in
  let cols := Builder.attribute_cols cfg sel in
  single_batch cfg = true →
  Builder.run_loop cfg entities hdr cols (Builder.initial_state cfg hdr) before
  = Ok (Continue st) →
  current_tokens st
  + num_tokens (Builder.row_text cfg (Builder.new_context cfg cols report))
  > max_tokens cfg →
  current_context_records st = hdr :: map (Builder.new_context cfg cols) before
  ∧ Builder.accumulate cfg entities sel
    = (record_df ← Builder.close_batch cfg entities (current_context_records st);
       text ← Csv.to_csv (column_delimiter cfg) record_df;
       Ok (TextStr text, {[ lower (context_name cfg) := record_df ]}))
  ∧ ∀ after', Builder.accumulate cfg entities (before ++ report :: after')
              = Builder.accumulate cfg entities sel.
Proof.
  intros sel hdr cols Hsb Hrun Hover.
  assert (∀ after',
            Builder.accumulate cfg entities (before ++ report :: after')
            = (record_df ← Builder.close_batch cfg entities (current_context_records st);
               text ← Csv.to_csv (column_delimiter cfg) record_df;
               Ok (TextStr text, {[ lower (context_name cfg) := record_df ]})))
    as Hany.
  { intros after'. unfold Builder.accumulate.
    assert (head (before ++ report :: after') = head sel) as Hhd
      by (unfold sel; by destruct before).
    rewrite (header_head cfg _ _ Hhd), (attribute_cols_head cfg _ _ Hhd).
    fold hdr cols. rewrite run_loop_app, Hrun. simpl.
    rewrite loop_step_overflow by exact Hover. rewrite Hsb.
    destruct (Builder.close_batch _ _ _) as [df|e]; simpl; [|done].
    by destruct (Csv.to_csv _ _) as [text|e]. }
  split; [by apply (run_loop_single_continue cfg entities Hsb) in Hrun|].
  split; [apply Hany|]. intros after'. unfold sel. by rewrite !Hany.
Qed.

Lemma remove_dups_NoDup (l : list string) : NoDup l → remove_dups l = l.
Proof.
  induction 1 as [|x l Hx _ IH]; simpl; [done|].
  destruct (decide_rel elem_of x l); [done | by rewrite IH].
Qed.

(** X12. With a token counter that never goes below zero and a header
    without a repeated column name, when the header block and all the rows
    together fit the budget, the loop closes nothing on the way: the
    builder's tail closes one batch holding every report, in single-batch
    mode or not, and returns a list with exactly one text, together with
    the table of that batch. *)
Theorem everything_fits_one_batch `{Runtime} (cfg : Config)
    (entities : option (list Entity)) (sel : list CommunityReport) :
  let hdr := Builder.header cfg sel in
  let cols := Builder.attribute_cols cfg sel in
  let records := hdr :: map (Builder.new_context cfg cols) sel in
  (∀ s, 0 <= num_tokens s) →
  NoDup hdr →
  batch_tokens cfg hdr records <= max_tokens cfg →
  Builder.accumulate cfg entities sel
  = (record_df ← Builder.close_batch cfg entities records;
     text ← Csv.to_csv (column_delimiter cfg) record_df;
     Ok (TextList [text], {[ lower (context_name cfg) := record_df ]})).
Proof.
  intros hdr cols records Hpos Hnodup Hfit. unfold Builder.accumulate. fold hdr cols.
  destruct (run_loop_all_fit cfg entities hdr cols (Builder.initial_state cfg hdr) sel Hpos)
    as (st & Hrun & Hrec & Htxt & Hfr); [exact Hfit|].
  rewrite Hrun. simpl.
  rewrite (finish_closes _ _ hdr).
  - rewrite Hrec, Htxt, Hfr. simpl. fold records.
    destruct (Builder.close_batch cfg entities records) as [df|e] eqn:Hdf;
      simpl; [|done].
    destruct (Csv.to_csv _ _) as [text|e]; simpl; [|done].
    rewrite !app_nil_r.
    assert (NoDup (columns df)) as Hcols.
    { destruct (close_batch_columns cfg entities records hdr df eq_refl Hdf)
        as [[-> _]|[-> _]]; [constructor | exact Hnodup]. }
    rewrite (remove_dups_NoDup _ Hcols). by destruct df.
  - eapply run_loop_inv; [apply header_starts_with_id| |exact Hrun].
    apply initial_state_inv.
Qed.

Section row_accounting.
Context `{Runtime}.
Hypothesis Hsort : quicksort_contract H.

(** The sorter returns as many rows as it was given. *)
Lemma rank_report_context_rows df w r df' :
  Sorter._rank_report_context df w r = Ok df' →
  length (rows df') = length (rows df).
Proof.
  unfold Sorter._rank_report_context. intros Hrank. bind_inv Hrank.
  destruct a as [by_ df1].
  destruct (float_columns_spec _ _ _ _ _ Ha) as (_ & _ & _ & idxs & _ & Hrows).
  apply Forall2_length in Hrows. rewrite Hrows.
  destruct (0 <? length by_)%nat.
  - apply (sort_values_spec _ _ _ Hsort) in Hrank as (_ & _ & _ & Hperm & _).
    symmetry. by apply Permutation_length.
  - by injection Hrank as <-.
Qed.

Lemma close_batch_rows cfg entities records df :
  Builder.close_batch cfg entities records = Ok df →
  length (rows df) = length (tail records).
Proof.
  unfold Builder.close_batch. destruct records as [|h [|row records]]; simpl.
  - by intros [= <-].
  - by intros [= <-].
  - unfold Sorter._convert_report_context_to_df.
    destruct (forallb _ _); [|discriminate].
    intros Hrank%rank_report_context_rows. rewrite Hrank. simpl.
    by rewrite length_map.
Qed.

Variables (cfg : Config) (entities : option (list Entity)).
Hypothesis Hmulti : single_batch cfg = false.

(** The ledger of the loop in multi-batch mode: rows already in closed
    tables, rows in the open batch, and one report lost per closed batch. *)
Lemma run_loop_ledger hdr cols st reports st' :
  (∃ rest, hdr = "id" :: rest) →
  loop_inv cfg hdr st →
  length (all_context_text st) = length (all_context_records st) →
  Builder.run_loop cfg entities hdr cols st reports = Ok (Continue st') →
  length (all_context_text st') = length (all_context_records st')
  ∧ (length (concat (map rows (all_context_records st')))
     + length (tail (current_context_records st'))
     + length (all_context_text st')
     = length (concat (map rows (all_context_records st)))
       + length (tail (current_context_records st))
       + length (all_context_text st)
       + length reports)%nat.
Proof.
  intros Hid. revert st. induction reports as [|r reports IH];
    intros st Hinv Hlen Hrun; simpl in Hrun.
  - injection Hrun as <-. simpl. split; [done | lia].
  - bind_inv Hrun. destruct a as [st1|s df]; [|discriminate].
    pose proof (loop_step_inv _ _ _ _ _ _ _ Hid Hinv Ha) as Hinv1.
    assert (length (all_context_text st1) = length (all_context_records st1)
            ∧ (length (concat (map rows (all_context_records st1)))
               + length (tail (current_context_records st1))
               + length (all_context_text st1)
               = length (concat (map rows (all_context_records st)))
                 + length (tail (current_context_records st))
                 + length (all_context_text st) + 1)%nat) as [Hlen1 Hstep].
    { set (t := num_tokens (Builder.row_text cfg (Builder.new_context cfg cols r))).
      destruct (Z_le_gt_dec (current_tokens st + t) (max_tokens cfg)) as [Hfit|Hover].
      - rewrite loop_step_fits in Ha by exact Hfit. injection Ha as <-. simpl.
        split; [done|]. pose proof (inv_head _ _ _ Hinv) as Hhd.
        destruct (current_context_records st); [discriminate|]. simpl.
        rewrite length_app. simpl. lia.
      - rewrite loop_step_overflow in Ha by exact Hover.
        bind_inv Ha. bind_inv Ha. rewrite Hmulti in Ha. injection Ha as <-. simpl.
        apply close_batch_rows in Ha0.
        rewrite !length_app, map_app, concat_app, length_app. simpl.
        rewrite app_nil_r. split; lia. }
    destruct (IH st1 Hinv1 Hlen1 Hrun) as [Hlen' Hsum].
    split; [exact Hlen'|]. simpl. lia.
Qed.

End row_accounting.

(** X13. In multi-batch mode every batch after the first costs one report:
    when the builder's tail returns, it returns a list of texts and one
    table, and the number of rows of the table plus the number of texts is
    the number of surviving reports plus one.  (So the table has a row for
    every report exactly when there is a single text.) *)
Theorem multi_batch_row_accounting `{Runtime} (cfg : Config)
    (entities : option (list Entity)) (sel : list CommunityReport)
    (text : context_text) (tbls : tables) :
  quicksort_contract H →
  single_batch cfg = false →
  Builder.accumulate cfg entities sel = Ok (text, tbls) →
  ∃ texts table,
    text = TextList texts
    ∧ tbls = {[ lower (context_name cfg) := table ]}
    ∧ (length (rows table) + length texts = S (length sel))%nat.
Proof.
  intros Hsort Hmulti Hacc. unfold Builder.accumulate in Hacc. bind_inv Hacc.
  pose proof (header_starts_with_id cfg sel) as Hid.
  pose proof (initial_state_inv cfg (Builder.header cfg sel)) as Hinit.
  destruct a as [st|s df]; [|by apply run_loop_no_return in Ha].
  assert (loop_inv cfg (Builder.header cfg sel) st) as Hinv
    by (by eapply run_loop_inv).
  destruct (run_loop_ledger Hsort cfg entities Hmulti _ _ _ _ _ Hid Hinit eq_refl Ha)
    as [Hlen Hsum].
  rewrite (finish_closes _ _ _ _ Hinv) in Hacc.
  bind_inv Hacc. bind_inv Hacc. bind_inv Hacc. injection Hacc as <- <-.
  rewrite pd_concat_snoc in Ha2. injection Ha2 as <-.
  apply (close_batch_rows Hsort) in Ha0.
  eexists _, _. split; [done|]. split; [done|]. simpl in *.
  rewrite map_app, concat_app, !length_app. simpl. rewrite app_nil_r. lia.
Qed.

(** * Further properties of the table sorter *)

Lemma column_index_None (c : string) (cols : list string) :
  Sorter.column_index c cols = None ↔ c ∉ cols.
Proof.
  induction cols as [|c' cols IH]; simpl.
  - split; [intros _; apply not_elem_of_nil | done].
  - rewrite not_elem_of_cons. destruct (String.eqb_spec c c') as [->|Hne].
    + split; [discriminate | by intros [? _]].
    + rewrite <- IH. destruct (Sorter.column_index c cols); simpl; split;
        try done; by intros [_ ?].
Qed.

Lemma column_index_Some (c : string) (cols : list string) (i : nat) :
  Sorter.column_index c cols = Some i → cols !! i = Some c.
Proof.
  revert i. induction cols as [|c' cols IH]; intros i; simpl; [done|].
  destruct (String.eqb_spec c c') as [->|Hne].
  - by intros [= <-].
  - destruct (Sorter.column_index c cols) as [j|]; simpl; [|done].
    intros [= <-]. by apply IH.
Qed.

Lemma rmapM_raises {A B : Type} (f : A → result B) (l : list A) (e : pyerror) :
  (∀ a e', f a = Raise e' → e' = e) →
  (∃ a, a ∈ l ∧ f a = Raise e) →
  rmapM f l = Raise e.
Proof.
  intros Honly (a & Ha & Hfa). induction l as [|b l IH]; [by apply elem_of_nil in Ha|].
  simpl. destruct (f b) as [y|e'] eqn:Hb; simpl.
  - apply elem_of_cons in Ha as [->|Ha]; [congruence|].
    by rewrite (IH Ha).
  - by rewrite (Honly _ _ Hb).
Qed.

Section sorter_errors.
Context `{Runtime}.

Lemma float_cell_raises i row e :
  Sorter.float_cell i row = Raise e → e = ValueError.
Proof.
  unfold Sorter.float_cell. destruct (row !! i ≫= Sorter.parsed_cell); [done|].
  by intros [= <-].
Qed.

Lemma astype_float_raises c df e :
  Sorter.astype_float c df = Raise e → e = KeyError ∨ e = ValueError.
Proof.
  unfold Sorter.astype_float.
  destruct (Sorter.column_index c (columns df)) as [i|].
  - destruct (rmapM _ _) as [rows'|e'] eqn:Hm; [done|]. simpl. intros [= <-].
    right. clear -Hm. induction (rows df) as [|row l IH]; simpl in Hm; [done|].
    destruct (Sorter.float_cell i row) eqn:Hrow; simpl in Hm.
    + destruct (rmapM _ l); [done|]. simpl in Hm. injection Hm as <-. by apply IH.
    + injection Hm as <-. by eapply float_cell_raises.
  - intros [= <-]. by left.
Qed.

End sorter_errors.

(** X14. A sort column that is not in the table makes the sorter raise: a
    missing weight column gives [KeyError]; a missing rank column gives
    [KeyError] too, unless the conversion of the weight column has already
    failed with [ValueError]. *)
Theorem sorter_missing_column_raises `{Runtime} (df : DataFrame)
    (w r : option string) (c : string) :
  c ∉ columns df →
  (Sorter.given w = Some c →
   Sorter._rank_report_context df w r = Raise KeyError)
  ∧ (Sorter.given r = Some c →
     Sorter._rank_report_context df w r = Raise KeyError
     ∨ Sorter._rank_report_context df w r = Raise ValueError).
Proof.
  intros Hc%column_index_None. split.
  - intros Hw. unfold Sorter._rank_report_context, Sorter.float_columns.
    rewrite Hw. unfold Sorter.astype_float. by rewrite Hc.
  - intros Hr. unfold Sorter._rank_report_context, Sorter.float_columns.
    rewrite Hr. destruct (Sorter.given w) as [wc|]; simpl.
    + destruct (Sorter.astype_float wc df) as [df1|e] eqn:Hw; simpl.
      * left. unfold Sorter.astype_float.
        by rewrite (astype_float_columns _ _ _ Hw), Hc.
      * destruct (astype_float_raises _ _ _ Hw) as [->| ->]; [by left | by right].
    + left. unfold Sorter.astype_float. by rewrite Hc.
Qed.

(** X15. A text in the weight column that does not read as a float makes
    the sorter raise [ValueError]: nothing is coerced to a number silently,
    and no row is dropped. *)
Theorem sorter_unparseable_weight_raises `{Runtime} (df : DataFrame)
    (w r : option string) (c : string) (i : nat) (row : list cell) (s : string) :
  Sorter.given w = Some c →
  Sorter.column_index c (columns df) = Some i →
  row ∈ rows df →
  row !! i = Some (CStr s) →
  parse_float s = None →
  Sorter._rank_report_context df w r = Raise ValueError.
Proof.
  intros Hw Hi Hrow Hcell Hs.
  unfold Sorter._rank_report_context, Sorter.float_columns.
  rewrite Hw. unfold Sorter.astype_float. rewrite Hi.
  rewrite (rmapM_raises (Sorter.float_cell i) (rows df) ValueError); [done| |].
  - intros a e. apply float_cell_raises.
  - exists row. split; [done|]. unfold Sorter.float_cell. rewrite Hcell. simpl.
    by rewrite Hs.
Qed.

Section sorter_other_cells.
Context `{Runtime}.

Lemma float_cell_off i row row1 :
  Sorter.float_cell i row = Ok row1 → same_off [i] row row1.
Proof.
  intros (c & x & Hi & Hc & ->)%float_cell_spec. split.
  - apply length_insert.
  - intros j Hj. apply list_lookup_insert_ne. set_solver.
Qed.

Lemma same_off_refl row : same_off [] row row.
Proof. by split. Qed.

Lemma same_off_trans I J a b c :
  same_off I a b → same_off J b c → same_off (I ++ J) a c.
Proof.
  intros [Hl1 H1] [Hl2 H2]. split; [congruence|].
  intros j Hj. rewrite H2, H1; [done | |]; set_solver.
Qed.

Lemma astype_float_off c df df1 :
  Sorter.astype_float c df = Ok df1 →
  ∃ i, Sorter.column_index c (columns df) = Some i
       ∧ Forall2 (same_off [i]) (rows df) (rows df1).
Proof.
  intros (i & Hi & _ & Hrows)%astype_float_spec. exists i. split; [done|].
  eapply Forall2_impl; [exact Hrows|]. intros row row1. apply float_cell_off.
Qed.

Lemma Forall2_same_off_trans I J (l l1 l2 : list (list cell)) :
  Forall2 (same_off I) l l1 → Forall2 (same_off J) l1 l2 →
  Forall2 (same_off (I ++ J)) l l2.
Proof.
  intros H1. revert l2. induction H1 as [|a b l l1 Hab _ IH]; intros l2 H2;
    inversion H2; subst; constructor; [by eapply same_off_trans | by apply IH].
Qed.

Lemma float_columns_off df w r by_ df1 :
  Sorter.float_columns df w r = Ok (by_, df1) →
  ∃ idxs, Sorter.column_indexes by_ (columns df) = Ok idxs
          ∧ Forall2 (same_off idxs) (rows df) (rows df1).
Proof.
  unfold Sorter.float_columns, Sorter.column_indexes. intros Hf.
  bind_inv Hf. destruct a as [attrs1 df0].
  destruct (Sorter.given w) as [wc|]; destruct (Sorter.given r) as [rc|]; simpl.
  - bind_inv Ha. injection Ha as <- <-. bind_inv Hf. injection Hf as <- <-.
    pose proof (astype_float_columns _ _ _ Ha0) as Hcols.
    apply astype_float_off in Ha0 as (i & Hi & Hr0).
    apply astype_float_off in Ha as (j & Hj & Hr1).
    rewrite Hcols in Hj. exists [i; j]. simpl. rewrite Hi. simpl. rewrite Hj.
    split; [done|]. eapply (Forall2_same_off_trans [i] [j]); eassumption.
  - bind_inv Ha. injection Ha as <- <-. injection Hf as <- <-.
    apply astype_float_off in Ha0 as (i & Hi & Hr0).
    exists [i]. simpl. by rewrite Hi.
  - injection Ha as <- <-. bind_inv Hf. injection Hf as <- <-.
    apply astype_float_off in Ha as (j & Hj & Hr1).
    exists [j]. simpl. by rewrite Hj.
  - injection Ha as <- <-. injection Hf as <- <-. exists []. split; [done|].
    apply Forall_Forall2_diag, Forall_forall. intros row _. apply same_off_refl.
Qed.

End sorter_other_cells.

Lemma column_indexes_named by_ cols idxs j :
  Sorter.column_indexes by_ cols = Ok idxs → j ∈ idxs →
  ∃ c, c ∈ by_ ∧ cols !! j = Some c.
Proof.
  intros Hidx%rmapM_Forall2 Hj.
  destruct (list_elem_of_lookup_1 _ _ Hj) as [n Hn].
  destruct (Forall2_lookup_r _ _ _ _ _ Hidx Hn) as (c & Hc & Hci).
  exists c. split; [by eapply list_elem_of_lookup_2|].
  destruct (Sorter.column_index c cols) as [i|] eqn:Hi; [|done].
  injection Hci as ->. by apply column_index_Some.
Qed.

(** X16. The sorter changes nothing outside the sort columns: the rows it
    returns are, up to their order, the rows it was given with only the
    cells under the weight and rank columns replaced (by their float
    values), each row keeping its length and every cell under a column of
    another name. *)
Theorem sorter_keeps_other_cells `{Runtime} (df : DataFrame)
    (w r : option string) (df' : DataFrame) :
  quicksort_contract H →
  Sorter._rank_report_context df w r = Ok df' →
  ∃ rows1,
    Forall2 (same_outside (sort_columns w r) (columns df)) (rows df) rows1
    ∧ Permutation rows1 (rows df').
Proof.
  intros Hq Hrank. unfold Sorter._rank_report_context in Hrank.
  bind_inv Hrank. destruct a as [by_ df1].
  destruct (float_columns_spec _ _ _ _ _ Ha) as (-> & _ & _ & _).
  destruct (float_columns_off _ _ _ _ _ Ha) as (idxs & Hidx & Hoff).
  exists (rows df1). split.
  - eapply Forall2_impl; [exact Hoff|]. intros row row1 [Hlen Hsame].
    split; [exact Hlen|]. intros j c Hj Hc. apply Hsame. intros Hin.
    destruct (column_indexes_named _ _ _ _ Hidx Hin) as (c' & Hc' & Hj').
    rewrite Hj in Hj'. by injection Hj' as ->.
  - destruct (0 <? length (sort_columns w r))%nat.
    + by apply (sort_values_spec _ _ _ Hq) in Hrank as (_ & _ & _ & Hperm & _).
    + by injection Hrank as <-.
Qed.

(** * The returned text against the text that was counted *)

Lemma append_cons (c : ascii) (s t : string) :
  String c s +:+ t = String c (s +:+ t).
Proof. reflexivity. Qed.

Lemma append_nil_r (s : string) : s +:+ EmptyString = s.
Proof.
  induction s as [|c s IH]; [done|]. by rewrite append_cons, IH.
Qed.

Lemma append_assoc (a b c : string) : (a +:+ b) +:+ c = a +:+ (b +:+ c).
Proof.
  induction a as [|x a IH]; [done|]. by rewrite !append_cons, IH.
Qed.

Lemma concat_empty_snoc (l : list string) (x : string) :
  String.concat EmptyString (l ++ [x]) = String.concat EmptyString l +:+ x.
Proof.
  induction l as [|a l IH]; [done|].
  destruct l as [|b l].
  - done.
  - change (String.concat EmptyString ((a :: b :: l) ++ [x]))
      with (a +:+ EmptyString +:+ String.concat EmptyString ((b :: l) ++ [x])).
    rewrite IH.
    change (String.concat EmptyString (a :: b :: l))
      with (a +:+ EmptyString +:+ String.concat EmptyString (b :: l)).
    simpl. by rewrite !append_assoc.
Qed.

Lemma header_text_banner (cfg : Config) (hdr : list string) :
  Builder.header_text cfg hdr = banner cfg +:+ Builder.row_text cfg hdr.
Proof.
  unfold Builder.header_text, banner, Builder.row_text. by rewrite !append_assoc.
Qed.

Lemma quote_plain_fields (c : ascii) (fields : list string) :
  Forall (fun f => Csv.needs_quote c f = false) fields →
  map (Csv.quote_field c) fields = fields.
Proof.
  induction 1 as [|f fields Hf _ IH]; simpl; [done|].
  unfold Csv.quote_field at 1. by rewrite Hf, IH.
Qed.

Section counted_text.
Context `{Runtime}.
Variables (cfg : Config) (entities : option (list Entity)) (sep : ascii).
Hypothesis Hweight : Builder.weight_column cfg entities = None.
Hypothesis Hrank : Builder.rank_column cfg = None.
Hypothesis Hsep : column_delimiter cfg = String sep EmptyString.

(** The text under construction is the header block followed by the row
    texts of the open batch. *)
Lemma run_loop_text hdr cols st reports st' :
  head (current_context_records st) = Some hdr →
  current_context_text st
  = Builder.header_text cfg hdr
    +:+ String.concat EmptyString
          (map (Builder.row_text cfg) (tail (current_context_records st))) →
  Builder.run_loop cfg entities hdr cols st reports = Ok (Continue st') →
  head (current_context_records st') = Some hdr
  ∧ current_context_text st'
    = Builder.header_text cfg hdr
      +:+ String.concat EmptyString
            (map (Builder.row_text cfg) (tail (current_context_records st'))).
Proof.
  revert st. induction reports as [|r reports IH]; intros st Hhd Htext Hrun;
    simpl in Hrun.
  - by injection Hrun as <-.
  - bind_inv Hrun. destruct a as [st1|s df]; [|discriminate].
    eapply IH; [| |exact Hrun]; clear IH Hrun;
      unfold Builder.loop_step in Ha; destruct (_ >? _).
    + bind_inv Ha. bind_inv Ha. destruct (single_batch cfg); [discriminate|].
      by injection Ha as <-.
    + injection Ha as <-. simpl. by destruct (current_context_records st).
    + bind_inv Ha. bind_inv Ha. destruct (single_batch cfg); [discriminate|].
      injection Ha as <-. simpl. by rewrite append_nil_r.
    + injection Ha as <-. simpl. rewrite Htext.
      destruct (current_context_records st) as [|h records]; [discriminate|].
      cbn [tail app]. rewrite map_app. cbn [map].
      by rewrite concat_empty_snoc, append_assoc.
Qed.

Lemma text_of_string_cells (row : list string) :
  map Csv.cell_text (map CStr row) = row.
Proof. induction row as [|f row IH]; simpl; [done | by rewrite IH]. Qed.

Lemma to_csv_plain hdr (records : list (list string)) :
  Forall (fun f => Csv.needs_quote sep f = false) hdr →
  Forall (Forall (fun f => Csv.needs_quote sep f = false)) records →
  Csv.to_csv (column_delimiter cfg) (mkDataFrame hdr (map (map CStr) records))
  = Ok (Builder.row_text cfg hdr
        +:+ String.concat EmptyString (map (Builder.row_text cfg) records)).
Proof.
  intros Hhdr Hrecs. rewrite Hsep. unfold Csv.to_csv. simpl. do 2 f_equal.
  - unfold Csv.writerow, Builder.row_text. by rewrite quote_plain_fields, Hsep.
  - f_equal. rewrite map_map. apply map_ext_Forall.
    eapply Forall_impl; [exact Hrecs|]. intros row Hrow. simpl.
    unfold Csv.writerow, Builder.row_text.
    by rewrite text_of_string_cells, quote_plain_fields, Hsep.
Qed.

End counted_text.

(** X17. With no sort column, a one-character delimiter and no field that
    needs quoting, the text rendered for a batch that holds at least one
    row is exactly the text whose tokens were counted for it, without the
    banner line: the banner is paid for in tokens but not returned. *)
Theorem rendered_batch_is_counted_text `{Runtime} (cfg : Config)
    (entities : option (list Entity)) (sep : ascii)
    (sel reports : list CommunityReport) (st : LoopState) :
  let hdr := Builder.header cfg sel in
  let cols := Builder.attribute_cols cfg sel in
  Builder.weight_column cfg entities = None →
  Builder.rank_column cfg = None →
  column_delimiter cfg = String sep EmptyString →
  Builder.run_loop cfg entities hdr cols (Builder.initial_state cfg hdr) reports
  = Ok (Continue st) →
  tail (current_context_records st) ≠ [] →
  Forall (Forall (fun f => Csv.needs_quote sep f = false))
         (current_context_records st) →
  ∃ df text,
    Builder.close_batch cfg entities (current_context_records st) = Ok df
    ∧ Csv.to_csv (column_delimiter cfg) df = Ok text
    ∧ current_context_text st = banner cfg +:+ text.
Proof.
  intros hdr cols Hweight Hrank Hsep Hrun Hrows Hplain.
  destruct (run_loop_returns cfg entities sep Hweight Hrank Hsep sel
              (Builder.initial_state cfg hdr) reports)
    as (out & Hrun' & Hout); [by apply Forall_singleton | done |].
  fold hdr cols in Hrun'. rewrite Hrun in Hrun'. injection Hrun' as <-.
  destruct (Hout st eq_refl) as [Hwidth Hhd]. fold hdr in Hwidth, Hhd.
  destruct (run_loop_text cfg entities hdr cols (Builder.initial_state cfg hdr)
              reports st) as [_ Htext]; [done | | exact Hrun |].
  { simpl. by rewrite append_nil_r. }
  destruct (current_context_records st) as [|h [|row records]] eqn:Hrec;
    [done | done |].
  injection Hhd as ->. simpl in Htext.
  apply Forall_cons in Hplain as [Hplain_hdr Hplain_rows].
  apply Forall_cons in Hwidth as [_ Hwidth].
  exists (mkDataFrame hdr (map (map CStr) (row :: records))),
         (Builder.row_text cfg hdr
          +:+ String.concat EmptyString (map (Builder.row_text cfg) (row :: records))).
  split; [|split].
  - unfold Builder.close_batch. simpl. rewrite Hweight, Hrank.
    unfold Sorter._convert_report_context_to_df.
    rewrite (proj2 (forallb_forall _ _)); [done|].
    intros r Hr. apply Nat.eqb_eq. rewrite Forall_forall in Hwidth.
    apply Hwidth. by apply list_elem_of_In.
  - by apply (to_csv_plain cfg sep Hsep).
  - by rewrite Htext, header_text_banner, append_assoc.
Qed.

(** * The completion client *)

Section split_facts.
Variable sep : ascii.

Lemma split_nonempty (s : string) : Llm.split sep s ≠ [].
Proof.
  induction s as [|c s IH]; simpl; [done|].
  destruct (Ascii.eqb c sep); [done|]. by destruct (Llm.split sep s).
Qed.

Lemma join_cons (part : string) (parts : list string) :
  parts ≠ [] →
  Llm.join sep (part :: parts)
  = part +:+ String sep EmptyString +:+ Llm.join sep parts.
Proof. by destruct parts. Qed.

Lemma join_split (s : string) : Llm.join sep (Llm.split sep s) = s.
Proof.
  induction s as [|c s IH]; [done|]. simpl.
  destruct (Ascii.eqb_spec c sep) as [->|Hne].
  - rewrite join_cons by apply split_nonempty. by rewrite IH.
  - pose proof (split_nonempty s) as Hs.
    destruct (Llm.split sep s) as [|part parts]; [done|].
    destruct parts as [|p parts].
    + unfold Llm.join in *. simpl in *. by f_equal.
    + rewrite join_cons by done. rewrite join_cons in IH by done.
      by rewrite append_cons, IH.
Qed.

Lemma split_plain (t : string) :
  Llm.has_char sep t = false → Llm.split sep t = [t].
Proof.
  induction t as [|c t IH]; simpl; [done|].
  intros [Hc Ht]%orb_false_iff. rewrite Hc. by rewrite IH.
Qed.

Lemma split_at_first (t rest : string) :
  Llm.has_char sep t = false →
  Llm.split sep (t +:+ String sep rest) = t :: Llm.split sep rest.
Proof.
  induction t as [|c t IH].
  - intros _. change (EmptyString +:+ String sep rest) with (String sep rest).
    cbn [Llm.split]. by rewrite Ascii.eqb_refl.
  - cbn [Llm.has_char]. intros [Hc Ht]%orb_false_iff.
    rewrite append_cons. cbn [Llm.split]. by rewrite Hc, IH.
Qed.

Lemma split_head_plain (s : string) :
  ∃ part parts, Llm.split sep s = part :: parts ∧ Llm.has_char sep part = false.
Proof.
  induction s as [|c s (part & parts & Hs & Hp)]; simpl; [by eexists _, _|].
  destruct (Ascii.eqb c sep) eqn:Hc; [by eexists _, _|].
  rewrite Hs. eexists _, _. split; [done|]. simpl. by rewrite Hc.
Qed.

End split_facts.

(** X18. Splitting the configured model name at the dots and joining the
    parts with dots gives the name back; the split always yields a first
    part, which contains no dot, so the starred unpacking
    [llm_type, *models = model.split('.')] always has something to bind. *)
Theorem model_name_split_round_trip (model : string) :
  Llm.join "."%char (Llm.split "."%char model) = model
  ∧ ∃ llm_type models,
      Llm.split "."%char model = llm_type :: models
      ∧ Llm.has_char "."%char llm_type = false.
Proof. split; [apply join_split | apply split_head_plain]. Qed.

(** X19. Routing of the configured model name.  For a name [type.rest] whose
    [type] has no dot: if the type is a valid LLM type, the call is handed
    to that LLM with [rest] as model name, dots and all, and the completion
    client is not consulted; otherwise the result is the text of the first
    choice of the completion, or [IndexError] when there is no choice.  A
    name without a dot is taken whole as the type, with an empty model
    name. *)
Theorem model_name_routing `{Llm.Services} (args : Llm.Args)
    (llm_type rest input : string) :
  Llm.get_completion_llm_args = Llm.Done args →
  Llm.has_char "."%char llm_type = false →
  let client :=
    match Llm.completions_create input args with
    | Llm.Fail f => Llm.Fail f
    | Llm.Done (choice :: _) => Llm.Done choice
    | Llm.Done [] => Llm.Fail Llm.IndexError
    end in
  Llm._execute_llm (llm_type +:+ String "."%char rest) input
  = (if Llm.is_valid_llm_type llm_type
     then Llm.use_llm_ainvoke llm_type rest input else client)
  ∧ Llm._execute_llm llm_type input
    = (if Llm.is_valid_llm_type llm_type
       then Llm.use_llm_ainvoke llm_type EmptyString input else client).
Proof.
  intros Hargs Hplain client. unfold Llm._execute_llm. rewrite Hargs.
  rewrite (split_at_first _ _ _ Hplain), (split_plain _ _ Hplain).
  by rewrite join_split.
Qed.

(** * The builder returns when the sort columns print and parse *)

Lemma column_index_app_l (c : string) (cols rest : list string) (i : nat) :
  Sorter.column_index c cols = Some i →
  Sorter.column_index c (cols ++ rest) = Some i.
Proof.
  revert i. induction cols as [|c' cols IH]; intros i; simpl; [done|].
  destruct (String.eqb c c'); [done|].
  destruct (Sorter.column_index c cols) as [j|]; simpl; [|done].
  intros [= <-]. by rewrite (IH j).
Qed.

Lemma column_index_last (c : string) (cols : list string) :
  c ∉ cols → Sorter.column_index c (cols ++ [c]) = Some (length cols).
Proof.
  induction cols as [|c' cols IH]; simpl.
  - intros _. by rewrite String.eqb_refl.
  - intros [Hne Hc]%not_elem_of_cons.
    destruct (String.eqb_spec c c'); [done|]. by rewrite IH.
Qed.

Lemma column_indexes_app (a b cols : list string) (ia ib : list nat) :
  Sorter.column_indexes a cols = Ok ia →
  Sorter.column_indexes b cols = Ok ib →
  Sorter.column_indexes (a ++ b) cols = Ok (ia ++ ib).
Proof.
  unfold Sorter.column_indexes. revert ia.
  induction a as [|c a IH]; intros ia Ha Hb; simpl in *.
  - by injection Ha as <-.
  - bind_inv Ha. bind_inv Ha. injection Ha as <-.
    rewrite Ha0. simpl. rewrite (IH a1) by done. done.
Qed.

Lemma dict_get_key (k : string) (d : pydict) (v : pyval) :
  dict_get k d = Some v → k ∈ dict_keys d.
Proof.
  induction d as [|[k' v'] d IH]; simpl; [done|].
  destruct (String.eqb_spec k k') as [->|Hne]; [intros _; by left|].
  intros Hd. right. by apply IH.
Qed.

Section sorter_returns.
Context `{Runtime}.

(** The cells of [row] at the positions [idxs] are there and parse. *)
Let cells_parse (idxs : list nat) (row : list cell) : Prop :=
  ∀ i, i ∈ idxs → ∃ x, row !! i ≫= Sorter.parsed_cell = Some x.

Lemma insert_cells_parse idxs i x row :
  cells_parse idxs row → cells_parse idxs (<[i := CFloat x]> row).
Proof.
  intros Hrow j Hj. destruct (Hrow j Hj) as [y Hy].
  destruct (decide (i = j)) as [->|Hne].
  - exists x. rewrite list_lookup_insert_eq; [done|].
    destruct (row !! j) eqn:E; [by eapply lookup_lt_Some | done].
  - exists y. by rewrite list_lookup_insert_ne.
Qed.

Lemma float_cells_return i idxs rows :
  i ∈ idxs → Forall (cells_parse idxs) rows →
  ∃ rows1, rmapM (Sorter.float_cell i) rows = Ok rows1
           ∧ Forall (cells_parse idxs) rows1.
Proof.
  intros Hi. induction 1 as [|row rows Hrow _ (rows1 & Hrows1 & Hgood)]; simpl.
  - by exists [].
  - destruct (Hrow i Hi) as [x Hx].
    assert (Sorter.float_cell i row = Ok (<[i := CFloat x]> row)) as ->
      by (unfold Sorter.float_cell; by rewrite Hx).
    simpl. rewrite Hrows1. simpl. eexists. split; [done|].
    constructor; [by apply insert_cells_parse | done].
Qed.

Lemma astype_float_returns c df i idxs :
  Sorter.column_index c (columns df) = Some i → i ∈ idxs →
  Forall (cells_parse idxs) (rows df) →
  ∃ rows1, Sorter.astype_float c df = Ok (mkDataFrame (columns df) rows1)
           ∧ Forall (cells_parse idxs) rows1.
Proof.
  intros Hi Hin Hrows. unfold Sorter.astype_float. rewrite Hi.
  destruct (float_cells_return i idxs (rows df) Hin Hrows) as (rows1 & -> & Hgood).
  by exists rows1.
Qed.

Lemma sort_values_returns by_ df idxs :
  Sorter.column_indexes by_ (columns df) = Ok idxs →
  ∃ df', Sorter.sort_values by_ df = Ok df'.
Proof.
  intros Hidx. unfold Sorter.sort_values. rewrite Hidx. simpl.
  destruct idxs as [|i [|j idxs]]; eauto.
Qed.

Lemma rank_report_context_returns df w r idxs :
  Sorter.column_indexes (sort_columns w r) (columns df) = Ok idxs →
  Forall (cells_parse idxs) (rows df) →
  ∃ df', Sorter._rank_report_context df w r = Ok df'.
Proof.
  intros Hidx Hrows. pose proof Hidx as Hnames%rmapM_Forall2.
  assert (∀ c, c ∈ sort_columns w r →
            ∃ i, Sorter.column_index c (columns df) = Some i ∧ i ∈ idxs) as Hcol.
  { intros c Hc. destruct (list_elem_of_lookup_1 _ _ Hc) as [n Hn].
    destruct (Forall2_lookup_l _ _ _ _ _ Hnames Hn) as (i & Hi & Hci).
    exists i. destruct (Sorter.column_index c (columns df)) as [i'|]; [|done].
    injection Hci as ->. split; [done|]. by eapply list_elem_of_lookup_2. }
  unfold Sorter._rank_report_context, Sorter.float_columns.
  unfold sort_columns in *.
  destruct (Sorter.given w) as [wc|]; destruct (Sorter.given r) as [rc|];
    simpl in *.
  - destruct (Hcol wc) as (i & Hi & Hin); [by left|].
    destruct (Hcol rc) as (j & Hj & Hjn); [right; by left|].
    destruct (astype_float_returns wc df i idxs Hi Hin Hrows)
      as (rows1 & -> & Hrows1). simpl.
    destruct (astype_float_returns rc (mkDataFrame (columns df) rows1) j idxs
                Hj Hjn Hrows1) as (rows2 & -> & _). simpl.
    by apply (sort_values_returns _ (mkDataFrame (columns df) rows2) idxs).
  - destruct (Hcol wc) as (i & Hi & Hin); [by left|].
    destruct (astype_float_returns wc df i idxs Hi Hin Hrows)
      as (rows1 & -> & _). simpl.
    by apply (sort_values_returns _ (mkDataFrame (columns df) rows1) idxs).
  - destruct (Hcol rc) as (j & Hj & Hjn); [by left|].
    destruct (astype_float_returns rc df j idxs Hj Hjn Hrows)
      as (rows1 & -> & _). simpl.
    by apply (sort_values_returns _ (mkDataFrame (columns df) rows1) idxs).
  - eauto.
Qed.

End sorter_returns.

Section sorted_returns.
Context `{Runtime}.
Variables (cfg : Config) (entities : option (list Entity)) (sep : ascii).
Hypothesis Hsep : column_delimiter cfg = String sep EmptyString.

Let names : list string :=
  sort_columns (Builder.weight_column cfg entities) (Builder.rank_column cfg).

(** A row wide as the header whose cells at [idxs] parse as floats. *)
Let good_row (hdr : list string) (idxs : list nat) (row : list string) : Prop :=
  length row = length hdr
  ∧ ∀ i, i ∈ idxs → ∃ s y, row !! i = Some s ∧ parse_float s = Some y.

Lemma good_row_app hdr ia ib row :
  good_row hdr ia row → good_row hdr ib row → good_row hdr (ia ++ ib) row.
Proof.
  intros [Hlen Ha] [_ Hb]. split; [done|].
  intros i [Hi|Hi]%elem_of_app; [by apply Ha | by apply Hb].
Qed.

Lemma close_good_batch hdr idxs records :
  Sorter.column_indexes names hdr = Ok idxs →
  Forall (good_row hdr idxs) (tail records) →
  head records = Some hdr →
  ∃ df, Builder.close_batch cfg entities records = Ok df.
Proof.
  intros Hidx Hgood Hhd. unfold Builder.close_batch.
  destruct (1 <? length records)%nat; [|eauto].
  rewrite Hhd. simpl. unfold Sorter._convert_report_context_to_df.
  rewrite (proj2 (forallb_forall _ _)).
  2:{ intros row Hrow. apply Nat.eqb_eq. rewrite Forall_forall in Hgood.
      by apply Hgood, list_elem_of_In. }
  apply (rank_report_context_returns _ _ _ idxs); [exact Hidx|]. simpl.
  apply Forall_fmap. eapply Forall_impl; [exact Hgood|].
  intros row [_ Hcells] i Hi. simpl. destruct (Hcells i Hi) as (s & y & Hs & Hy).
  exists y. by rewrite list_lookup_fmap, Hs.
Qed.

Lemma sorted_loop_step hdr cols idxs st report :
  Sorter.column_indexes names hdr = Ok idxs →
  good_row hdr idxs (Builder.new_context cfg cols report) →
  Forall (good_row hdr idxs) (tail (current_context_records st)) →
  head (current_context_records st) = Some hdr →
  ∃ out, Builder.loop_step cfg entities hdr cols st report = Ok out
         ∧ ∀ st', out = Continue st' →
             Forall (good_row hdr idxs) (tail (current_context_records st'))
             ∧ head (current_context_records st') = Some hdr.
Proof.
  intros Hidx Hrow Hgood Hhd.
  set (t := num_tokens (Builder.row_text cfg (Builder.new_context cfg cols report))).
  destruct (Z_le_gt_dec (current_tokens st + t) (max_tokens cfg)) as [Hfit|Hover].
  - rewrite loop_step_fits by exact Hfit. eexists. split; [done|].
    intros st' [= <-]. simpl.
    destruct (current_context_records st) as [|h records]; [discriminate|].
    simpl in *. split; [|done]. apply Forall_app. split; [done|].
    by apply Forall_singleton.
  - rewrite loop_step_overflow by exact Hover.
    destruct (close_good_batch hdr idxs _ Hidx Hgood Hhd) as [df ->].
    destruct (to_csv_returns cfg sep Hsep df) as [s Hs]. simpl. rewrite Hs. simpl.
    destruct (single_batch cfg); eexists; (split; [done|]); [done|].
    by intros st' [= <-].
Qed.

Lemma sorted_run_loop hdr cols idxs st reports :
  Sorter.column_indexes names hdr = Ok idxs →
  Forall (fun r => good_row hdr idxs (Builder.new_context cfg cols r)) reports →
  Forall (good_row hdr idxs) (tail (current_context_records st)) →
  head (current_context_records st) = Some hdr →
  ∃ out, Builder.run_loop cfg entities hdr cols st reports = Ok out
         ∧ ∀ st', out = Continue st' →
             Forall (good_row hdr idxs) (tail (current_context_records st'))
             ∧ head (current_context_records st') = Some hdr.
Proof.
  intros Hidx Hall. revert st. induction Hall as [|r reports Hr _ IH];
    intros st Hgood Hhd; simpl.
  - eexists. split; [done|]. by intros st' [= <-].
  - destruct (sorted_loop_step hdr cols idxs st r Hidx Hr Hgood Hhd)
      as (out & -> & Hout). simpl. destruct out as [st1|text df].
    + destruct (Hout st1 eq_refl). by apply IH.
    + eexists. split; [done|]. discriminate.
Qed.

Lemma sorted_accumulate_returns sel idxs :
  Sorter.column_indexes names (Builder.header cfg sel) = Ok idxs →
  Forall (fun r => good_row (Builder.header cfg sel) idxs
                     (Builder.new_context cfg (Builder.attribute_cols cfg sel) r))
         sel →
  ∃ out, Builder.accumulate cfg entities sel = Ok out.
Proof.
  intros Hidx Hall. unfold Builder.accumulate.
  destruct (sorted_run_loop (Builder.header cfg sel) (Builder.attribute_cols cfg sel)
              idxs (Builder.initial_state cfg (Builder.header cfg sel)) sel)
    as (out & Hrun & Hout); try done.
  rewrite Hrun. simpl. destruct out as [st|text df]; [|eauto].
  destruct (Hout st eq_refl) as [Hgood Hhd].
  rewrite (finish_closes _ _ (Builder.header cfg sel)).
  - destruct (close_good_batch _ _ _ Hidx Hgood Hhd) as [df ->]. simpl.
    destruct (to_csv_returns cfg sep Hsep df) as [s ->]. simpl.
    rewrite pd_concat_snoc. simpl. eauto.
  - eapply run_loop_inv; [apply header_starts_with_id| |exact Hrun].
    apply initial_state_inv.
Qed.

(** Where the weight column is, and that the rows have a float there. *)
Lemma weight_cells_parse r0 sel :
  (Builder.weight_column cfg entities ≠ None →
   community_weight_name cfg ∉ ["id"; "title"]
   ∧ Forall (weight_parses (community_weight_name cfg)) (r0 :: sel)) →
  ∃ ia,
    Sorter.column_indexes
      (option_list (Sorter.given (Builder.weight_column cfg entities)))
      (Builder.header cfg (r0 :: sel)) = Ok ia
    ∧ Forall (fun r => good_row (Builder.header cfg (r0 :: sel)) ia
                         (Builder.new_context cfg
                            (Builder.attribute_cols cfg (r0 :: sel)) r))
             (r0 :: sel).
Proof.
  intros Hw.
  assert (∀ r : CommunityReport,
            good_row (Builder.header cfg (r0 :: sel)) []
              (Builder.new_context cfg (Builder.attribute_cols cfg (r0 :: sel)) r))
    as Hwide.
  { intros r. split; [apply new_context_width|]. by intros i []%elem_of_nil. }
  unfold Builder.weight_column in *.
  destruct (truthy_list entities && include_community_weight cfg) eqn:Hon.
  2:{ exists []. split; [done|]. apply Forall_forall. intros r _. apply Hwide. }
  apply andb_true_iff in Hon as [_ Hinclude].
  destruct Hw as [Hkey Hall]; [done|].
  destruct (Sorter.given (Some (community_weight_name cfg))) as [c|] eqn:Hgiven.
  2:{ exists []. split; [done|]. apply Forall_forall. intros r _. apply Hwide. }
  assert (c = community_weight_name cfg) as ->.
  { unfold Sorter.given in Hgiven.
    destruct (community_weight_name cfg); congruence. }
  pose proof (Forall_inv Hall) as (v0 & _ & Hv0 & _).
  assert (community_weight_name cfg ∈ Builder.attribute_cols cfg (r0 :: sel)) as Hin.
  { unfold Builder.attribute_cols. rewrite Hinclude.
    apply list_elem_of_filter. split; [exact Hkey|].
    assert (Weights.has_attrs r0 = true) as ->.
    { unfold Weights.has_attrs. unfold attrs_or_empty in Hv0.
      by destruct (attributes r0) as [[|? ?]|]. }
    by eapply dict_get_key. }
  destruct (Sorter.column_index (community_weight_name cfg)
              (Builder.attribute_cols cfg (r0 :: sel))) as [j|] eqn:Hj;
    [|by apply column_index_None in Hj].
  exists [(2 + j)%nat]. split.
  - assert (Sorter.column_index (community_weight_name cfg)
              (Builder.header cfg (r0 :: sel)) = Some (2 + j)%nat) as Hi.
    { unfold Builder.header. cbn [app Sorter.column_index].
      apply not_elem_of_cons in Hkey as [Hid [Htitle _]%not_elem_of_cons].
      destruct (String.eqb_spec (community_weight_name cfg) "id"); [done|].
      destruct (String.eqb_spec (community_weight_name cfg) "title"); [done|].
      by rewrite (column_index_app_l _ _ _ _ Hj). }
    change (option_list (Some (community_weight_name cfg)))
      with [community_weight_name cfg].
    unfold Sorter.column_indexes. cbn [rmapM]. by rewrite Hi.
  - eapply Forall_impl; [exact Hall|]. intros r (v & y & Hv & Hy).
    split; [apply new_context_width|].
    intros i ->%list_elem_of_singleton. exists (Builder.pystr v), y.
    split; [|done]. apply column_index_Some in Hj.
    unfold Builder.new_context. cbn [app]. rewrite lookup_past_two.
    rewrite lookup_app_l by (rewrite length_map; by eapply lookup_lt_Some).
    rewrite list_lookup_fmap, Hj. simpl. by rewrite attribute_cell, Hv.
Qed.

(** Where the rank column is, and that the rows have a float there. *)
Lemma rank_cells_parse sel :
  (include_community_rank cfg = true →
   community_rank_name cfg
     ∉ ["id"; "title"] ++ Builder.attribute_cols cfg sel ++ [body_column cfg]
   ∧ Forall rank_parses sel) →
  ∃ ib,
    Sorter.column_indexes (option_list (Sorter.given (Builder.rank_column cfg)))
      (Builder.header cfg sel) = Ok ib
    ∧ Forall (fun r => good_row (Builder.header cfg sel) ib
                         (Builder.new_context cfg (Builder.attribute_cols cfg sel) r))
             sel.
Proof.
  intros Hr.
  assert (∀ r : CommunityReport,
            good_row (Builder.header cfg sel) []
              (Builder.new_context cfg (Builder.attribute_cols cfg sel) r))
    as Hwide.
  { intros r. split; [apply new_context_width|]. by intros i []%elem_of_nil. }
  unfold Builder.rank_column.
  destruct (include_community_rank cfg) eqn:Hon.
  2:{ exists []. split; [done|]. apply Forall_forall. intros r _. apply Hwide. }
  destruct Hr as [Hfresh Hall]; [done|].
  destruct (Sorter.given (Some (community_rank_name cfg))) as [c|] eqn:Hgiven.
  2:{ exists []. split; [done|]. apply Forall_forall. intros r _. apply Hwide. }
  assert (c = community_rank_name cfg) as ->.
  { unfold Sorter.given in Hgiven. destruct (community_rank_name cfg); congruence. }
  set (cols := Builder.attribute_cols cfg sel) in *.
  assert (Builder.header cfg sel
          = (["id"; "title"] ++ cols ++ [body_column cfg]) ++ [community_rank_name cfg])
    as Hhdr.
  { unfold Builder.header. fold cols. rewrite Hon. unfold body_column.
    by rewrite <- !app_assoc. }
  exists [(3 + length cols)%nat]. split.
  - change (option_list (Some (community_rank_name cfg)))
      with [community_rank_name cfg].
    unfold Sorter.column_indexes. cbn [rmapM]. rewrite Hhdr.
    rewrite (column_index_last _ _ Hfresh). simpl.
    rewrite length_app. simpl. by rewrite Nat.add_1_r.
  - eapply Forall_impl; [exact Hall|]. intros r [y Hy].
    split; [apply new_context_width|].
    intros i ->%list_elem_of_singleton. exists (Builder.str_rank (rank r)), y.
    split; [|done]. unfold Builder.new_context. fold cols. rewrite Hon.
    cbn [app]. change (3 + length cols)%nat with (2 + S (length cols))%nat.
    rewrite lookup_past_two.
    rewrite lookup_app_r by (rewrite length_map; lia).
    rewrite length_map.
    by replace (S (length cols) - length cols)%nat with 1%nat by lia.
Qed.

Lemma sorted_builder_tail_returns sel :
  (Builder.weight_column cfg entities ≠ None →
   community_weight_name cfg ∉ ["id"; "title"]
   ∧ Forall (weight_parses (community_weight_name cfg)) sel) →
  (include_community_rank cfg = true →
   community_rank_name cfg
     ∉ ["id"; "title"] ++ Builder.attribute_cols cfg sel ++ [body_column cfg]
   ∧ Forall rank_parses sel) →
  ∃ out, Builder.accumulate cfg entities sel = Ok out.
Proof.
  intros Hw Hr. destruct sel as [|r0 sel].
  { unfold Builder.accumulate. simpl.
    rewrite (finish_closes _ _ (Builder.header cfg [])) by apply initial_state_inv.
    unfold Builder.initial_state. cbn [current_context_records].
    rewrite close_header_only. simpl.
    destruct (to_csv_returns cfg sep Hsep empty_df) as [s ->]. simpl. eauto. }
  destruct (weight_cells_parse r0 sel Hw) as (ia & Hia & Ha).
  destruct (rank_cells_parse (r0 :: sel) Hr) as (ib & Hib & Hb).
  apply (sorted_accumulate_returns (r0 :: sel) (ia ++ ib)).
  - by apply column_indexes_app.
  - rewrite Forall_forall in Ha, Hb. apply Forall_forall. intros r Hin.
    apply good_row_app; [by apply Ha | by apply Hb].
Qed.

End sorted_returns.

(** X20. The builder returns when its sort columns print and parse.  With a
    one-character delimiter, once the weight stage has succeeded the
    builder returns provided that
    - if the weight column is sorted on (entities given and the weight
      included), the weight key is none of the fixed column names (id,
      title, and summary or content) and every report that reaches the
      batching carries under that key a value whose printed form the float
      conversion reads;
    - if the rank is included, the rank column name is not the name of
      another column and the printed rank of every such report reads as a
      float.
    The sort columns are then columns of the header, every row has a cell
    under each, and conversion and sort succeed on every batch. *)
Theorem builder_returns_when_sort_cells_parse `{Runtime} (cfg : Config)
    (sep : ascii) (community_reports reports' : list CommunityReport)
    (entities : option (list Entity)) :
  let sel := Builder.shuffled cfg (Builder.select_reports cfg reports') in
  column_delimiter cfg = String sep EmptyString →
  Builder.weight_stage cfg community_reports entities = Ok reports' →
  (Builder.weight_column cfg entities ≠ None →
   community_weight_name cfg ∉ ["id"; "title"; body_column cfg]
   ∧ Forall (weight_parses (community_weight_name cfg)) sel) →
  (include_community_rank cfg = true →
   community_rank_name cfg
     ∉ ["id"; "title"] ++ Builder.attribute_cols cfg sel ++ [body_column cfg]
   ∧ Forall rank_parses sel) →
  ∃ text tbls,
    Builder.build_community_context cfg community_reports entities
    = Ok (text, tbls, reports').
Proof.
  intros sel Hsep Hstage Hw Hr.
  unfold Builder.build_community_context. rewrite Hstage. simpl.
  destruct (Builder.select_reports cfg reports') as [|r rs] eqn:Hsel; [eauto|].
  destruct (sorted_builder_tail_returns cfg entities sep Hsep sel) as [[text tbls] Hacc].
  - intros Hon. destruct (Hw Hon) as [Hkey Hall]. split; [|done].
    intros Hin. apply Hkey. rewrite !elem_of_cons in Hin. rewrite !elem_of_cons.
    tauto.
  - exact Hr.
  - subst sel. rewrite Hacc. simpl. eauto.
Qed.

(** * The further properties at work on the worked inputs *)

Lemma compute_weights_touches_only_weight_witness :
  ∃ reports',
    Weights._compute_community_weights [Demo.report_a; Demo.report_b]
      Demo.members "w" true = Ok reports'
    ∧ Forall2 (fun r r' =>
                 same_but_attributes r r'
                 ∧ ∀ k, k ≠ "w" →
                     dict_get k (attrs_or_empty r') = dict_get k (attrs_or_empty r))
              [Demo.report_a; Demo.report_b] reports'.
Proof.
  destruct (Weights._compute_community_weights [Demo.report_a; Demo.report_b]
              Demo.members "w" true) as [reports'|e] eqn:E;
    [|vm_compute in E; discriminate].
  exists reports'. split; [reflexivity|].
  exact (compute_weights_touches_only_weight _ _ _ _ _ E).
Defined.

Lemma weight_key_goes_last_witness :
  ∃ r1 r2,
    Weights._compute_community_weights [Demo.weighted_a; Demo.report_b]
      Demo.members "occurrence weight" false = Ok [r1; r2]
    ∧ dict_keys (attrs_or_empty r1) = ["occurrence weight"]
    ∧ dict_keys (attrs_or_empty r2) = ["occurrence weight"].
Proof.
  pose proof (weight_key_goes_last [Demo.weighted_a; Demo.report_b]
                (Weights.assign_weights Demo.members "occurrence weight"
                   [Demo.weighted_a; Demo.report_b])
                Demo.members "occurrence weight" false eq_refl) as Hkeys.
  apply Forall2_cons_1 in Hkeys as [H1 Hkeys].
  apply Forall2_cons_1 in Hkeys as [H2 _].
  eexists _, _. split; [reflexivity|]. split; [exact H1 | exact H2].
Defined.

Lemma normalized_weights_in_unit_interval_witness :
  ∃ M reports',
    0 < M
    ∧ (∃ r, r ∈ [Demo.report_a; Demo.report_b]
            ∧ raw_weight_of Demo.members r = M)
    ∧ Weights._compute_community_weights [Demo.report_a; Demo.report_b]
        Demo.members "w" true = Ok reports'
    ∧ Forall2 (fun r r' =>
                 ∃ x, dict_get "w" (attrs_or_empty r') = Some (VFloat x)
                      ∧ x = (inject_Z (raw_weight_of Demo.members r) / inject_Z M)%Q
                      ∧ (0 <= x)%Q ∧ (x <= 1)%Q
                      ∧ (raw_weight_of Demo.members r = M → (x == 1)%Q))
              [Demo.report_a; Demo.report_b] reports'.
Proof.
  apply (normalized_weights_in_unit_interval [Demo.report_a; Demo.report_b]
           Demo.members "w").
  exists Demo.report_a. split; [by left | by vm_compute].
Defined.

Lemma unreferenced_reports_raise_on_normalize_witness :
  Weights._compute_community_weights [Demo.report_a; Demo.report_b]
    [Demo.stranger] "w" true
  = Raise ZeroDivisionError.
Proof.
  apply (unreferenced_reports_raise_on_normalize [Demo.report_a; Demo.report_b]
           [Demo.stranger] "w"); [discriminate|].
  intros r e Hr ->%list_elem_of_singleton. simpl.
  apply elem_of_cons in Hr as [-> | ->%list_elem_of_singleton];
    intros [=]%list_elem_of_singleton.
Defined.

Lemma repeated_call_keeps_reports_witness :
  ∃ text tbls reports1 text2 tbls2,
    Builder.build_community_context (H := Demo.runtime) (Demo.config 100 false)
      [Demo.report_a; Demo.report_b] (Some Demo.members)
    = Ok (text, tbls, reports1)
    ∧ reports1 ≠ [Demo.report_a; Demo.report_b]
    ∧ Builder.build_community_context (H := Demo.runtime) (Demo.config 100 false)
        reports1 (Some Demo.members)
      = Ok (text2, tbls2, reports1).
Proof.
  destruct (Builder.build_community_context (H := Demo.runtime)
              (Demo.config 100 false) [Demo.report_a; Demo.report_b]
              (Some Demo.members)) as [[[text tbls] reports1]|e] eqn:E1;
    [|vm_compute in E1; discriminate].
  destruct (Builder.build_community_context (H := Demo.runtime)
              (Demo.config 100 false) reports1 (Some Demo.members))
    as [[[text2 tbls2] reports2]|e] eqn:E2.
  - exists text, tbls, reports1, text2, tbls2. split; [reflexivity|]. split.
    + vm_compute in E1. injection E1 as _ _ <-. discriminate.
    + rewrite E2.
      by rewrite (repeated_call_keeps_reports (H := Demo.runtime) _ _ _ _ _ _ _ _ _
                    E1 E2).
  - vm_compute in E1. injection E1 as _ _ <-. vm_compute in E2. discriminate.
Defined.

Lemma result_needs_one_character_delimiter_witness :
  ∃ c, column_delimiter (Demo.config 100 true) = String c EmptyString.
Proof.
  apply (result_needs_one_character_delimiter (H := Demo.runtime)
           (Demo.config 100 true) [Demo.report_a] [Demo.report_a] None
           (TextList ["id|title|summary" +:+ nl +:+ "1|T1|aaaa" +:+ nl])
           {[ "reports" :=
                mkDataFrame ["id"; "title"; "summary"]
                            [[CStr "1"; CStr "T1"; CStr "aaaa"]] ]}).
  - by vm_compute.
  - by vm_compute.
Defined.

Lemma builder_returns_without_sort_columns_witness :
  ∃ text tbls,
    Builder.build_community_context (H := Demo.runtime) (Demo.config 5 false)
      [Demo.report_a; Demo.rank_zero; Demo.report_b] None
    = Ok (text, tbls, [Demo.report_a; Demo.rank_zero; Demo.report_b]).
Proof.
  apply (builder_returns_without_sort_columns (H := Demo.runtime)
           (Demo.config 5 false) "|"%char); reflexivity.
Defined.

Lemma single_batch_stops_at_first_overflow_witness :
  let cfg := Demo.config 50 true in
  let st := Demo.state_after cfg [Demo.report_a; Demo.report_b] [Demo.report_a] in
  current_context_records st
  = [["id"; "title"; "summary"]; ["1"; "T1"; "aaaa"]]
  ∧ ∀ after',
      Builder.accumulate (H := Demo.runtime) cfg None
        (Demo.report_a :: Demo.report_b :: after')
      = Ok (TextStr ("id|title|summary" +:+ nl +:+ "1|T1|aaaa" +:+ nl),
            {[ "reports" :=
                 mkDataFrame ["id"; "title"; "summary"]
                             [[CStr "1"; CStr "T1"; CStr "aaaa"]] ]}).
Proof.
  intros cfg st.
  destruct (single_batch_stops_at_first_overflow (H := Demo.runtime) cfg None
              [Demo.report_a] [] Demo.report_b st)
    as (Hrec & Hacc & Hany).
  - reflexivity.
  - by vm_compute.
  - by vm_compute.
  - split; [by vm_compute|]. intros after'.
    etrans; [exact (Hany after')|]. etrans; [exact Hacc|]. by vm_compute.
Defined.

Lemma everything_fits_one_batch_witness :
  let cfg := Demo.config 100 false in
  let sel := [Demo.report_a; Demo.report_b] in
  Builder.accumulate (H := Demo.runtime) cfg None sel
  = Ok (TextList ["id|title|summary" +:+ nl +:+ "1|T1|aaaa" +:+ nl
                  +:+ "2|T2|bbbb" +:+ nl],
        {[ "reports" :=
             mkDataFrame ["id"; "title"; "summary"]
                         [[CStr "1"; CStr "T1"; CStr "aaaa"];
                          [CStr "2"; CStr "T2"; CStr "bbbb"]] ]}).
Proof.
  intros cfg sel.
  rewrite (everything_fits_one_batch (H := Demo.runtime) cfg None sel).
  - by vm_compute.
  - intros s. simpl. unfold Demo.count_chars. lia.
  - apply (bool_decide_unpack _). by vm_compute.
  - by vm_compute.
Defined.

Lemma multi_batch_row_accounting_witness :
  let cfg := Demo.config 50 false in
  ∃ texts table,
    Builder.accumulate (H := Demo.runtime) cfg None [Demo.report_a; Demo.report_b]
    = Ok (TextList texts, {[ lower (context_name cfg) := table ]})
    ∧ length (rows table) = 1%nat ∧ length texts = 2%nat.
Proof.
  intros cfg.
  destruct (Builder.accumulate (H := Demo.runtime) cfg None
              [Demo.report_a; Demo.report_b]) as [[text tbls]|e] eqn:E;
    [|vm_compute in E; discriminate].
  destruct (multi_batch_row_accounting (H := Demo.runtime) cfg None
              [Demo.report_a; Demo.report_b] text tbls
              stable_runtime_contract eq_refl E)
    as (texts & table & -> & -> & Hlen).
  exists texts, table. split; [reflexivity|].
  vm_compute in E. injection E as <- Htable.
  simpl in Hlen. split; [lia | reflexivity].
Defined.

Lemma sorter_missing_column_raises_witness :
  Sorter._rank_report_context (H := Demo.runtime)
    (mkDataFrame ["id"; "title"] [[CStr "1"; CStr "T1"]]) (Some "w") None
  = Raise KeyError.
Proof.
  destruct (sorter_missing_column_raises (H := Demo.runtime)
              (mkDataFrame ["id"; "title"] [[CStr "1"; CStr "T1"]])
              (Some "w") None "w") as [Hw _].
  - simpl. intros [[=]|[[=]|[]%elem_of_nil]%elem_of_cons]%elem_of_cons.
  - by apply Hw.
Defined.

Lemma sorter_unparseable_weight_raises_witness :
  Sorter._rank_report_context (H := Demo.runtime)
    (mkDataFrame ["id"; "w"] [[CStr "1"; CStr "0.5"]; [CStr "2"; CStr "n/a"]])
    (Some "w") None
  = Raise ValueError.
Proof.
  apply (sorter_unparseable_weight_raises (H := Demo.runtime) _ _ _ "w" 1%nat
           [CStr "2"; CStr "n/a"] "n/a").
  - reflexivity.
  - reflexivity.
  - simpl. right. by left.
  - reflexivity.
  - by vm_compute.
Defined.

Lemma sorter_keeps_other_cells_witness :
  ∃ rows1,
    Forall2 (same_outside ["w"; "r"] ["id"; "w"; "r"])
      [[CStr "a"; CStr "1"; CStr "2.0"]; [CStr "b"; CStr "1"; CStr "2.0"];
       [CStr "c"; CStr "1"; CStr "3.5"]] rows1
    ∧ Permutation rows1
        [[CStr "c"; CFloat 1; CFloat (35 # 10)];
         [CStr "a"; CFloat 1; CFloat (20 # 10)];
         [CStr "b"; CFloat 1; CFloat (20 # 10)]].
Proof.
  apply (sorter_keeps_other_cells (H := Demo.runtime)
           (mkDataFrame ["id"; "w"; "r"]
              [[CStr "a"; CStr "1"; CStr "2.0"]; [CStr "b"; CStr "1"; CStr "2.0"];
               [CStr "c"; CStr "1"; CStr "3.5"]])
           (Some "w") (Some "r")
           (mkDataFrame ["id"; "w"; "r"]
              [[CStr "c"; CFloat 1; CFloat (35 # 10)];
               [CStr "a"; CFloat 1; CFloat (20 # 10)];
               [CStr "b"; CFloat 1; CFloat (20 # 10)]])
           stable_runtime_contract).
  vm_compute. reflexivity.
Defined.

Lemma rendered_batch_is_counted_text_witness :
  let cfg := Demo.config 100 false in
  let st := Demo.state_after cfg [Demo.report_a; Demo.report_b]
              [Demo.report_a; Demo.report_b] in
  ∃ df text,
    Builder.close_batch (H := Demo.runtime) cfg None (current_context_records st)
    = Ok df
    ∧ Csv.to_csv (H := Demo.runtime) (column_delimiter cfg) df = Ok text
    ∧ current_context_text st = banner cfg +:+ text.
Proof.
  intros cfg st.
  apply (rendered_batch_is_counted_text (H := Demo.runtime) cfg None "|"%char
           [Demo.report_a; Demo.report_b] [Demo.report_a; Demo.report_b] st).
  - reflexivity.
  - reflexivity.
  - reflexivity.
  - by vm_compute.
  - by vm_compute.
  - vm_compute. repeat constructor.
Defined.

Lemma model_name_routing_witness :
  Llm._execute_llm (H := LlmDemo.services) "ollama.llama3.1" "hi"
  = Llm.Done "ollama:llama3.1:hi"
  ∧ Llm._execute_llm (H := LlmDemo.services) "ollama" "hi"
    = Llm.Done "ollama::hi".
Proof.
  exact (model_name_routing (H := LlmDemo.services) tt "ollama" "llama3.1" "hi"
           eq_refl eq_refl).
Defined.

Lemma builder_returns_when_sort_cells_parse_witness :
  ∃ text tbls reports',
    Builder.build_community_context (H := Demo.runtime) Demo.ranked_config
      [Demo.report_a; Demo.report_b] (Some Demo.members)
    = Ok (text, tbls, reports').
Proof.
  destruct (Builder.weight_stage Demo.ranked_config
              [Demo.report_a; Demo.report_b] (Some Demo.members))
    as [reports'|e] eqn:E; [|vm_compute in E; discriminate].
  destruct (builder_returns_when_sort_cells_parse (H := Demo.runtime)
              Demo.ranked_config "|"%char [Demo.report_a; Demo.report_b] reports'
              (Some Demo.members) eq_refl E)
    as (text & tbls & Hbuild).
  - intros _. vm_compute in E. injection E as <-. split.
    + apply (bool_decide_unpack _). by vm_compute.
    + repeat constructor; do 2 eexists; split; reflexivity.
  - intros _. vm_compute in E. injection E as <-. split.
    + apply (bool_decide_unpack _). by vm_compute.
    + repeat constructor; eexists; reflexivity.
  - by exists text, tbls, reports'.
Defined.

Lemma filter_keeps_ranked_sublist_witness :
  let reports := [Demo.report_a; Demo.rank_zero; Demo.unranked; Demo.report_b] in
  let cfg := Demo.config 100 false in
  let cfg' := mkConfig true "|" false false 2 "rank" true "occurrence weight" true
                100 false "Reports" 86 in
  Builder.select_reports cfg' reports `sublist_of` Builder.select_reports cfg reports.
Proof.
  intros reports cfg cfg'.
  destruct (filter_keeps_ranked_sublist cfg cfg' reports) as (_ & _ & Hmin).
  apply Hmin. simpl. lia.
Defined.

Lemma returned_text_never_has_banner_witness :
  Forall (fun t => starts_with_dash t = false)
         ["id|title|summary" +:+ nl +:+ "1|T1|aaaa" +:+ nl; nl].
Proof.
  destruct (returned_text_never_has_banner (H := Demo.runtime) (Demo.config 50 false)
              [Demo.report_a; Demo.report_b] [Demo.report_a; Demo.report_b] None
              (TextList ["id|title|summary" +:+ nl +:+ "1|T1|aaaa" +:+ nl; nl])
              {[ "reports" :=
                   mkDataFrame ["id"; "title"; "summary"]
                               [[CStr "1"; CStr "T1"; CStr "aaaa"]] ]})
    as [_ Htext].
  apply Htext. by vm_compute.
Defined.
